(** * Shared-memory plugins of pyFreeFEM-ML

    A shallow embedding of the FreeFEM shared-memory plugins:

    - [MmapSemaphore]       pyfreefem_ml/plugins/src/mmap-semaphore.cpp
                            (System V segments, registry keyed by name);
    - [PluginsMmapSemaphore] plugins/src/mmap-semaphore.cpp
                            (the older variant of the same manager);
    - [ShmImplementation]   pyfreefem_ml/plugins/src/shm_implementation.cpp
                            (POSIX shared memory with a named semaphore);
    - [DoubleArrayOps]      pyfreefem_ml/plugins/src/double_array_ops.cpp.

    The C++ functions are written as state-passing programs over an explicit
    world: the static tables of the manager classes, the address space of the
    process and the kernel objects behind the system calls. *)

From Stdlib Require Import ZArith QArith List String Ascii Lia Bool.
From Stdlib Require Import Floats.PrimFloat.
From stdpp Require Import base option list gmap strings sorting.

#[local] Open Scope Z_scope.

(** ** Machine integers and raw memory *)

(** A byte is kept as an integer in [0, 256). *)
Abbreviation byte := Z.

(** [size_t] is 64 bits wide; unsigned arithmetic wraps. *)
Definition SIZE_T_MODULUS : Z := 2 ^ 64.

Definition to_size_t (z : Z) : Z := z mod SIZE_T_MODULUS.

Definition sizeof_double : Z := 8.

(** [static_cast<size_t>(d)] of a finite [double], which is a rational: the
    fraction is discarded, and the conversion is undefined ([None]) when the
    truncated value does not fit [size_t]. *)
Definition double_to_size_t (d : Q) : option Z :=
  let t := Z.quot (Qnum d) (Z.pos (Qden d)) in
  if (0 <=? t) && (t <? SIZE_T_MODULUS) then Some t else None.

(** The bytes [off, off + n) lie inside an object of [len] bytes. *)
Definition in_bounds (len : nat) (off n : Z) : bool :=
  (0 <=? off) && (0 <=? n) && (off + n <=? Z.of_nat len).

Definition load_bytes (bs : list byte) (off n : Z) : option (list byte) :=
  if in_bounds (length bs) off n
  then Some (take (Z.to_nat n) (drop (Z.to_nat off) bs))
  else None.

Definition store_bytes (bs : list byte) (off : Z) (data : list byte)
  : option (list byte) :=
  if in_bounds (length bs) off (Z.of_nat (length data))
  then Some (take (Z.to_nat off) bs ++ data
             ++ drop (Z.to_nat off + length data) bs)
  else None.

(** The bytes [data] lie at offset [off] of [bs]. *)
Definition holds (bs : list byte) (off : Z) (data : list byte) : Prop :=
  load_bytes bs off (Z.of_nat (length data)) = Some data.

(** A pointer is the null pointer, the [(void* )-1] that [shmat] and [mmap]
    return on failure, or an offset into a mapped block. *)
Inductive pointer : Type :=
| NullPtr
| MinusOnePtr
| Ptr (b : nat) (off : Z).

#[global] Instance pointer_eq_dec : EqDecision pointer.
Proof. solve_decision. Defined.

(** [(char* )p + d]. *)
Definition ptr_add (p : pointer) (d : Z) : pointer :=
  match p with
  | Ptr b off => Ptr b (off + d)
  | _ => p
  end.

(** ** Programs over a world

    A call either returns a value together with the world it leaves behind,
    or it traps: it touches memory outside what is mapped, which C leaves
    undefined.  The world at the trap is kept. *)

Inductive outcome (S A : Type) : Type :=
| Done (a : A) (s : S)
| Trap (s : S).
Arguments Done {S A} a s.
Arguments Trap {S A} s.

Definition exec (S A : Type) : Type := S -> outcome S A.

#[global] Instance exec_ret {S} : MRet (exec S) :=
  fun A a s => Done a s.

#[global] Instance exec_bind {S} : MBind (exec S) :=
  fun A B f m s =>
    match m s with
    | Done a s' => f a s'
    | Trap s' => Trap s'
    end.

Definition get_world {S} : exec S S := fun s => Done s s.
Definition modify {S} (f : S -> S) : exec S unit := fun s => Done tt (f s).
Definition trap {S A} : exec S A := fun s => Trap s.

(** Run a program on one component [T] of the world [S]. *)
Definition zoom {S T A} (proj : S -> T) (inj : T -> S -> S) (m : exec T A)
  : exec S A := fun s =>
  match m (proj s) with
  | Done a t => Done a (inj t s)
  | Trap t => Trap (inj t s)
  end.

(** Failures that the C++ code reports by printing on [cerr] and returning
    [false] or [-1]. *)
Inductive result (E A : Type) : Type :=
| Ok (a : A)
| Err (e : E).
Arguments Ok {E A} a.
Arguments Err {E A} e.

Definition succeeded {E A} (r : result E A) : bool :=
  match r with Ok _ => true | Err _ => false end.

(** The world a run ends in. *)
Definition final_world {S A} (o : outcome S A) : S :=
  match o with
  | Done _ s => s
  | Trap s => s
  end.

(** [static_cast<size_t>] inside a program: out of range is undefined. *)
Definition cast_size_t {S} (d : Q) : exec S Z :=
  match double_to_size_t d with
  | Some z => mret z
  | None => trap
  end.

(** A range-based [for] whose body is one call: the calls run in order and
    what they return is dropped. *)
Fixpoint for_each {S A R} (f : A -> exec S R) (l : list A) : exec S unit :=
  match l with
  | [] => mret tt
  | x :: l' => _ ← f x; for_each f l'
  end.

(** ** System V shared memory, as the two managers use it *)

Module SysV.

(** The kernel's segments and the attachments of the process. *)
Record Kernel : Type := mkKernel {
  k_attachments : gmap nat Z;       (* mapped block -> shmid *)
  k_next_block : nat;               (* next block handed out by shmat *)
  k_keys : gmap Z Z;                (* key_t -> shmid *)
  k_segments : gmap Z (list byte);  (* shmid -> contents *)
  k_next_shmid : Z;                 (* identifier of the next new segment *)
  k_marked : gset Z;                (* segments marked for destruction *)
  k_elsewhere : gset Z              (* segments other processes are attached to *)
}.

Definition boot : Kernel := mkKernel ∅ 0%nat ∅ ∅ 0 ∅ ∅.

(** What the operating system decides on its own during one call. *)
Record Os : Type := mkOs {
  os_pid : Z;                (* getpid() *)
  os_ftok : string -> Z;     (* ftok(path, 'R'), -1 when the path is missing *)
  os_shmget_refused : bool;  (* ENOMEM, ENOSPC, EACCES *)
  os_shmat_refused : bool;   (* ENOMEM, EACCES *)
  os_shmctl_refused : bool   (* EPERM *)
}.

Definition IPC_PRIVATE : Z := 0.

(** [shmget(key, size, IPC_CREAT | 0666)]. *)
Definition shmget (os : Os) (key sz : Z) : exec Kernel Z := fun k =>
  if os_shmget_refused os then Done (-1) k
  else
    let existing := if key =? IPC_PRIVATE then None else k_keys k !! key in
    match existing with
    | Some shmid =>
        match k_segments k !! shmid with
        | Some bs =>
            if sz <=? Z.of_nat (length bs) then Done shmid k
            else Done (-1) k                         (* EINVAL *)
        | None => Done (-1) k
        end
    | None =>
        if sz <=? 0 then Done (-1) k                 (* EINVAL *)
        else
          let shmid := k_next_shmid k in
          Done shmid
            (mkKernel (k_attachments k) (k_next_block k)
               (if key =? IPC_PRIVATE then k_keys k
                else <[key := shmid]> (k_keys k))
               (<[shmid := replicate (Z.to_nat sz) 0]> (k_segments k))
               (shmid + 1) (k_marked k) (k_elsewhere k))
    end.

(** [shmat(id, NULL, 0)].  A segment that is marked for destruction can
    still be attached for as long as it exists. *)
Definition shmat (os : Os) (shmid : Z) : exec Kernel pointer := fun k =>
  if os_shmat_refused os then Done MinusOnePtr k
  else
    match k_segments k !! shmid with
    | None => Done MinusOnePtr k                     (* EINVAL *)
    | Some _ =>
        let b := k_next_block k in
        Done (Ptr b 0)
          (mkKernel (<[b := shmid]> (k_attachments k)) (S b)
             (k_keys k) (k_segments k) (k_next_shmid k)
             (k_marked k) (k_elsewhere k))
    end.

(** The attach count [shm_nattch] of a segment is not zero: this process
    or another one is attached to it. *)
Definition held (k : Kernel) (shmid : Z) : bool :=
  bool_decide (map_Exists (fun _ id => id = shmid) (k_attachments k))
  || bool_decide (shmid ∈ k_elsewhere k).

(** The kernel destroys a segment: its contents go, and so does its key. *)
Definition remove_segment (shmid : Z) (k : Kernel) : Kernel :=
  mkKernel (k_attachments k) (k_next_block k)
    (filter (fun kv => kv.2 ≠ shmid) (k_keys k))
    (delete shmid (k_segments k)) (k_next_shmid k)
    (k_marked k ∖ {[shmid]}) (k_elsewhere k).

(** [shmdt(addr)]: the result is [0] or [-1].  The last detach from a
    segment that is marked for destruction destroys it. *)
Definition shmdt (p : pointer) : exec Kernel Z := fun k =>
  match p with
  | Ptr b 0 =>
      match k_attachments k !! b with
      | Some shmid =>
          let k1 := mkKernel (delete b (k_attachments k)) (k_next_block k)
                      (k_keys k) (k_segments k) (k_next_shmid k)
                      (k_marked k) (k_elsewhere k) in
          Done 0 (if bool_decide (shmid ∈ k_marked k) && negb (held k1 shmid)
                  then remove_segment shmid k1
                  else k1)
      | None => Done (-1) k
      end
  | _ => Done (-1) k
  end.

(** [shmctl(id, IPC_RMID, NULL)].  A segment to which nothing is attached
    is destroyed at once.  Otherwise it is marked for destruction: its key
    no longer leads to it, and it lives on until the last detach. *)
Definition shmctl_rmid (os : Os) (shmid : Z) : exec Kernel Z := fun k =>
  if os_shmctl_refused os then Done (-1) k
  else
    match k_segments k !! shmid with
    | None => Done (-1) k                            (* EINVAL *)
    | Some _ =>
        Done 0
          (if held k shmid
           then mkKernel (k_attachments k) (k_next_block k)
                  (filter (fun kv => kv.2 ≠ shmid) (k_keys k))
                  (k_segments k) (k_next_shmid k)
                  (k_marked k ∪ {[shmid]}) (k_elsewhere k)
           else remove_segment shmid k)
    end.

(** A segment is released: it no longer exists, or it is marked for
    destruction and only waits for the attachments that remain. *)
Definition released (k : Kernel) (shmid : Z) : Prop :=
  k_segments k !! shmid = None
  \/ (shmid ∈ k_marked k /\ held k shmid = true).

(** The segment behind a pointer, with the offset inside it. *)
Definition resolve (k : Kernel) (p : pointer) : option (Z * Z) :=
  match p with
  | Ptr b off => shmid ← k_attachments k !! b; Some (shmid, off)
  | _ => None
  end.

(** [memcpy(dst, src, n)] into shared memory from a caller's buffer. *)
Definition memcpy_to_shm (dst : pointer) (src : list byte) (n : Z)
  : exec Kernel unit := fun k =>
  match resolve k dst with
  | Some (shmid, off) =>
      match k_segments k !! shmid, load_bytes src 0 n with
      | Some bs, Some chunk =>
          match store_bytes bs off chunk with
          | Some bs' =>
              Done tt (mkKernel (k_attachments k) (k_next_block k) (k_keys k)
                         (<[shmid := bs']> (k_segments k)) (k_next_shmid k)
                         (k_marked k) (k_elsewhere k))
          | None => Trap k
          end
      | _, _ => Trap k
      end
  | None => Trap k
  end.

(** [memcpy(dst, src, n)] out of shared memory; the value is the caller's
    buffer after the copy. *)
Definition memcpy_from_shm (dst : list byte) (src : pointer) (n : Z)
  : exec Kernel (list byte) := fun k =>
  match resolve k src with
  | Some (shmid, off) =>
      match k_segments k !! shmid with
      | Some bs =>
          match load_bytes bs off n with
          | Some chunk =>
              match store_bytes dst 0 chunk with
              | Some dst' => Done dst' k
              | None => Trap k
              end
          | None => Trap k
          end
      | None => Trap k
      end
  | None => Trap k
  end.

End SysV.

(** ** pyfreefem_ml/plugins/src/mmap-semaphore.cpp *)

Module MmapSemaphore.
Import SysV.

(** [struct SharedMemInfo]. *)
Record SharedMemInfo : Type := mkSharedMemInfo {
  info_id : Z;              (* int id *)
  info_size : Z;            (* size_t size *)
  info_addr : pointer;      (* void* addr *)
  info_isAttached : bool    (* bool isAttached *)
}.

(** [SharedMemInfo(int _id, size_t _size)]. *)
Definition new_info (shmid sz : Z) : SharedMemInfo :=
  mkSharedMemInfo shmid sz NullPtr false.

(** The static map of [SharedMemoryManager] and the kernel under it. *)
Record World : Type := mkWorld {
  sharedMemories : gmap string SharedMemInfo;
  kernel : Kernel
}.

Definition empty_world : World := mkWorld ∅ boot.

Definition sys {A} (m : exec Kernel A) : exec World A :=
  zoom kernel (fun k w => mkWorld (sharedMemories w) k) m.

Definition set_entry (name : string) (it : SharedMemInfo) : exec World unit :=
  modify (fun w => mkWorld (<[name := it]> (sharedMemories w)) (kernel w)).

Definition erase_entry (name : string) : exec World unit :=
  modify (fun w => mkWorld (delete name (sharedMemories w)) (kernel w)).

(** The messages on [cerr], one constructor per message. *)
Inductive error : Type :=
| AlreadyExists   (* Shared memory with name '...' already exists *)
| CreateFailed    (* Error creating shared memory *)
| NotFound        (* Shared memory with name '...' does not exist *)
| DetachFailed    (* Error detaching shared memory *)
| DestroyFailed   (* Error destroying shared memory *)
| OutOfBounds     (* Write/Read operation exceeds shared memory size *)
| AttachFailed.   (* Error attaching shared memory *)

#[global] Instance error_eq_dec : EqDecision error.
Proof. solve_decision. Defined.

(** A [char] is signed. *)
Definition char_value (c : ascii) : Z :=
  let n := Z.of_N (N_of_ascii c) in
  if n <? 128 then n else n - 256.

(** [generateKey]: the masks keep the low 31 bits, so the wrap-around of
    the 32-bit [int] arithmetic does not show. *)
Definition generateKey (os : Os) (name : string) : Z :=
  let key :=
    fold_left (fun key c => Z.land (key * 31 + char_value c) 0x7FFFFFFF)
              (list_ascii_of_string name) 0 in
  Z.land (Z.lxor key (Z.shiftl (os_pid os) 16)) 0x7FFFFFFF.

(** [SharedMemoryManager::create]. *)
Definition create (os : Os) (name : string) (sz : Z)
  : exec World (result error Z) :=
  w ← get_world;
  match sharedMemories w !! name with
  | Some _ => mret (Err AlreadyExists)
  | None =>
      let key := generateKey os name in
      shmid ← sys (shmget os key sz);
      if shmid =? -1 then mret (Err CreateFailed)
      else
        _ ← set_entry name (new_info shmid sz);
        mret (Ok shmid)
  end.

(** [SharedMemoryManager::destroy]. *)
Definition destroy (os : Os) (name : string)
  : exec World (result error unit) :=
  w ← get_world;
  match sharedMemories w !! name with
  | None => mret (Err NotFound)
  | Some it =>
      dt ← (if info_isAttached it && bool_decide (info_addr it ≠ NullPtr)
            then sys (shmdt (info_addr it))
            else mret 0);
      if dt =? -1 then mret (Err DetachFailed)
      else
        rm ← sys (shmctl_rmid os (info_id it));
        if rm =? -1 then mret (Err DestroyFailed)
        else
          _ ← erase_entry name;
          mret (Ok tt)
  end.

(** The block that [write] and [read] share: attach on first use.  The
    value is the entry to copy through, or [None] when [shmat] failed. *)
Definition auto_attach (os : Os) (name : string) (it : SharedMemInfo)
  : exec World (option SharedMemInfo) :=
  if negb (info_isAttached it) || bool_decide (info_addr it = NullPtr) then
    p ← sys (shmat os (info_id it));
    if decide (p = MinusOnePtr) then
      _ ← set_entry name
            (mkSharedMemInfo (info_id it) (info_size it) NullPtr
               (info_isAttached it));
      mret None
    else
      let it' := mkSharedMemInfo (info_id it) (info_size it) p true in
      _ ← set_entry name it';
      mret (Some it')
  else mret (Some it).

(** [SharedMemoryManager::write(name, data, size, offset)]; [data] is the
    caller's buffer. *)
Definition write (os : Os) (name : string) (data : list byte)
    (sz offset : Z) : exec World (result error unit) :=
  w ← get_world;
  match sharedMemories w !! name with
  | None => mret (Err NotFound)
  | Some it =>
      if to_size_t (offset + sz) >? info_size it then mret (Err OutOfBounds)
      else
        a ← auto_attach os name it;
        match a with
        | None => mret (Err AttachFailed)
        | Some it' =>
            _ ← sys (memcpy_to_shm (ptr_add (info_addr it') offset) data sz);
            mret (Ok tt)
        end
  end.

(** [SharedMemoryManager::read(name, data, size, offset)]: on success the
    value is the caller's buffer after the copy. *)
Definition read (os : Os) (name : string) (data : list byte)
    (sz offset : Z) : exec World (result error (list byte)) :=
  w ← get_world;
  match sharedMemories w !! name with
  | None => mret (Err NotFound)
  | Some it =>
      if to_size_t (offset + sz) >? info_size it then mret (Err OutOfBounds)
      else
        a ← auto_attach os name it;
        match a with
        | None => mret (Err AttachFailed)
        | Some it' =>
            data' ← sys (memcpy_from_shm data (ptr_add (info_addr it') offset) sz);
            mret (Ok data')
        end
  end.

(** The order of a [std::map<string, ...>]: strings compare byte by byte,
    and a proper prefix comes first. *)
Definition string_le (a b : string) : Prop := (a <=? b)%string = true.

#[global] Instance string_le_dec : RelDecision string_le.
Proof. intros a b. unfold string_le. apply _. Defined.

(** [SharedMemoryManager::list]: the registered names, in the order of the
    map. *)
Definition list_names (w : World) : list string :=
  merge_sort string_le (elements (dom (sharedMemories w))).

(** [SharedMemoryManager::cleanup]; [os] tells what the system decides
    during the [destroy] of each name. *)
Definition cleanup (os : string -> Os) : exec World unit :=
  w ← get_world;
  let names := list_names w in
  _ ← for_each (fun name => destroy (os name) name) names;
  modify (fun w => mkWorld ∅ (kernel w)).

(** [class ArrayInfo]: two [double] fields. *)
Record ArrayInfo : Type := mkArrayInfo {
  ai_size : Q;
  ai_offset : Q
}.

(** [shm_create]; the [double] it returns holds the identifier or [-1]. *)
Definition shm_create (os : Os) (name : string) (size : Q) : exec World Z :=
  sz ← cast_size_t size;
  r ← create os name sz;
  mret (match r with Ok shmid => shmid | Err _ => -1 end).

(** [shm_destroy]; [true] stands for [1.0]. *)
Definition shm_destroy (os : Os) (name : string) : exec World bool :=
  r ← destroy os name;
  mret (succeeded r).

(** [shm_write_array]; [true] stands for [1.0]. *)
Definition shm_write_array (os : Os) (name : string) (data : list byte)
    (info : ArrayInfo) : exec World bool :=
  n ← cast_size_t (ai_size info);
  let sz := to_size_t (n * sizeof_double) in
  o ← cast_size_t (ai_offset info);
  r ← write os name data sz o;
  mret (succeeded r).


(** *** The claims as the specification words them *)


(** A failed release that still unregisters the name, as the specification
    describes it. *)
Definition failed_destroy_unregisters (os : Os) (name : string) (w : World)
  : Prop :=
  exists w', destroy os name w = Done (Err DestroyFailed) w'
             /\ sharedMemories w' !! name = None.

(** The detach step of [destroy] goes through: the entry is not attached,
    or its address is the start of a live attachment. *)
Definition detachable (w : World) (it : SharedMemInfo) : Prop :=
  info_isAttached it = true ->
  info_addr it <> NullPtr ->
  exists b, info_addr it = Ptr b 0 /\ is_Some (k_attachments (kernel w) !! b).

(** The release call of [destroy] errors: the kernel refuses it, or the
    segment is no longer there. *)
Definition release_errors (os : Os) (w : World) (it : SharedMemInfo) : Prop :=
  os_shmctl_refused os = true \/ k_segments (kernel w) !! info_id it = None.

(** The bytes of the segment registered under a name. *)
Definition segment_of (w : World) (name : string) : option (list byte) :=
  it ← sharedMemories w !! name; k_segments (kernel w) !! info_id it.

(** The address of every attached entry is the start of a live attachment,
    and no two names hold the same one. *)
Definition attachments_sound (w : World) : Prop :=
  forall name it,
    sharedMemories w !! name = Some it ->
    info_isAttached it = true ->
    info_addr it <> NullPtr ->
    exists b,
      info_addr it = Ptr b 0
      /\ is_Some (k_attachments (kernel w) !! b)
      /\ forall name' it',
           sharedMemories w !! name' = Some it' ->
           info_addr it' = Ptr b 0 ->
           name' = name.

(** *** Sample worlds *)

Definition sample_os : Os := mkOs 4242 (fun _ => -1) false false false.

(** The kernel refuses [IPC_RMID]. *)
Definition sample_os_no_release : Os := mkOs 4242 (fun _ => -1) false false true.

(** One registered segment ["seg"] of 16 bytes, not yet attached. *)
Definition sample_world : World :=
  final_world (create sample_os "seg" 16 empty_world).

Definition sample_data : list byte :=
  [1; 2; 3; 4; 5; 6; 7; 8; 9; 10; 11; 12; 13; 14; 15; 16].

(** The sample segment after four bytes were written at offset 3: it is
    attached. *)
Definition attached_world : World :=
  final_world (write sample_os "seg" [7; 8; 9; 10] 4 3 sample_world).

(** Two names that [generateKey] does not tell apart, ["Aa"] and ["BB"],
    created and written one after the other in a fresh process: one
    segment, attached twice. *)
Definition shared_world : World :=
  final_world
    (write sample_os "BB" [2] 1 1
       (final_world
          (write sample_os "Aa" [1] 1 0
             (final_world
                (create sample_os "BB" 16
                   (final_world (create sample_os "Aa" 16 empty_world))))))).

End MmapSemaphore.

(** ** plugins/src/mmap-semaphore.cpp *)

Module PluginsMmapSemaphore.
Import SysV.

(** [struct SharedMemInfo], as in the other manager. *)
Record SharedMemInfo : Type := mkSharedMemInfo {
  info_id : Z;
  info_size : Z;
  info_addr : pointer;
  info_isAttached : bool
}.

Definition new_info (shmid sz : Z) : SharedMemInfo :=
  mkSharedMemInfo shmid sz NullPtr false.

(** The static map [segments] and the kernel under it. *)
Record World : Type := mkWorld {
  segments : gmap string SharedMemInfo;
  kernel : Kernel
}.

Definition empty_world : World := mkWorld ∅ boot.

Definition sys {A} (m : exec Kernel A) : exec World A :=
  zoom kernel (fun k w => mkWorld (segments w) k) m.

Definition set_entry (name : string) (it : SharedMemInfo) : exec World unit :=
  modify (fun w => mkWorld (<[name := it]> (segments w)) (kernel w)).

Definition erase_entry (name : string) : exec World unit :=
  modify (fun w => mkWorld (delete name (segments w)) (kernel w)).

Inductive error : Type :=
| KeyFailed       (* Error creating key *)
| CreateFailed    (* Error creating shared memory *)
| NotFound        (* Segment not found *)
| DetachFailed    (* Error detaching memory *)
| RemoveFailed    (* Error removing segment *)
| AttachFailed    (* Error attaching memory *)
| TooLarge.       (* Array too large for segment *)

(** [SharedMemoryManager::Create]. *)
Definition Create (os : Os) (name : string) (sz : Z)
  : exec World (result error Z) :=
  let key := os_ftok os name in
  if key =? -1 then mret (Err KeyFailed)
  else
    shmid ← sys (shmget os key sz);
    if shmid =? -1 then mret (Err CreateFailed)
    else
      _ ← set_entry name (new_info shmid sz);
      mret (Ok shmid).

(** [SharedMemoryManager::Destroy]. *)
Definition Destroy (os : Os) (name : string)
  : exec World (result error unit) :=
  w ← get_world;
  match segments w !! name with
  | None => mret (Err NotFound)
  | Some it =>
      dt ← (if info_isAttached it then sys (shmdt (info_addr it))
            else mret 0);
      if dt =? -1 then mret (Err DetachFailed)
      else
        rm ← sys (shmctl_rmid os (info_id it));
        if rm =? -1 then mret (Err RemoveFailed)
        else
          _ ← erase_entry name;
          mret (Ok tt)
  end.

(** The attach block of [WriteArray] and [ReadArray]; the address is
    stored before it is tested. *)
Definition attach_first (os : Os) (name : string) (it : SharedMemInfo)
  : exec World (option SharedMemInfo) :=
  if negb (info_isAttached it) then
    p ← sys (shmat os (info_id it));
    _ ← set_entry name
          (mkSharedMemInfo (info_id it) (info_size it) p (info_isAttached it));
    if decide (p = MinusOnePtr) then mret None
    else
      let it' := mkSharedMemInfo (info_id it) (info_size it) p true in
      _ ← set_entry name it';
      mret (Some it')
  else mret (Some it).

(** The byte count [size * sizeof(double)] of an [int size], computed in
    [size_t]. *)
Definition array_bytes (sz : Z) : Z :=
  to_size_t (to_size_t sz * sizeof_double).

(** [SharedMemoryManager::WriteArray(name, data, size, offset)] with
    [int size] and [int offset]; [data] is the caller's array as bytes. *)
Definition WriteArray (os : Os) (name : string) (data : list byte)
    (sz offset : Z) : exec World (result error unit) :=
  w ← get_world;
  match segments w !! name with
  | None => mret (Err NotFound)
  | Some it =>
      a ← attach_first os name it;
      match a with
      | None => mret (Err AttachFailed)
      | Some it' =>
          if to_size_t (to_size_t offset + array_bytes sz) >? info_size it'
          then mret (Err TooLarge)
          else
            _ ← sys (memcpy_to_shm (ptr_add (info_addr it') offset) data
                       (array_bytes sz));
            mret (Ok tt)
      end
  end.

(** [SharedMemoryManager::ReadArray(name, data, size, offset)]. *)
Definition ReadArray (os : Os) (name : string) (data : list byte)
    (sz offset : Z) : exec World (result error (list byte)) :=
  w ← get_world;
  match segments w !! name with
  | None => mret (Err NotFound)
  | Some it =>
      a ← attach_first os name it;
      match a with
      | None => mret (Err AttachFailed)
      | Some it' =>
          if to_size_t (to_size_t offset + array_bytes sz) >? info_size it'
          then mret (Err TooLarge)
          else
            data' ← sys (memcpy_from_shm data (ptr_add (info_addr it') offset)
                           (array_bytes sz));
            mret (Ok data')
      end
  end.

(** *** Sample worlds *)

(** [ftok] finds every path and maps it to the key 77. *)
Definition sample_os : Os := mkOs 4242 (fun _ => 77) false false false.

(** The kernel refuses [IPC_RMID]. *)
Definition sample_os_no_release : Os := mkOs 4242 (fun _ => 77) false false true.

(** One registered segment ["seg"] of 16 bytes, not yet attached. *)
Definition sample_world : World :=
  final_world (Create sample_os "seg" 16 empty_world).

(** The bytes of the segment registered under a name. *)
Definition segment_of (w : World) (name : string) : option (list byte) :=
  it ← segments w !! name; k_segments (kernel w) !! info_id it.

(** The bytes of two elements. *)
Definition sample_bytes : list byte :=
  [1; 2; 3; 4; 5; 6; 7; 8; 9; 10; 11; 12; 13; 14; 15; 16].

(** The sample segment after one element was written at offset 3: it is
    attached. *)
Definition attached_world : World :=
  final_world (WriteArray sample_os "seg" [1; 2; 3; 4; 5; 6; 7; 8] 1 3
                 sample_world).

End PluginsMmapSemaphore.

(** ** pyfreefem_ml/plugins/src/shm_implementation.cpp *)

Module ShmImplementation.

(** *** Object representations *)

(** Little-endian bytes of an unsigned integer, and back. *)
Fixpoint le_bytes (n : nat) (v : Z) : list byte :=
  match n with
  | O => []
  | S n' => (v mod 256) :: le_bytes n' (v / 256)
  end.

Fixpoint le_value (bs : list byte) : Z :=
  match bs with
  | [] => 0
  | b :: bs' => b + 256 * le_value bs'
  end.

Definition char_code (c : ascii) : byte := Z.of_N (N_of_ascii c).

(** The bytes [strcpy] copies for a string: its characters and the
    terminating zero. *)
Definition c_str (s : string) : list byte :=
  (char_code <$> list_ascii_of_string s) ++ [0].

(** The C string that starts at the head of [bs]; [None] when no
    terminator is found in the readable bytes. *)
Fixpoint read_c_string (bs : list byte) : option string :=
  match bs with
  | [] => None
  | b :: bs' =>
      if b =? 0 then Some EmptyString
      else s ← read_c_string bs'; Some (String (ascii_of_N (Z.to_N b)) s)
  end.

(** [strcmp(p, lit) == 0] for a literal [lit] given with its terminator:
    the comparison stops at the first difference. *)
Fixpoint strcmp_eq (bs lit : list byte) : option bool :=
  match lit with
  | [] => Some true
  | c :: lit' =>
      match bs with
      | [] => None
      | b :: bs' =>
          if b =? c then (if c =? 0 then Some true else strcmp_eq bs' lit')
          else Some false
      end
  end.

(** [struct SharedMemoryData]: [size_t size; size_t elements;
    char data_type[32]; char semaphore_name[64]]. *)
Definition OFFSET_size : Z := 0.
Definition OFFSET_elements : Z := 8.
Definition OFFSET_data_type : Z := 16.
Definition OFFSET_semaphore_name : Z := 48.
Definition sizeof_SharedMemoryData : Z := 112.

(** A [double] is kept as its 64-bit pattern. *)
Abbreviation double := Z.

(** *** The world *)

(** One entry of the static table [shm_objects]. *)
Record Slot : Type := mkSlot {
  slot_name : string;
  slot_addr : pointer;
  slot_size : Z;
  slot_fd : Z;
  slot_in_use : bool
}.

(** The table is zero-initialised. *)
Definition zero_slot : Slot := mkSlot "" NullPtr 0 0 false.

Definition MAX_SHM_OBJECTS : nat := 100.

(** What other processes can observe. *)
Inductive event : Type :=
| EvStore (obj : string) (off : Z) (bytes : list byte)
| EvSemPost (sem : string)
| EvSemWait (sem : string).

Record World : Type := mkWorld {
  shm_objects : gmap nat Slot;          (* index -> entry, absent = zero *)
  mappings : gmap nat (string * Z);     (* block -> object, mapped length *)
  next_block : nat;
  open_fds : gmap Z string;             (* descriptor -> object *)
  shm_files : gmap string (list byte);  (* shared-memory objects *)
  semaphores : gmap string N;           (* named semaphores: value *)
  trace : list event;
  page_tails : gmap string (list byte)  (* object -> what stores past its end
                                           left in its last page, absent = zero *)
}.

Definition empty_world : World :=
  mkWorld ∅ ∅ 0%nat
    (<[0 := "/dev/stdin"]> (<[1 := "/dev/stdout"]> (<[2 := "/dev/stderr"]> ∅)))
    ∅ ∅ [] ∅.

Definition with_shm_objects (f : gmap nat Slot -> gmap nat Slot) (w : World) :=
  mkWorld (f (shm_objects w)) (mappings w) (next_block w) (open_fds w)
          (shm_files w) (semaphores w) (trace w) (page_tails w).

Definition with_open_fds (f : gmap Z string -> gmap Z string) (w : World) :=
  mkWorld (shm_objects w) (mappings w) (next_block w) (f (open_fds w))
          (shm_files w) (semaphores w) (trace w) (page_tails w).

Definition with_shm_files (f : gmap string (list byte) -> gmap string (list byte))
    (w : World) :=
  mkWorld (shm_objects w) (mappings w) (next_block w) (open_fds w)
          (f (shm_files w)) (semaphores w) (trace w) (page_tails w).

Definition with_semaphores (f : gmap string N -> gmap string N) (w : World) :=
  mkWorld (shm_objects w) (mappings w) (next_block w) (open_fds w)
          (shm_files w) (f (semaphores w)) (trace w) (page_tails w).

Definition with_page_tails (f : gmap string (list byte) -> gmap string (list byte))
    (w : World) :=
  mkWorld (shm_objects w) (mappings w) (next_block w) (open_fds w)
          (shm_files w) (semaphores w) (trace w) (f (page_tails w)).

Definition log (e : event) (w : World) :=
  mkWorld (shm_objects w) (mappings w) (next_block w) (open_fds w)
          (shm_files w) (semaphores w) (trace w ++ [e]) (page_tails w).

(** *** Pages

    The kernel hands out memory in whole pages, so the last page of an
    object reaches past its end unless the length of the object is a
    multiple of the page size.  The bytes there read as zero; a store there
    goes through and stays in the page, where every mapping of the object
    sees it, but it is no part of the object. *)

Definition PAGE_SIZE : Z := 4096.

(** The length of the whole pages that hold [n] bytes. *)
Definition page_up (n : Z) : Z := (n + PAGE_SIZE - 1) / PAGE_SIZE * PAGE_SIZE.

(** The rest of the last page of the object [key], whose bytes are [bs]. *)
Definition tail_of (w : World) (key : string) (bs : list byte) : list byte :=
  resize (Z.to_nat (page_up (Z.of_nat (length bs)) - Z.of_nat (length bs))) 0
    (default [] (page_tails w !! key)).

(** The pages of an object: its bytes and the rest of its last page. *)
Definition pages_of (w : World) (key : string) : option (list byte) :=
  bs ← shm_files w !! key; Some (bs ++ tail_of w key bs).

(** What the operating system decides on its own during one call. *)
Record Os : Type := mkOs {
  os_shm_open_refused : bool;   (* EACCES, EMFILE, ENAMETOOLONG *)
  os_ftruncate_refused : bool;
  os_mmap_refused : bool;       (* ENOMEM *)
  os_sem_open_refused : bool;   (* EACCES, EMFILE, ENAMETOOLONG *)
  os_sem_wait_interrupted : bool (* EINTR *)
}.

Definition os_ok : Os := mkOs false false false false false.

(** *** POSIX calls *)

Fixpoint strip_slashes (s : string) : string :=
  match s with
  | String c s' => if (c =? "/")%char then strip_slashes s' else s
  | EmptyString => s
  end.

Fixpoint has_slash (s : string) : bool :=
  match s with
  | String c s' => (c =? "/")%char || has_slash s'
  | EmptyString => false
  end.

(** The object a name designates: leading slashes do not count, and what
    remains must be a non-empty name without slashes. *)
Definition ipc_name (s : string) : option string :=
  let k := strip_slashes s in
  if (k =? "")%string || has_slash k then None else Some k.

(** Descriptors are handed out lowest first. *)
Definition lowest_free_fd (fds : gmap Z string) : Z :=
  let n := Z.of_nat (size fds) in
  default n (List.find (fun i => bool_decide (fds !! i = None)) (seqZ 0 n)).

(** [shm_open(name, O_CREAT | O_RDWR, 0666)]. *)
Definition shm_open (os : Os) (name : string) : exec World Z := fun w =>
  if os_shm_open_refused os then Done (-1) w
  else
    match ipc_name name with
    | None => Done (-1) w                              (* EINVAL *)
    | Some key =>
        let fd := lowest_free_fd (open_fds w) in
        let created :=
          match shm_files w !! key with
          | Some _ => w
          | None => with_shm_files (insert key []) w
          end in
        Done fd (with_open_fds (insert fd key) created)
    end.

(** [ftruncate(fd, length)]; the length arrives as a signed [off_t].  An
    object that does not grow is cut, and the rest of its last page is
    cleared.  An object that grows takes in what the rest of its last page
    held, and zero bytes from there on. *)
Definition ftruncate (os : Os) (fd len : Z) : exec World Z := fun w =>
  if os_ftruncate_refused os then Done (-1) w
  else if 2 ^ 63 <=? len then Done (-1) w              (* EINVAL *)
  else
    match open_fds w !! fd with
    | None => Done (-1) w                              (* EBADF *)
    | Some key =>
        match shm_files w !! key with
        | None => Done (-1) w
        | Some bs =>
            let tail := tail_of w key bs in
            let grown := (Z.to_nat len - length bs)%nat in
            Done 0
              (with_page_tails
                 (if len <=? Z.of_nat (length bs) then delete key
                  else alter (fun _ => drop grown tail) key)
                 (with_shm_files
                    (insert key (resize (Z.to_nat len) 0 (bs ++ tail))) w))
        end
    end.

(** [mmap(NULL, length, PROT_READ | PROT_WRITE, MAP_SHARED, fd, 0)];
    [MinusOnePtr] is [MAP_FAILED]. *)
Definition mmap (os : Os) (len fd : Z) : exec World pointer := fun w =>
  if os_mmap_refused os then Done MinusOnePtr w
  else if len <=? 0 then Done MinusOnePtr w            (* EINVAL *)
  else
    match open_fds w !! fd with
    | None => Done MinusOnePtr w                       (* EBADF *)
    | Some key =>
        let b := next_block w in
        Done (Ptr b 0)
          (mkWorld (shm_objects w) (<[b := (key, len)]> (mappings w)) (S b)
             (open_fds w) (shm_files w) (semaphores w) (trace w)
             (page_tails w))
    end.

(** [munmap(addr, length)]. *)
Definition munmap (addr : pointer) (len : Z) : exec World unit := fun w =>
  match addr with
  | Ptr b 0 =>
      Done tt
        (mkWorld (shm_objects w) (delete b (mappings w)) (next_block w)
           (open_fds w) (shm_files w) (semaphores w) (trace w) (page_tails w))
  | _ => Done tt w
  end.

(** [::close(fd)]. *)
Definition close_fd (fd : Z) : exec World unit :=
  modify (with_open_fds (delete fd)).

(** The object behind a pointer, the offset inside it, and the bytes the
    mapping lets the process touch: the pages of the object that the
    mapping covers. *)
Definition visible (w : World) (p : pointer) : option (string * Z * list byte) :=
  match p with
  | Ptr b off =>
      '(key, len) ← mappings w !! b;
      pages ← pages_of w key;
      Some (key, off, take (Z.to_nat (page_up len)) pages)
  | _ => None
  end.

(** A step that only looks at the world: it yields what it finds there, or
    traps. *)
Definition reading {A} (f : World -> option A) : exec World A := fun w =>
  match f w with
  | Some a => Done a w
  | None => Trap w
  end.

(** The [n] bytes at a pointer. *)
Definition peek (w : World) (p : pointer) (n : Z) : option (list byte) :=
  '(_, off, bs) ← visible w p; load_bytes bs off n.

(** Read [n] bytes through a pointer. *)
Definition load (p : pointer) (n : Z) : exec World (list byte) :=
  reading (fun w => peek w p n).

(** Write bytes through a pointer.  What lands inside the object changes
    the object; what lands past its end stays in the rest of its last
    page. *)
Definition store (p : pointer) (data : list byte) : exec World unit := fun w =>
  match visible w p with
  | Some (key, off, bs) =>
      match store_bytes bs off data, shm_files w !! key with
      | Some bs', Some whole =>
          let pages := bs' ++ drop (length bs) (whole ++ tail_of w key whole) in
          let w1 := with_shm_files (insert key (take (length whole) pages)) w in
          Done tt (log (EvStore key off data)
                     (if off + Z.of_nat (length data) <=? Z.of_nat (length whole)
                      then w1
                      else with_page_tails
                             (insert key (drop (length whole) pages)) w1))
      | _, _ => Trap w
      end
  | None => Trap w
  end.

(** The C string at a pointer. *)
Definition peek_c_string (w : World) (p : pointer) : option string :=
  '(_, off, bs) ← visible w p;
  if off <? 0 then None else read_c_string (drop (Z.to_nat off) bs).

Definition load_c_string (p : pointer) : exec World string :=
  reading (fun w => peek_c_string w p).

(** [strcmp(p, lit) == 0]. *)
Definition peek_strcmp (w : World) (p : pointer) (lit : string) : option bool :=
  '(_, off, bs) ← visible w p;
  if off <? 0 then None else strcmp_eq (drop (Z.to_nat off) bs) (c_str lit).

Definition c_string_equals (p : pointer) (lit : string) : exec World bool :=
  reading (fun w => peek_strcmp w p lit).

Definition SEM_VALUE_MAX : N := 2147483647.

(** [sem_open(name, O_CREAT, 0666, 0)]; [None] is [SEM_FAILED]. *)
Definition sem_open_creat (os : Os) (name : string) : exec World (option string) :=
  fun w =>
  if os_sem_open_refused os then Done None w
  else
    match ipc_name name with
    | None => Done None w                              (* EINVAL *)
    | Some key =>
        match semaphores w !! key with
        | Some _ => Done (Some key) w
        | None => Done (Some key) (with_semaphores (insert key 0%N) w)
        end
    end.

(** [sem_open(name, 0)]. *)
Definition sem_open_existing (os : Os) (name : string) : exec World (option string) :=
  fun w =>
  if os_sem_open_refused os then Done None w
  else
    match ipc_name name with
    | None => Done None w                              (* EINVAL *)
    | Some key =>
        match semaphores w !! key with
        | Some _ => Done (Some key) w
        | None => Done None w                          (* ENOENT *)
        end
    end.

(** [sem_post]: the value grows by one unless it is at its maximum. *)
Definition sem_post (sem : string) : exec World unit := fun w =>
  match semaphores w !! sem with
  | Some v =>
      if (v <? SEM_VALUE_MAX)%N
      then Done tt (log (EvSemPost sem) (with_semaphores (insert sem (v + 1)%N) w))
      else Done tt w                                   (* EOVERFLOW *)
  | None => Done tt w                                  (* EINVAL *)
  end.

(** [sem_timedwait] when nobody posts during the wait: it takes one unit
    if there is one and runs into the deadline otherwise. *)
Definition sem_timedwait (os : Os) (sem : string) : exec World Z := fun w =>
  if os_sem_wait_interrupted os then Done (-1) w       (* EINTR *)
  else
    match semaphores w !! sem with
    | Some v =>
        if (0 <? v)%N
        then Done 0 (log (EvSemWait sem) (with_semaphores (insert sem (v - 1)%N) w))
        else Done (-1) w                               (* ETIMEDOUT *)
    | None => Done (-1) w                              (* EINVAL *)
    end.

(** [sem_close] releases the handle only. *)
Definition sem_close (sem : string) : exec World unit := mret tt.

(** *** [class SharedMemoryManager] *)

(** [shm_objects[i]]. *)
Definition slot_at (w : World) (i : nat) : Slot :=
  default zero_slot (shm_objects w !! i).

(** The first index in [i, i + n) that satisfies [p], or [-1]. *)
Fixpoint first_index (p : nat -> bool) (i n : nat) : Z :=
  match n with
  | O => -1
  | S n' => if p i then Z.of_nat i else first_index p (S i) n'
  end.

Definition find_free_slot (w : World) : Z :=
  first_index (fun i => negb (slot_in_use (slot_at w i))) 0 MAX_SHM_OBJECTS.

Definition find_slot_by_name (w : World) (name : string) : Z :=
  first_index
    (fun i => slot_in_use (slot_at w i)
              && bool_decide (slot_name (slot_at w i) = name))
    0 MAX_SHM_OBJECTS.

Definition valid_slot (w : World) (slot : Z) : bool :=
  (0 <=? slot) && (slot <? Z.of_nat MAX_SHM_OBJECTS)
  && slot_in_use (slot_at w (Z.to_nat slot)).

(** [SharedMemoryManager::close(int slot)]. *)
Definition close (slot : Z) : exec World unit :=
  w ← get_world;
  if negb (valid_slot w slot) then mret tt
  else
    let s := slot_at w (Z.to_nat slot) in
    _ ← munmap (slot_addr s) (slot_size s);
    _ ← close_fd (slot_fd s);
    modify (with_shm_objects
              (insert (Z.to_nat slot)
                 (mkSlot (slot_name s) (slot_addr s) (slot_size s)
                    (slot_fd s) false))).

(** [SharedMemoryManager::create_or_open].  Inside the class the name
    [close] is the member function above, which takes a slot index; the
    two calls [close(fd)] on the failure paths therefore reach it with a
    file descriptor. *)
Definition create_or_open (os : Os) (name : string) (sz : Z) : exec World Z :=
  w ← get_world;
  let slot := find_slot_by_name w name in
  if 0 <=? slot then mret slot
  else
    let slot := find_free_slot w in
    if slot <? 0 then mret (-1)
    else
      fd ← shm_open os name;
      if fd <? 0 then mret (-1)
      else
        tr ← ftruncate os fd sz;
        if tr <? 0 then
          _ ← close fd;
          mret (-1)
        else
          addr ← mmap os sz fd;
          if decide (addr = MinusOnePtr) then
            _ ← close fd;
            mret (-1)
          else
            _ ← modify (with_shm_objects
                          (insert (Z.to_nat slot) (mkSlot name addr sz fd true)));
            mret slot.

(** [SharedMemoryManager::get_address(int slot)]. *)
Definition get_address (w : World) (slot : Z) : pointer :=
  if valid_slot w slot then slot_addr (slot_at w (Z.to_nat slot))
  else NullPtr.

(** [SharedMemoryManager::get_address(const string& name)]. *)
Definition get_address_by_name (w : World) (name : string) : pointer :=
  let slot := find_slot_by_name w name in
  if slot <? 0 then NullPtr else slot_addr (slot_at w (Z.to_nat slot)).

(** *** The two exported functions *)

(** The messages on [cerr], one constructor per message. *)
Inductive error : Type :=
| InvalidArray    (* the array pointer is null *)
| OpenFailed      (* create_or_open returned -1 *)
| SemOpenFailed   (* the semaphore could not be opened *)
| WaitFailed      (* timeout or error while waiting for the semaphore *)
| TypeMismatch.   (* the data type is not double_array *)

#[global] Instance error_eq_dec : EqDecision error.
Proof. solve_decision. Defined.

(** [for (i = 0; i < elements; i++) data_ptr[i] = ( *array)[i]], from
    index [i] with [n] rounds to go. *)
Fixpoint copy_in (data_ptr : pointer) (array : list double) (i n : nat)
  : exec World unit :=
  match n with
  | O => mret tt
  | S n' =>
      match array !! i with
      | Some v =>
          _ ← store (ptr_add data_ptr (sizeof_double * Z.of_nat i)) (le_bytes 8 v);
          copy_in data_ptr array (S i) n'
      | None => trap
      end
  end.

(** [for (i = 0; i < elements; i++) ( *array)[i] = data_ptr[i]]. *)
Fixpoint copy_out (data_ptr : pointer) (array : list double) (i n : nat)
  : exec World (list double) :=
  match n with
  | O => mret array
  | S n' =>
      bs ← load (ptr_add data_ptr (sizeof_double * Z.of_nat i)) sizeof_double;
      copy_out data_ptr (<[i := le_value bs]> array) (S i) n'
  end.

(** [write_array_to_shared_memory(name, array)]; a null [array] is
    [None].  [array->N()] is a non-negative [long], so its conversion to
    [size_t] keeps the value. *)
Definition write_array_to_shared_memory (os : Os) (name : string)
    (array : option (list double)) : exec World (result error unit) :=
  match array with
  | None => mret (Err InvalidArray)
  | Some arr =>
      let elements := Z.of_nat (length arr) in
      let data_size := to_size_t (elements * sizeof_double) in
      let total_size := to_size_t (sizeof_SharedMemoryData + data_size) in
      let shm_name := ("/" ++ name)%string in
      slot ← create_or_open os shm_name total_size;
      if slot <? 0 then mret (Err OpenFailed)
      else
        w ← get_world;
        let shm_data := get_address w slot in
        _ ← store (ptr_add shm_data OFFSET_size) (le_bytes 8 data_size);
        _ ← store (ptr_add shm_data OFFSET_elements) (le_bytes 8 elements);
        _ ← store (ptr_add shm_data OFFSET_data_type) (c_str "double_array");
        let sem_name := ("/sem_" ++ name)%string in
        _ ← store (ptr_add shm_data OFFSET_semaphore_name) (c_str sem_name);
        semaphore ← sem_open_creat os sem_name;
        match semaphore with
        | None => mret (Err SemOpenFailed)
        | Some sem =>
            w ← get_world;
            let data_ptr := ptr_add (get_address w slot) sizeof_SharedMemoryData in
            _ ← copy_in data_ptr arr 0 (Z.to_nat elements);
            _ ← sem_post sem;
            _ ← sem_close sem;
            mret (Ok tt)
        end
  end.

(** [read_array_from_shared_memory(name, array)]: on success the value is
    the caller's array after the copy; on failure the array is as it
    was. *)
Definition read_array_from_shared_memory (os : Os) (name : string)
    (array : option (list double)) : exec World (result error (list double)) :=
  match array with
  | None => mret (Err InvalidArray)
  | Some arr =>
      let shm_name := ("/" ++ name)%string in
      slot ← create_or_open os shm_name sizeof_SharedMemoryData;
      if slot <? 0 then mret (Err OpenFailed)
      else
        w ← get_world;
        let shm_data := get_address w slot in
        sem_name ← load_c_string (ptr_add shm_data OFFSET_semaphore_name);
        semaphore ← sem_open_existing os sem_name;
        match semaphore with
        | None => mret (Err SemOpenFailed)
        | Some sem =>
            wt ← sem_timedwait os sem;
            if wt <? 0 then
              _ ← sem_close sem;
              mret (Err WaitFailed)
            else
              same ← c_string_equals (ptr_add shm_data OFFSET_data_type) "double_array";
              if negb same then
                _ ← sem_post sem;
                _ ← sem_close sem;
                mret (Err TypeMismatch)
              else
                eb ← load (ptr_add shm_data OFFSET_elements) 8;
                let elements := Z.to_nat (le_value eb) in
                w ← get_world;
                let data_ptr := ptr_add (get_address w slot) sizeof_SharedMemoryData in
                arr' ← copy_out data_ptr (resize elements 0 arr) 0 elements;
                _ ← sem_post sem;
                _ ← sem_close sem;
                mret (Ok arr')
        end
  end.

(** *** Observations on a run *)

(** The stores of the payload, element by element from index [i]. *)
Fixpoint payload_stores (obj : string) (base : Z) (vals : list double) (i : nat)
  : list event :=
  match vals with
  | [] => []
  | v :: vs =>
      EvStore obj (base + sizeof_SharedMemoryData + sizeof_double * Z.of_nat i)
        (le_bytes 8 v)
      :: payload_stores obj base vs (S i)
  end.

(** Every store of a publish, in program order: the four fields of the
    envelope, then the payload. *)
Definition publish_stores (obj : string) (base : Z) (name : string)
    (arr : list double) : list event :=
  [ EvStore obj (base + OFFSET_size)
      (le_bytes 8 (to_size_t (Z.of_nat (length arr) * sizeof_double)));
    EvStore obj (base + OFFSET_elements) (le_bytes 8 (Z.of_nat (length arr)));
    EvStore obj (base + OFFSET_data_type) (c_str "double_array");
    EvStore obj (base + OFFSET_semaphore_name) (c_str ("/sem_" ++ name)) ]
  ++ payload_stores obj base arr 0.

Definition is_post (e : event) : bool :=
  match e with EvSemPost _ => true | _ => false end.

(** From [w] to [w'] nothing was posted and no semaphore went up: the trace
    grew by events other than posts, and no semaphore of [w'] is above the
    value it had in [w], a semaphore that did not exist counting as zero. *)
Definition unsignalled (w w' : World) : Prop :=
  (exists evs, trace w' = trace w ++ evs
               /\ forallb (fun e => negb (is_post e)) evs = true)
  /\ (forall s v, semaphores w' !! s = Some v ->
                  (v <= default 0 (semaphores w !! s))%N).

(** Two worlds with the same table, mappings and shared-memory objects,
    the rest of the last page of each object included. *)
Definition same_memory (w w' : World) : Prop :=
  shm_objects w' = shm_objects w
  /\ mappings w' = mappings w
  /\ shm_files w' = shm_files w
  /\ page_tails w' = page_tails w.

(** The block [b] maps the whole of the object [key], whose bytes are
    [m]. *)
Definition mapped (w : World) (b : nat) (key : string) (m : list byte) : Prop :=
  mappings w !! b = Some (key, Z.of_nat (length m))
  /\ shm_files w !! key = Some m.

(** Two worlds with the same table and the same mappings. *)
Definition same_table (w w' : World) : Prop :=
  shm_objects w' = shm_objects w /\ mappings w' = mappings w.

(** No two entries of the table that are in use carry the same name. *)
Definition distinct_names (w : World) : Prop :=
  forall i j,
    (i < MAX_SHM_OBJECTS)%nat -> (j < MAX_SHM_OBJECTS)%nat ->
    slot_in_use (slot_at w i) = true ->
    slot_in_use (slot_at w j) = true ->
    slot_name (slot_at w i) = slot_name (slot_at w j) ->
    i = j.

(** A byte of a C string is a character other than the terminator. *)
Definition c_string (s : string) : Prop :=
  Forall (fun c => char_code c <> 0) (list_ascii_of_string s).

(** *** The claims as the specification words them *)


(** A consume on a missing segment fails and creates nothing: no
    shared-memory object and no table entry. *)
Definition consume_missing_creates_nothing (os : Os) (name : string)
    (arr : list double) (w : World) : Prop :=
  exists e w',
    read_array_from_shared_memory os name (Some arr) w = Done (Err e) w'
    /\ shm_files w' = shm_files w
    /\ shm_objects w' = shm_objects w.

(** *** Sample worlds *)

(** The doubles 1.0, 2.0 and 3.0. *)
Definition sample_array : list double :=
  [0x3FF0000000000000; 0x4000000000000000; 0x4008000000000000].

(** The doubles 4.0, 5.0, 6.0 and 7.0: one element more. *)
Definition larger_array : list double :=
  [0x4010000000000000; 0x4014000000000000; 0x4018000000000000;
   0x401C000000000000].

(** The world after [writeSharedMemory("grid2", [1.0, 2.0, 3.0])] in a
    fresh process. *)
Definition published_world : World :=
  final_world (write_array_to_shared_memory os_ok "grid2" (Some sample_array)
                 empty_world).


(** A process whose table is full: every entry is in use under the name
    ["busy"]. *)
Definition full_world : World :=
  with_shm_objects
    (fun _ => list_to_map
                ((fun i => (i, mkSlot "busy" NullPtr 0 0 true))
                   <$> seq 0 MAX_SHM_OBJECTS))
    empty_world.

(** The sample publish after another writer has put the type tag ["int"]
    in the envelope. *)
Definition mistyped_world : World :=
  final_world (store (Ptr 0 OFFSET_data_type) (c_str "int") published_world).

(** A system that refuses every [mmap]. *)
Definition os_no_mmap : Os := mkOs false false true false false.

(** What another process finds after the sample publish: the object and
    the semaphore are there, its own table and mappings are empty. *)
Definition other_process_world : World :=
  mkWorld ∅ ∅ 0%nat (open_fds empty_world) (shm_files published_world)
    (semaphores published_world) [] (page_tails published_world).

End ShmImplementation.

(** ** pyfreefem_ml/plugins/src/double_array_ops.cpp *)

Module DoubleArrayOps.

Section Arrays.
(** The element type [double] with its product, and the value an element
    holds before it is first assigned. *)
Context {D : Type}.
Variable fmul : D -> D -> D.
Variable junk : D.

(** The [KN<double>] objects of the interpreter, by address, and the
    pointers its stack will free. *)
Record Heap : Type := mkHeap {
  arrays : gmap nat (list D);
  to_free : list nat
}.

(** [new KN<double>(n)]. *)
Definition new_KN (n : nat) : exec Heap nat := fun h =>
  let p := fresh (dom (arrays h)) in
  Done p (mkHeap (<[p := replicate n junk]> (arrays h)) (to_free h)).

(** [array->N()]. *)
Definition KN_N (p : nat) : exec Heap nat := fun h =>
  match arrays h !! p with
  | Some a => Done (length a) h
  | None => Trap h
  end.

(** [( *array)[i]] as a value. *)
Definition KN_get (p i : nat) : exec Heap D := fun h =>
  match arrays h !! p with
  | Some a =>
      match a !! i with
      | Some x => Done x h
      | None => Trap h
      end
  | None => Trap h
  end.

(** [( *array)[i] = x]. *)
Definition KN_set (p i : nat) (x : D) : exec Heap unit := fun h =>
  match arrays h !! p with
  | Some a =>
      if decide (i < length a)%nat
      then Done tt (mkHeap (<[p := <[i := x]> a]> (arrays h)) (to_free h))
      else Trap h
  | None => Trap h
  end.

(** [Add2StackOfPtr2Free(stack, p)]. *)
Definition Add2StackOfPtr2Free (p : nat) : exec Heap unit :=
  modify (fun h => mkHeap (arrays h) (to_free h ++ [p])).

(** The largest [int]. *)
Definition INT_MAX : Z := 2147483647.

(** [for (int i = 0; i < array->N(); i++) ( *result)[i] = ( *array)[i] * scale],
    from index [i] with [n] rounds to go.  The counter is an [int]: the
    increment after the round at [INT_MAX] overflows, which C leaves
    undefined. *)
Fixpoint scale_loop (array result : nat) (scale : D) (i n : nat)
  : exec Heap unit :=
  match n with
  | O => mret tt
  | S n' =>
      x ← KN_get array i;
      _ ← KN_set result i (fmul x scale);
      if decide (Z.of_nat i = INT_MAX) then trap
      else scale_loop array result scale (S i) n'
  end.

(** [ScaleDoubleArrayCode::operator()], given the values of its two
    argument expressions. *)
Definition ScaleDoubleArray (array : nat) (scale : D) : exec Heap nat :=
  n ← KN_N array;
  result ← new_KN n;
  _ ← scale_loop array result scale 0 n;
  _ ← Add2StackOfPtr2Free result;
  mret result.

End Arrays.

(** A heap with one array of three doubles, at address 7. *)
Definition sample_heap : @Heap float :=
  mkHeap (<[7%nat := [1.5; 2; -3]%float]> ∅) [].

(** A heap with one array of [2^31] doubles, each 1.0, at address 7: one
    element more than the largest [int]. *)
Definition long_heap : @Heap float :=
  mkHeap (<[7%nat := replicate (Z.to_nat (2 ^ 31)) 1%float]> ∅) [].

(** *** The two operations on the channel of shm_implementation.cpp

    Here a [double] is its bit pattern, as in the channel. *)

(** The interpreter's arrays and the world of the channel. *)
Record Interp : Type := mkInterp {
  heap : @Heap ShmImplementation.double;
  channel : ShmImplementation.World
}.

Definition on_heap {A} (m : exec (@Heap ShmImplementation.double) A)
  : exec Interp A :=
  zoom heap (fun h s => mkInterp h (channel s)) m.

Definition on_channel {A} (m : exec ShmImplementation.World A)
  : exec Interp A :=
  zoom channel (fun c s => mkInterp (heap s) c) m.

(** The elements of [*array], read through the pointer. *)
Definition KN_elements (p : nat) : exec (@Heap ShmImplementation.double)
                                        (list ShmImplementation.double) :=
  fun h =>
  match arrays h !! p with
  | Some a => Done a h
  | None => Trap h
  end.

(** What the callee left in [*result]. *)
Definition KN_assign (p : nat) (a : list ShmImplementation.double)
  : exec (@Heap ShmImplementation.double) unit := fun h =>
  match arrays h !! p with
  | Some _ => Done tt (mkHeap (<[p := a]> (arrays h)) (to_free h))
  | None => Trap h
  end.

(** [ShmReadDoubleArrayCode::operator()], given the value of its argument
    expression: the array is allocated empty, handed to
    [read_array_from_shared_memory], and returned whatever that reports.
    The callee resizes and fills the array only on the path on which it
    succeeds; a run that traps inside it has no array contents to speak
    of. *)
Definition ShmReadDoubleArray (os : ShmImplementation.Os) (name : string)
  : exec Interp nat :=
  result ← on_heap (new_KN 0 0%nat);
  r ← on_channel
        (ShmImplementation.read_array_from_shared_memory os name (Some []));
  _ ← match r with
      | Ok a => on_heap (KN_assign result a)
      | Err _ => mret tt
      end;
  _ ← on_heap (Add2StackOfPtr2Free result);
  mret result.

(** [ShmWriteDoubleArrayCode::operator()], given the values of its two
    argument expressions; a null array is [None].  The value is the [long]
    it returns. *)
Definition ShmWriteDoubleArray (os : ShmImplementation.Os)
    (array : option nat) (name : string) : exec Interp Z :=
  a ← match array with
      | Some p => x ← on_heap (KN_elements p); mret (Some x)
      | None => mret None
      end;
  r ← on_channel
        (ShmImplementation.write_array_to_shared_memory os name a);
  mret (if succeeded r then 1 else 0).

(** An interpreter with the array [1.0, 2.0, 3.0] at address 7, in a fresh
    process. *)
Definition sample_interp : Interp :=
  mkInterp (mkHeap (<[7%nat := ShmImplementation.sample_array]> ∅) [])
    ShmImplementation.empty_world.

(** That interpreter after [shmWriteDoubleArray(a, "grid2")]. *)
Definition published_interp : Interp :=
  final_world (ShmWriteDoubleArray ShmImplementation.os_ok (Some 7%nat) "grid2"
                 sample_interp).

End DoubleArrayOps.

(** * Properties *)

(** ** Raw memory *)

Lemma in_bounds_spec (len : nat) (off n : Z) :
  in_bounds len off n = true <-> 0 <= off /\ 0 <= n /\ off + n <= Z.of_nat len.
Proof. unfold in_bounds. rewrite !andb_true_iff, !Z.leb_le. tauto. Qed.

Lemma load_bytes_all (b : list byte) :
  load_bytes b 0 (Z.of_nat (length b)) = Some b.
Proof.
  unfold load_bytes.
  rewrite (proj2 (in_bounds_spec _ _ _)) by lia.
  rewrite Nat2Z.id. simpl. by rewrite firstn_all.
Qed.

Lemma store_bytes_length (bs data bs' : list byte) (off : Z) :
  store_bytes bs off data = Some bs' -> length bs' = length bs.
Proof.
  unfold store_bytes. destruct (in_bounds _ _ _) eqn:E; [|discriminate].
  apply in_bounds_spec in E. intros [= <-].
  rewrite !length_app, length_take, length_drop. lia.
Qed.

Lemma store_bytes_load (bs data bs' : list byte) (off : Z) :
  store_bytes bs off data = Some bs' ->
  load_bytes bs' off (Z.of_nat (length data)) = Some data.
Proof.
  intros H. pose proof (store_bytes_length _ _ _ _ H) as Hlen. revert H.
  unfold store_bytes, load_bytes. rewrite Hlen.
  destruct (in_bounds _ _ _) eqn:E; [|discriminate].
  apply in_bounds_spec in E. intros [= <-]. f_equal.
  rewrite drop_app_length' by (rewrite length_take; lia).
  rewrite Nat2Z.id. by rewrite take_app_length.
Qed.

Lemma store_bytes_at_0 (buf data : list byte) :
  (length data <= length buf)%nat ->
  store_bytes buf 0 data = Some (data ++ drop (length data) buf).
Proof.
  intros H. unfold store_bytes.
  rewrite (proj2 (in_bounds_spec _ _ _)) by lia. reflexivity.
Qed.

Lemma store_bytes_lookup (bs data bs' : list byte) (off : Z) (i : nat) :
  store_bytes bs off data = Some bs' ->
  bs' !! i
  = if decide (off <= Z.of_nat i < off + Z.of_nat (length data))
    then data !! (i - Z.to_nat off)%nat
    else bs !! i.
Proof.
  unfold store_bytes. destruct (in_bounds _ _ _) eqn:E; [|discriminate].
  apply in_bounds_spec in E. intros [= <-].
  destruct (decide _) as [Hin|Hout].
  - rewrite lookup_app_r by (rewrite length_take; lia).
    rewrite length_take. rewrite lookup_app_l by lia.
    f_equal. lia.
  - destruct (decide (Z.of_nat i < off)).
    + rewrite lookup_app_l by (rewrite length_take; lia).
      rewrite lookup_take_lt by lia. done.
    + rewrite lookup_app_r by (rewrite length_take; lia).
      rewrite length_take.
      rewrite lookup_app_r by lia.
      rewrite lookup_drop. f_equal. lia.
Qed.

Lemma load_bytes_length (bs chunk : list byte) (off n : Z) :
  load_bytes bs off n = Some chunk -> Z.of_nat (length chunk) = n.
Proof.
  unfold load_bytes. destruct (in_bounds _ _ _) eqn:E; [|discriminate].
  apply in_bounds_spec in E. intros [= <-].
  rewrite length_take, length_drop. lia.
Qed.

Lemma holds_stored (bs data bs' : list byte) (off : Z) :
  store_bytes bs off data = Some bs' -> holds bs' off data.
Proof. apply store_bytes_load. Qed.

Lemma holds_kept (bs data bs' d : list byte) (off o : Z) :
  store_bytes bs off data = Some bs' ->
  holds bs o d ->
  o + Z.of_nat (length d) <= off \/ off + Z.of_nat (length data) <= o ->
  holds bs' o d.
Proof.
  intros Hst Hh Hdisj. pose proof (store_bytes_length _ _ _ _ Hst) as Hlen.
  revert Hh. unfold holds, load_bytes. rewrite Hlen.
  destruct (in_bounds _ _ _) eqn:E; [|discriminate].
  apply in_bounds_spec in E. intros [= Hd]. f_equal. rewrite <- Hd at 2.
  apply list_eq. intros i.
  destruct (decide (i < length d)%nat) as [Hi|Hi].
  - rewrite !lookup_take_lt by lia. rewrite !lookup_drop.
    rewrite (store_bytes_lookup _ _ _ _ _ Hst).
    destruct (decide _) as [Hin|]; [lia|done].
  - rewrite !lookup_take_ge by lia. done.
Qed.

Lemma holds_drop (bs d : list byte) (off : Z) :
  holds bs off d ->
  0 <= off /\ drop (Z.to_nat off) bs = d ++ drop (Z.to_nat off + length d) bs.
Proof.
  unfold holds, load_bytes.
  destruct (in_bounds _ _ _) eqn:E; [|discriminate].
  apply in_bounds_spec in E. intros [= Hd]. split; [lia|].
  rewrite Nat2Z.id in Hd.
  rewrite <- (take_drop (length d) (drop (Z.to_nat off) bs)) at 1.
  rewrite Hd, drop_drop. done.
Qed.

Lemma holds_inside (bs d : list byte) (off : Z) :
  holds bs off d -> 0 <= off /\ off + Z.of_nat (length d) <= Z.of_nat (length bs).
Proof.
  unfold holds, load_bytes.
  destruct (in_bounds _ _ _) eqn:E; [|discriminate].
  apply in_bounds_spec in E. lia.
Qed.

Lemma store_bytes_fits (bs data : list byte) (off : Z) :
  0 <= off -> off + Z.of_nat (length data) <= Z.of_nat (length bs) ->
  exists bs', store_bytes bs off data = Some bs'.
Proof.
  intros H1 H2. unfold store_bytes.
  rewrite (proj2 (in_bounds_spec _ _ _)) by lia. eauto.
Qed.

(** ** Running programs step by step *)

Lemma exec_bind_Done {S A B} (m : exec S A) (f : A -> exec S B) s b s'' :
  (m ≫= f) s = Done b s'' <-> exists a s', m s = Done a s' /\ f a s' = Done b s''.
Proof.
  unfold mbind, exec_bind. destruct (m s) as [a s'|s']; split.
  - eauto.
  - by intros (? & ? & [= <- <-] & ?).
  - discriminate.
  - by intros (? & ? & ? & _).
Qed.

Lemma exec_bind_run {S A B} (m : exec S A) (f : A -> exec S B) s a s' :
  m s = Done a s' -> (m ≫= f) s = f a s'.
Proof. unfold mbind, exec_bind. by intros ->. Qed.

Lemma exec_bind_unfold {S A B} (m : exec S A) (f : A -> exec S B) s :
  (m ≫= f) s = match m s with Done a s' => f a s' | Trap s' => Trap s' end.
Proof. reflexivity. Qed.

Lemma exec_bind_get {S B} (f : S -> exec S B) s : (get_world ≫= f) s = f s s.
Proof. reflexivity. Qed.

Lemma exec_ret_Done {S A} (a b : A) (s s' : S) :
  (mret a : exec S A) s = Done b s' <-> a = b /\ s = s'.
Proof. unfold mret, exec_ret. split; [by intros [= <- <-]|by intros [-> ->]]. Qed.

Lemma final_world_bind {S A B} (m : exec S A) (f : A -> exec S B) s :
  final_world ((m ≫= f) s)
  = match m s with
    | Done a s' => final_world (f a s')
    | Trap s' => s'
    end.
Proof. unfold mbind, exec_bind. by destruct (m s). Qed.

(** A relation between the world before and the world after that every
    step of a program keeps is kept by the program. *)
Lemma bind_preserves {S A B} (R : S -> S -> Prop) (m : exec S A)
    (f : A -> exec S B) s :
  (forall x y z, R x y -> R y z -> R x z) ->
  R s (final_world (m s)) ->
  (forall a s', m s = Done a s' -> R s' (final_world (f a s'))) ->
  R s (final_world ((m ≫= f) s)).
Proof.
  intros Htrans Hm Hf. rewrite final_world_bind.
  destruct (m s) as [a s'|s']; simpl in Hm; [|done].
  apply (Htrans _ s'); [done|]. by apply Hf.
Qed.

Lemma for_each_invariant {S A R} (P : S -> Prop) (f : A -> exec S R) (l : list A) :
  (forall x s, P s -> exists r s', f x s = Done r s' /\ P s') ->
  forall s, P s -> exists s', for_each f l s = Done tt s' /\ P s'.
Proof.
  intros Hf. induction l as [|x l IH]; intros s Hs; simpl.
  - by exists s.
  - destruct (Hf x s Hs) as (r & s1 & Hrun & Hs1).
    rewrite (exec_bind_run _ _ _ _ _ Hrun). by apply IH.
Qed.

Ltac exec_unfold :=
  unfold mbind, exec_bind, mret, exec_ret, get_world, modify, trap, zoom in *.

(** ** The manager of pyfreefem_ml/plugins/src/mmap-semaphore.cpp *)

Module MmapSemaphoreFacts.
Import SysV MmapSemaphore.

Ltac unfold_sys := unfold sys, set_entry, erase_entry in *; exec_unfold.

Lemma shmat_pointer os shmid k p k' :
  shmat os shmid k = Done p k' ->
  p = MinusOnePtr
  \/ (exists b, p = Ptr b 0 /\ k_attachments k' !! b = Some shmid)
     /\ k_segments k' = k_segments k.
Proof.
  unfold shmat. destruct (os_shmat_refused os); [intros [= <- <-]; by left|].
  destruct (k_segments k !! shmid); intros [= <- <-]; [|by left].
  right. split; [|reflexivity]. eexists. split; [reflexivity|]. simpl.
  by rewrite lookup_insert_eq.
Qed.

(** After [auto_attach] has succeeded the entry is registered, attached
    through a real pointer, and of the size it had. *)
Lemma auto_attach_Some os name it it' w w' :
  sharedMemories w !! name = Some it ->
  auto_attach os name it w = Done (Some it') w' ->
  sharedMemories w' !! name = Some it'
  /\ info_isAttached it' = true
  /\ info_addr it' <> NullPtr
  /\ info_size it' = info_size it.
Proof.
  intros Hit. unfold auto_attach.
  destruct (negb (info_isAttached it) || bool_decide (info_addr it = NullPtr)) eqn:E.
  - unfold_sys.
    destruct (shmat os (info_id it) (kernel w)) as [p k|k] eqn:Hat; [|discriminate].
    simpl. destruct (decide (p = MinusOnePtr)) as [->|Hp]; simpl; [discriminate|].
    intros [= <- <-]. simpl. rewrite lookup_insert_eq.
    repeat split; try done.
    apply shmat_pointer in Hat as [->|[(b & -> & _) _]]; done.
  - intros [= <- <-]. apply orb_false_iff in E as [E1 E2].
    apply negb_false_iff in E1. apply bool_decide_eq_false in E2. done.
Qed.

Lemma auto_attach_attached os name it w :
  info_isAttached it = true ->
  info_addr it <> NullPtr ->
  auto_attach os name it w = Done (Some it) w.
Proof.
  intros H1 H2. unfold auto_attach. rewrite H1. simpl.
  rewrite bool_decide_eq_false_2 by done. reflexivity.
Qed.

(** A write inside the bounds of a registered segment that can be attached
    goes through. *)
Lemma write_succeeds os name data o w it bs :
  sharedMemories w !! name = Some it ->
  info_isAttached it = false ->
  os_shmat_refused os = false ->
  k_segments (kernel w) !! info_id it = Some bs ->
  info_size it <= Z.of_nat (length bs) ->
  0 <= o ->
  o + Z.of_nat (length data) <= info_size it ->
  info_size it < SIZE_T_MODULUS ->
  exists w', write os name data (Z.of_nat (length data)) o w = Done (Ok tt) w'.
Proof.
  intros Hit Hatt Hos Hseg Hlen Ho Hfit Hmax.
  unfold write. rewrite exec_bind_get, Hit.
  unfold to_size_t. rewrite Z.mod_small by lia.
  destruct (Z.gtb_spec (o + Z.of_nat (length data)) (info_size it)) as [|_]; [lia|].
  unfold auto_attach. rewrite Hatt. simpl.
  unfold sys, set_entry, zoom, modify, shmat, memcpy_to_shm.
  unfold mbind, exec_bind, mret, exec_ret. rewrite Hos, Hseg. simpl.
  rewrite lookup_insert_eq. simpl. rewrite Hseg, load_bytes_all.
  destruct (store_bytes bs (0 + o) data) as [bs'|] eqn:E; [eauto|].
  unfold store_bytes in E.
  rewrite (proj2 (in_bounds_spec _ _ _)) in E by lia. discriminate.
Qed.

(** C8: what a successful [write] put at an offset, a [read] of as many
    bytes at that offset gives back. *)
Theorem write_read_roundtrip os os' name (b buf : list byte) (o : Z) w w' :
  (length b <= length buf)%nat ->
  write os name b (Z.of_nat (length b)) o w = Done (Ok tt) w' ->
  read os' name buf (Z.of_nat (length b)) o w'
  = Done (Ok (b ++ drop (length b) buf)) w'.
Proof.
  intros Hbuf. unfold write, read.
  unfold mbind at 1 3, exec_bind, get_world.
  destruct (sharedMemories w !! name) as [it|] eqn:Hit; [|discriminate].
  destruct (to_size_t (o + Z.of_nat (length b)) >? info_size it) eqn:Hchk;
    [discriminate|].
  unfold mbind at 1, exec_bind.
  destruct (auto_attach os name it w) as [[it'|] w1|w1] eqn:Hat; try discriminate.
  destruct (auto_attach_Some _ _ _ _ _ _ Hit Hat) as (Hit' & Hatt & Hnn & Hsz).
  unfold_sys. unfold memcpy_to_shm.
  destruct (resolve (kernel w1) (ptr_add (info_addr it') o)) as [[shmid off]|] eqn:Hres;
    [|discriminate].
  destruct (k_segments (kernel w1) !! shmid) as [bs|]; [|discriminate].
  rewrite load_bytes_all.
  destruct (store_bytes bs off b) as [bs'|] eqn:Hst; [|discriminate].
  intros [= <-]. simpl. rewrite Hit', Hsz, Hchk.
  rewrite auto_attach_attached by done. simpl.
  unfold memcpy_from_shm. simpl.
  replace (resolve _ _) with (Some (shmid, off)).
  simpl. rewrite lookup_insert_eq.
  rewrite (store_bytes_load _ _ _ _ Hst).
  rewrite store_bytes_at_0 by done. reflexivity.
Qed.

(** Four bytes written at offset 3 of the sample segment and read back. *)
Lemma write_read_roundtrip_witness :
  read sample_os "seg" (replicate 4 0) 4 3
       (final_world (write sample_os "seg" [7; 8; 9; 10] 4 3 sample_world))
  = Done (Ok [7; 8; 9; 10])
         (final_world (write sample_os "seg" [7; 8; 9; 10] 4 3 sample_world)).
Proof.
  apply (write_read_roundtrip sample_os sample_os "seg" [7; 8; 9; 10]
           (replicate 4 0) 3 sample_world).
  - simpl. lia.
  - vm_compute. reflexivity.
Defined.

(** C9: the strict [create] of a name that is already registered fails and
    leaves the registry, and the rest of the world, as they were. *)
Theorem create_existing_name_fails os name sz w :
  is_Some (sharedMemories w !! name) ->
  create os name sz w = Done (Err AlreadyExists) w.
Proof.
  intros [it Hit]. unfold create. unfold_sys. by rewrite Hit.
Qed.

(** A second [create] of ["seg"], with another size. *)
Lemma create_existing_name_fails_witness :
  create sample_os "seg" 32 sample_world = Done (Err AlreadyExists) sample_world.
Proof.
  apply (create_existing_name_fails sample_os "seg" 32 sample_world).
  vm_compute. eexists. reflexivity.
Defined.

(** Whatever failure [destroy] reports, the registry is as it was. *)
Lemma destroy_failure_keeps_registry os name w w' e :
  destroy os name w = Done (Err e) w' ->
  sharedMemories w' = sharedMemories w.
Proof.
  unfold destroy. unfold_sys.
  destruct (sharedMemories w !! name) as [it|]; [|by intros [= <- <-]].
  destruct (info_isAttached it && bool_decide (info_addr it ≠ NullPtr)).
  - destruct (shmdt (info_addr it) (kernel w)) as [dt k|k]; [|discriminate].
    destruct (dt =? -1); [by intros [= <- <-]|]. simpl.
    destruct (shmctl_rmid os (info_id it) k) as [rm k2|k2]; [|discriminate].
    simpl. destruct (rm =? -1); [by intros [= <- <-]|discriminate].
  - simpl.
    destruct (shmctl_rmid os (info_id it) (kernel w)) as [rm k2|k2]; [|discriminate].
    simpl. destruct (rm =? -1); [by intros [= <- <-]|discriminate].
Qed.

Lemma shmctl_rmid_errors os shmid k :
  os_shmctl_refused os = true \/ k_segments k !! shmid = None ->
  shmctl_rmid os shmid k = Done (-1) k.
Proof.
  unfold shmctl_rmid. intros [->| ->]; [done|].
  by destruct (os_shmctl_refused os).
Qed.

(** C7, as the code has it, for an entry that is not attached, so that no
    detach precedes the release: when the release call errors, [destroy]
    reports [DestroyFailed] and changes nothing; the registry is as it was,
    and the entry is still found under its name. *)
Theorem destroy_release_error_keeps_entry os name w it :
  sharedMemories w !! name = Some it ->
  info_isAttached it = false \/ info_addr it = NullPtr ->
  release_errors os w it ->
  exists w',
    destroy os name w = Done (Err DestroyFailed) w'
    /\ sharedMemories w' = sharedMemories w
    /\ sharedMemories w' !! name = Some it
    /\ kernel w' = kernel w.
Proof.
  intros Hit Hun Hrel. exists w.
  split; [|by repeat split].
  unfold destroy. unfold_sys. rewrite Hit.
  assert (E : info_isAttached it && bool_decide (info_addr it ≠ NullPtr) = false).
  { destruct Hun as [Ha|Hp]; [by rewrite Ha|].
    rewrite Hp, andb_false_iff. right. apply bool_decide_eq_false_2.
    by intros H. }
  rewrite E. simpl. rewrite shmctl_rmid_errors by exact Hrel. simpl.
  by destruct w.
Qed.

(** The theorem on the sample segment, with a kernel that refuses the
    release. *)
Lemma destroy_release_error_keeps_entry_witness :
  exists w',
    destroy sample_os_no_release "seg" sample_world = Done (Err DestroyFailed) w'
    /\ sharedMemories w' = sharedMemories sample_world
    /\ sharedMemories w' !! "seg" = Some (new_info 0 16)
    /\ kernel w' = kernel sample_world.
Proof.
  apply (destroy_release_error_keeps_entry sample_os_no_release "seg"
           sample_world (new_info 0 16)).
  - vm_compute. reflexivity.
  - left. reflexivity.
  - left. reflexivity.
Defined.

(** The entry is not removed: after the failed release the name is still
    registered. *)
Lemma failed_destroy_unregisters_counterexample :
  ~ failed_destroy_unregisters sample_os_no_release "seg" sample_world.
Proof.
  intros (w' & Hrun & Hgone).
  apply destroy_failure_keeps_registry in Hrun. rewrite Hrun in Hgone.
  vm_compute in Hgone. discriminate.
Qed.

(** The bounds check of [write] and [read] rejects a range that ends beyond
    the segment, as long as the end fits [size_t]. *)
Lemma write_out_of_bounds os name data sz o w it :
  sharedMemories w !! name = Some it ->
  0 <= o -> 0 <= sz -> o + sz < SIZE_T_MODULUS ->
  o + sz > info_size it ->
  write os name data sz o w = Done (Err OutOfBounds) w.
Proof.
  intros Hit Ho Hsz Hfit Hover. unfold write. unfold_sys. rewrite Hit.
  unfold to_size_t. rewrite Z.mod_small by lia.
  destruct (o + sz >? info_size it) eqn:E; [reflexivity|].
  rewrite Z.gtb_ltb in E. apply Z.ltb_ge in E. lia.
Qed.

Lemma read_out_of_bounds os name data sz o w it :
  sharedMemories w !! name = Some it ->
  0 <= o -> 0 <= sz -> o + sz < SIZE_T_MODULUS ->
  o + sz > info_size it ->
  read os name data sz o w = Done (Err OutOfBounds) w.
Proof.
  intros Hit Ho Hsz Hfit Hover. unfold read. unfold_sys. rewrite Hit.
  unfold to_size_t. rewrite Z.mod_small by lia.
  destruct (o + sz >? info_size it) eqn:E; [reflexivity|].
  rewrite Z.gtb_ltb in E. apply Z.ltb_ge in E. lia.
Qed.

(** C5 at an offset near the top of [size_t]: the sum in the bounds check
    wraps, the check passes, and the copy runs outside the segment.  The
    last part reaches the same state from the script, where the offset is a
    [double]: 2^64 - 2048 with 256 elements. *)
Theorem bounds_check_wraps :
  let o := 2 ^ 64 - 8 in
  sharedMemories sample_world !! "seg" = Some (new_info 0 16)
  /\ o + 16 > 16
  /\ to_size_t (o + 16) = 8
  /\ write sample_os "seg" sample_data 16 o sample_world
     <> Done (Err OutOfBounds) sample_world
  /\ (exists w', write sample_os "seg" sample_data 16 o sample_world = Trap w')
  /\ (exists w', read sample_os "seg" sample_data 16 o sample_world = Trap w')
  /\ (exists w',
        shm_write_array sample_os "seg" (replicate 2048 7)
          (mkArrayInfo 256 (18446744073709549568 # 1)) sample_world = Trap w').
Proof.
  repeat split; try (vm_compute; reflexivity); try (vm_compute; discriminate);
    vm_compute; eexists; reflexivity.
Qed.

Lemma shmat_segments os shmid k p k' :
  shmat os shmid k = Done p k' -> k_segments k' = k_segments k.
Proof.
  unfold shmat. destruct (os_shmat_refused os); [by intros [= <- <-]|].
  destruct (k_segments k !! shmid); by intros [= <- <-].
Qed.

Lemma auto_attach_segments os name it r w w' :
  auto_attach os name it w = Done r w' ->
  k_segments (kernel w') = k_segments (kernel w).
Proof.
  unfold auto_attach.
  destruct (negb (info_isAttached it) || bool_decide (info_addr it = NullPtr));
    [|by intros [= <- <-]].
  unfold_sys.
  destruct (shmat os (info_id it) (kernel w)) as [p k|k] eqn:Hat; [|discriminate].
  simpl. apply shmat_segments in Hat.
  destruct (decide (p = MinusOnePtr)); simpl; by intros [= <- <-].
Qed.

Lemma resolve_ptr_add k p d shmid off' :
  resolve k (ptr_add p d) = Some (shmid, off') ->
  exists off, resolve k p = Some (shmid, off) /\ off' = off + d.
Proof.
  destruct p as [| |b off]; simpl; try discriminate.
  destruct (k_attachments k !! b); simpl; [|discriminate].
  intros [= <- <-]. eauto.
Qed.





(** One element written at offset 1 lands in the bytes 1 to 8, not in the
    bytes 8 to 15. *)
Example shm_write_array_at_offset_1 :
  segment_of (final_world (shm_write_array sample_os "seg" sample_data
                             (mkArrayInfo 1 1) sample_world)) "seg"
  = Some [0; 1; 2; 3; 4; 5; 6; 7; 8; 0; 0; 0; 0; 0; 0; 0].
Proof. vm_compute. reflexivity. Qed.


Lemma land_mask_lxor h a :
  Z.land (Z.lxor h a) 0x7FFFFFFF
  = Z.lxor (Z.land h 0x7FFFFFFF) (Z.land a 0x7FFFFFFF).
Proof.
  apply Z.bits_inj'. intros n _.
  rewrite !Z.land_spec, !Z.lxor_spec, !Z.land_spec.
  by destruct (Z.testbit h n), (Z.testbit a n), (Z.testbit 2147483647 n).
Qed.

(** X1: the key [generateKey] makes for a name is a non-negative 31-bit
    number, and the keys two processes make for one name are the same
    exactly when their process identifiers agree in their low 15 bits: a
    name leads to the same segment only within such processes. *)
Theorem generateKey_per_process os os' name :
  0 <= generateKey os name < 2 ^ 31
  /\ (generateKey os name = generateKey os' name
      <-> os_pid os mod 2 ^ 15 = os_pid os' mod 2 ^ 15).
Proof.
  unfold generateKey.
  set (h := fold_left _ _ _).
  assert (Hmask : forall x, Z.land x 0x7FFFFFFF = x mod 2 ^ 31).
  { intros x. change 0x7FFFFFFF with (Z.ones 31). by rewrite Z.land_ones. }
  assert (Hpid : forall p, Z.land (Z.shiftl p 16) 0x7FFFFFFF
                           = (p mod 2 ^ 15) * 2 ^ 16).
  { intros p. rewrite Hmask, Z.shiftl_mul_pow2 by lia.
    change (2 ^ 31) with (2 ^ 15 * 2 ^ 16).
    by rewrite Z.mul_mod_distr_r by lia. }
  split.
  - rewrite Hmask. apply Z.mod_pos_bound. lia.
  - rewrite !land_mask_lxor, !Hpid. split.
    + intros H.
      apply (f_equal (Z.lxor (Z.land h 0x7FFFFFFF))) in H.
      rewrite <- !Z.lxor_assoc, Z.lxor_nilpotent, !Z.lxor_0_l in H. lia.
    + by intros ->.
Qed.

(** *** Creating and destroying *)

Lemma shmget_Done os key sz k shmid k' :
  shmget os key sz k = Done shmid k' ->
  0 <= k_next_shmid k ->
  (shmid = -1 /\ k' = k)
  \/ (shmid <> -1
      /\ k_attachments k' = k_attachments k
      /\ exists bs, k_segments k' !! shmid = Some bs
                    /\ sz <= Z.of_nat (length bs)).
Proof.
  unfold shmget. intros H Hnext.
  destruct (os_shmget_refused os); [injection H as <- <-; by left|].
  destruct (if key =? IPC_PRIVATE then None else k_keys k !! key) as [id|].
  - destruct (k_segments k !! id) as [bs|] eqn:Hbs;
      [|injection H as <- <-; by left].
    destruct (Z.leb_spec sz (Z.of_nat (length bs)));
      injection H as <- <-; [|by left].
    destruct (decide (id = -1)) as [->|Hne]; [by left|right].
    split; [done|]. split; [done|]. eauto.
  - destruct (Z.leb_spec sz 0); injection H as <- <-; [by left|right].
    simpl. split; [lia|]. split; [done|].
    rewrite lookup_insert_eq. eexists. split; [done|].
    rewrite length_replicate. lia.
Qed.

Lemma shmget_never_traps os key sz k :
  exists shmid k', shmget os key sz k = Done shmid k'.
Proof.
  unfold shmget. repeat case_match; eauto.
Qed.

(** X2: a [create] that succeeds found the name free, registers it with the
    identifier and the size asked for, unattached, and the kernel holds a
    segment of at least that size under the identifier. *)
Theorem create_registers os name sz w shmid w' :
  create os name sz w = Done (Ok shmid) w' ->
  sharedMemories w !! name = None
  /\ sharedMemories w' = <[name := new_info shmid sz]> (sharedMemories w)
  /\ shmid <> -1
  /\ exists bs, k_segments (kernel w') !! shmid = Some bs
                /\ sz <= Z.of_nat (length bs).
Proof.
  unfold create. unfold_sys.
  destruct (sharedMemories w !! name) as [it|] eqn:Hit; [discriminate|].
  destruct (shmget os (generateKey os name) sz (kernel w)) as [id k|k] eqn:Hget;
    [|discriminate].
  simpl. destruct (Z.eqb_spec id (-1)) as [->|Hne]; [discriminate|].
  intros [= <- <-]. simpl. split; [done|]. split; [done|]. split; [done|].
  revert Hget. unfold shmget.
  destruct (os_shmget_refused os); [intros [= <- <-]; done|].
  destruct (if generateKey os name =? IPC_PRIVATE then None
            else k_keys (kernel w) !! generateKey os name) as [id'|].
  - destruct (k_segments (kernel w) !! id') as [bs|] eqn:Hbs;
      [|intros [= <- <-]; done].
    destruct (Z.leb_spec sz (Z.of_nat (length bs))); intros [= <- <-]; [|done].
    eauto.
  - destruct (Z.leb_spec sz 0); intros [= <- <-]; [done|]. simpl.
    rewrite lookup_insert_eq. eexists. split; [done|].
    rewrite length_replicate. lia.
Qed.

(** The sample segment: ["seg"], 16 bytes, created in a fresh process. *)
Lemma create_registers_witness :
  sharedMemories empty_world !! "seg" = None
  /\ sharedMemories sample_world
     = <["seg" := new_info 0 16]> (sharedMemories empty_world)
  /\ 0 <> -1
  /\ exists bs, k_segments (kernel sample_world) !! 0 = Some bs
                /\ 16 <= Z.of_nat (length bs).
Proof.
  apply (create_registers sample_os "seg" 16 empty_world 0 sample_world).
  vm_compute. reflexivity.
Defined.

(** X3: [create] always returns, and when it reports a failure the registry
    and the kernel are as they were. *)
Theorem create_failure_changes_nothing os name sz w :
  0 <= k_next_shmid (kernel w) ->
  exists r w',
    create os name sz w = Done r w'
    /\ forall e, r = Err e -> w' = w.
Proof.
  intros Hnext. unfold create. unfold_sys.
  destruct (sharedMemories w !! name) as [it|] eqn:Hit; [by eauto|].
  destruct (shmget_never_traps os (generateKey os name) sz (kernel w))
    as (id & k & Hget).
  rewrite Hget. simpl.
  destruct (Z.eqb_spec id (-1)) as [->|Hne].
  - do 2 eexists. split; [done|]. intros e _.
    apply shmget_Done in Hget as [[_ ->]|[? _]]; [|done|done].
    by destruct w.
  - do 2 eexists. split; [done|]. discriminate.
Qed.

(** A [create] of size 0, which the kernel refuses. *)
Lemma create_failure_changes_nothing_witness :
  exists r w',
    create sample_os "seg" 0 empty_world = Done r w'
    /\ forall e, r = Err e -> w' = empty_world.
Proof.
  apply (create_failure_changes_nothing sample_os "seg" 0 empty_world).
  vm_compute. discriminate.
Defined.

(** On a name that is not registered, [destroy], [write] and [read]
    report that it does not exist and change nothing. *)
Lemma unregistered_name_not_found os name data sz o w :
  sharedMemories w !! name = None ->
  destroy os name w = Done (Err NotFound) w
  /\ write os name data sz o w = Done (Err NotFound) w
  /\ read os name data sz o w = Done (Err NotFound) w.
Proof.
  intros H. unfold destroy, write, read. unfold_sys. by rewrite H.
Qed.

(** *** The kernel's bookkeeping *)

Lemma held_spec k shmid :
  held k shmid = true
  <-> (exists b, k_attachments k !! b = Some shmid) \/ shmid ∈ k_elsewhere k.
Proof.
  unfold held. rewrite orb_true_iff, !bool_decide_eq_true. unfold map_Exists.
  split; (intros [H|H]; [left|by right]).
  - destruct H as (b & id & Hb & ->). eauto.
  - destruct H as [b Hb]. eauto.
Qed.

Lemma held_ext k k' shmid :
  k_attachments k' = k_attachments k ->
  k_elsewhere k' = k_elsewhere k ->
  held k' shmid = held k shmid.
Proof. intros Ha He. unfold held. by rewrite Ha, He. Qed.

(** A detach leaves a segment held unless it was attached to it. *)
Lemma held_detached k k' b id0 shmid :
  k_attachments k !! b = Some id0 ->
  k_attachments k' = delete b (k_attachments k) ->
  k_elsewhere k' = k_elsewhere k ->
  shmid <> id0 ->
  held k shmid = true -> held k' shmid = true.
Proof.
  intros Hb Ha He Hne. rewrite !held_spec, Ha, He.
  intros [[b' Hb']|H]; [left|by right].
  exists b'. rewrite lookup_delete_ne; [done|]. intros <-. congruence.
Qed.

(** What [shmdt] does to the kernel, whatever it returns. *)
Lemma shmdt_effect p k :
  exists r k',
    shmdt p k = Done r k'
    /\ (r = -1 -> k' = k)
    /\ (forall b, p = Ptr b 0 -> is_Some (k_attachments k !! b) -> r = 0)
    /\ (forall b, p = Ptr b 0 -> k_attachments k' = delete b (k_attachments k))
    /\ (forall b, k_attachments k !! b = None -> k_attachments k' !! b = None)
    /\ (forall b, is_Some (k_attachments k !! b) -> p <> Ptr b 0 ->
                  is_Some (k_attachments k' !! b))
    /\ k_elsewhere k' = k_elsewhere k
    /\ k_marked k' ⊆ k_marked k
    /\ (forall id, id ∉ k_marked k -> k_segments k' !! id = k_segments k !! id)
    /\ (forall id, released k id -> released k' id).
Proof.
  unfold shmdt. destruct p as [| |b off].
  - exists (-1), k. repeat split; try done.
  - exists (-1), k. repeat split; try done.
  - destruct (decide (off = 0)) as [->|Hoff].
    2:{ exists (-1), k. split; [by destruct off|].
        repeat split; try done; by intros b' [= _ ?]. }
    destruct (k_attachments k !! b) as [id0|] eqn:Hb.
    2:{ exists (-1), k. repeat split; try done.
        - intros b' [= <-] [? ?]. congruence.
        - intros b' [= <-]. symmetry. by apply delete_id. }
    set (k1 := mkKernel _ _ _ _ _ _ _).
    assert (Hheld : forall id, id <> id0 -> held k id = true -> held k1 id = true).
    { intros id Hne. by apply (held_detached k k1 b id0). }
    eexists 0, _. split; [reflexivity|]. split; [lia|]. split; [done|].
    destruct (bool_decide (id0 ∈ k_marked k) && negb (held k1 id0)) eqn:E.
    + apply andb_true_iff in E as [E1 E2]. apply bool_decide_eq_true in E1.
      apply negb_true_iff in E2. simpl.
      split; [by intros b' [= <-]|].
      split; [intros b' Hb'; by apply lookup_delete_None; right|].
      split; [intros b' Hb' Hne; rewrite lookup_delete_ne; [done|congruence]|].
      split; [done|]. split; [by apply subseteq_difference_l|].
      split; [intros id Hid; rewrite lookup_delete_ne; [done|congruence]|].
      intros id [Hgone|[Hm Hh]].
      * left. simpl. by apply lookup_delete_None; right.
      * destruct (decide (id = id0)) as [->|Hne].
        -- left. simpl. by rewrite lookup_delete_eq.
        -- right. split; [simpl; set_solver|].
           rewrite <- (Hheld id Hne Hh). by apply held_ext.
    + split; [by intros b' [= <-]|].
      split; [intros b' Hb'; by apply lookup_delete_None; right|].
      split; [intros b' Hb' Hne; simpl; rewrite lookup_delete_ne; [done|congruence]|].
      split; [done|]. split; [done|]. split; [done|].
      intros id [Hgone|[Hm Hh]]; [by left|right]. split; [done|].
      destruct (decide (id = id0)) as [->|Hne]; [|by apply Hheld].
      apply andb_false_iff in E as [E|E].
      * apply bool_decide_eq_false in E. done.
      * by apply negb_false_iff in E.
Qed.

(** What [shmctl(id, IPC_RMID)] does to the kernel, whatever it returns. *)
Lemma shmctl_rmid_effect os shmid k :
  exists r k',
    shmctl_rmid os shmid k = Done r k'
    /\ (r = -1 -> k' = k)
    /\ (os_shmctl_refused os = true -> k' = k)
    /\ (os_shmctl_refused os = false -> is_Some (k_segments k !! shmid) -> r = 0)
    /\ k_attachments k' = k_attachments k
    /\ k_elsewhere k' = k_elsewhere k
    /\ (forall id, id <> shmid -> k_segments k' !! id = k_segments k !! id)
    /\ (forall id, released k id -> released k' id)
    /\ (os_shmctl_refused os = false -> released k' shmid).
Proof.
  unfold shmctl_rmid. destruct (os_shmctl_refused os).
  { exists (-1), k. by repeat split. }
  destruct (k_segments k !! shmid) as [bs|] eqn:Hbs.
  2:{ exists (-1), k. repeat split; try done. intros _. by left. }
  eexists 0, _. split; [reflexivity|]. split; [lia|]. split; [done|].
  split; [done|].
  destruct (held k shmid) eqn:Hh; simpl.
  - split; [done|]. split; [done|]. split; [done|]. split.
    + intros id [Hgone|[Hm Hh']]; [by left|right].
      split; [simpl; set_solver|]. by rewrite <- Hh'.
    + intros _. right. split; [simpl; set_solver|]. by rewrite <- Hh.
  - split; [done|]. split; [done|].
    split; [intros id Hid; by rewrite lookup_delete_ne|]. split.
    + intros id [Hgone|[Hm Hh']].
      * left. simpl. by apply lookup_delete_None; right.
      * right. assert (id <> shmid) by (intros ->; congruence).
        split; [simpl; set_solver|]. by rewrite <- Hh'.
    + intros _. left. simpl. by rewrite lookup_delete_eq.
Qed.

(** X4: what a [destroy] that succeeds did: the name was registered, it is
    no longer, the segment is released, and the address the entry was
    attached at no longer leads anywhere.  Released means gone from the
    kernel, or, while something else is still attached to it, marked for
    destruction.  The other segments are as they were, apart from those
    that already waited for their destruction. *)
Theorem destroy_removes os name w w' :
  destroy os name w = Done (Ok tt) w' ->
  exists it,
    sharedMemories w !! name = Some it
    /\ sharedMemories w' = delete name (sharedMemories w)
    /\ released (kernel w') (info_id it)
    /\ (info_isAttached it = true -> info_addr it <> NullPtr ->
        resolve (kernel w') (info_addr it) = None)
    /\ (forall id, id <> info_id it -> id ∉ k_marked (kernel w) ->
          k_segments (kernel w') !! id = k_segments (kernel w) !! id).
Proof.
  unfold destroy. rewrite exec_bind_get.
  destruct (sharedMemories w !! name) as [it|] eqn:Hit; [|discriminate].
  intros Hrun. exists it. split; [done|]. revert Hrun.
  assert (exists dt k1,
    (if info_isAttached it && bool_decide (info_addr it ≠ NullPtr)
     then sys (shmdt (info_addr it)) else mret 0) w
    = Done dt (mkWorld (sharedMemories w) k1)
    /\ (dt <> -1 -> info_isAttached it = true -> info_addr it <> NullPtr ->
        resolve k1 (info_addr it) = None)
    /\ (forall id, id ∉ k_marked (kernel w) ->
          k_segments k1 !! id = k_segments (kernel w) !! id))
    as (dt & k1 & Hdt & Hres & Hseg1).
  { destruct (info_isAttached it && bool_decide (info_addr it ≠ NullPtr)) eqn:E.
    - destruct (shmdt_effect (info_addr it) (kernel w))
        as (r & k1 & Hrun & Hfail & _ & Hdel & _ & _ & _ & _ & Hseg & _).
      exists r, k1. unfold sys, zoom. rewrite Hrun. split; [done|].
      split; [|done].
      intros Hr _ _. unfold resolve.
      destruct (info_addr it) as [| |b off] eqn:Hp; [done..|].
      destruct (decide (off = 0)) as [->|Hoff].
      + rewrite (Hdel b eq_refl), lookup_delete_eq. done.
      + exfalso. revert Hrun. unfold shmdt.
        destruct off; [done|intros [= <- _]; lia..].
    - exists 0, (kernel w). split; [by destruct w|]. split; [|done].
      intros _ H1 H2. apply andb_false_iff in E as [E|E]; [congruence|].
      by apply bool_decide_eq_false in E. }
  rewrite (exec_bind_run _ _ _ _ _ Hdt).
  destruct (Z.eqb_spec dt (-1)) as [|Hne]; [discriminate|].
  destruct (shmctl_rmid_effect os (info_id it) k1)
    as (rm & k2 & Hrm & _ & Hrefused & _ & Hatt & _ & Hseg2 & _ & Hrel).
  unfold sys at 1, zoom. unfold mbind at 1, exec_bind. cbn [kernel]. rewrite Hrm.
  destruct (Z.eqb_spec rm (-1)) as [|Hne2]; [discriminate|].
  unfold erase_entry, modify. unfold mbind, exec_bind.
  intros [= <-]. cbn [sharedMemories kernel].
  split; [done|]. split; [|split].
  - apply Hrel. destruct (os_shmctl_refused os) eqn:Hos; [|done].
    exfalso. revert Hrm. unfold shmctl_rmid. rewrite Hos. intros [= ? _]. lia.
  - intros H1 H2. specialize (Hres Hne H1 H2). revert Hres.
    unfold resolve. destruct (info_addr it); [done..|]. by rewrite Hatt.
  - intros id Hid Hm. rewrite (Hseg2 id Hid). by apply Hseg1.
Qed.

(** The [destroy] of the sample segment. *)
Lemma destroy_removes_witness :
  exists it,
    sharedMemories sample_world !! "seg" = Some it
    /\ sharedMemories (final_world (destroy sample_os "seg" sample_world))
       = delete "seg" (sharedMemories sample_world)
    /\ released (kernel (final_world (destroy sample_os "seg" sample_world)))
         (info_id it)
    /\ (info_isAttached it = true -> info_addr it <> NullPtr ->
        resolve (kernel (final_world (destroy sample_os "seg" sample_world)))
          (info_addr it) = None)
    /\ (forall id, id <> info_id it -> id ∉ k_marked (kernel sample_world) ->
          k_segments (kernel (final_world (destroy sample_os "seg" sample_world)))
            !! id
          = k_segments (kernel sample_world) !! id).
Proof.
  apply (destroy_removes sample_os "seg" sample_world
           (final_world (destroy sample_os "seg" sample_world))).
  vm_compute. reflexivity.
Defined.

(** X5: a [create] followed by a [destroy] that the kernel does not refuse:
    the registry is back to what it was and the segment is released. *)
Theorem create_destroy_roundtrip os os' name sz w shmid w1 :
  create os name sz w = Done (Ok shmid) w1 ->
  os_shmctl_refused os' = false ->
  exists w2,
    destroy os' name w1 = Done (Ok tt) w2
    /\ sharedMemories w2 = sharedMemories w
    /\ released (kernel w2) shmid.
Proof.
  intros Hc Hos.
  destruct (create_registers _ _ _ _ _ _ Hc) as (Hfree & Hreg & _ & bs & Hbs & _).
  destruct (shmctl_rmid_effect os' shmid (kernel w1))
    as (rm & k2 & Hrm & _ & _ & Hok & _ & _ & _ & _ & Hrel).
  assert (rm = 0) as -> by (apply Hok; [done|by rewrite Hbs]).
  exists (mkWorld (delete name (sharedMemories w1)) k2).
  split.
  - assert (Hit : sharedMemories w1 !! name = Some (new_info shmid sz))
      by (by rewrite Hreg, lookup_insert_eq).
    unfold destroy. unfold_sys. rewrite Hit. simpl.
    rewrite Hrm. reflexivity.
  - simpl. split; [|by apply Hrel].
    rewrite Hreg. by apply delete_insert_id.
Qed.

(** Two names on one segment: the [destroy] of the first detaches its own
    attachment and marks the segment, which lives on with its contents
    while the second is attached; the [destroy] of the second detaches the
    last attachment, with which the segment goes, and then reports the
    failure of a release that finds nothing left to release. *)
Example destroy_shared_segment :
  generateKey sample_os "Aa" = generateKey sample_os "BB"
  /\ (info_id <$> sharedMemories shared_world !! "Aa") = Some 0
  /\ (info_id <$> sharedMemories shared_world !! "BB") = Some 0
  /\ exists w1 w2,
       destroy sample_os "Aa" shared_world = Done (Ok tt) w1
       /\ k_segments (kernel w1) !! 0
          = Some [1; 2; 0; 0; 0; 0; 0; 0; 0; 0; 0; 0; 0; 0; 0; 0]
       /\ elements (k_marked (kernel w1)) = [0]
       /\ held (kernel w1) 0 = true
       /\ destroy sample_os "BB" w1 = Done (Err DestroyFailed) w2
       /\ k_segments (kernel w2) !! 0 = None
       /\ k_attachments (kernel w2) = ∅.
Proof.
  split; [vm_compute; reflexivity|].
  split; [vm_compute; reflexivity|].
  split; [vm_compute; reflexivity|].
  eexists _, _.
  split; [vm_compute; reflexivity|].
  split; [vm_compute; reflexivity|].
  split; [vm_compute; reflexivity|].
  split; [vm_compute; reflexivity|].
  split; [vm_compute; reflexivity|].
  split; vm_compute; reflexivity.
Qed.

(** The sample segment, created and destroyed. *)
Lemma create_destroy_roundtrip_witness :
  exists w2,
    destroy sample_os "seg" sample_world = Done (Ok tt) w2
    /\ sharedMemories w2 = sharedMemories empty_world
    /\ released (kernel w2) 0.
Proof.
  apply (create_destroy_roundtrip sample_os sample_os "seg" 16 empty_world 0
           sample_world).
  - vm_compute. reflexivity.
  - reflexivity.
Defined.

(** *** Writing and reading *)

(** X6: a range that ends beyond the segment is refused by [write] and by
    [read], with nothing attached and nothing copied, as long as its end
    fits [size_t]. *)
Theorem out_of_bounds_rejected os name data sz o w it :
  sharedMemories w !! name = Some it ->
  0 <= o -> 0 <= sz -> o + sz < SIZE_T_MODULUS ->
  o + sz > info_size it ->
  write os name data sz o w = Done (Err OutOfBounds) w
  /\ read os name data sz o w = Done (Err OutOfBounds) w.
Proof.
  intros Hit Ho Hsz Hfit Hover. split.
  - by apply (write_out_of_bounds _ _ _ _ _ _ it).
  - by apply (read_out_of_bounds _ _ _ _ _ _ it).
Qed.

(** Sixteen bytes at offset 1 of the 16-byte sample segment. *)
Lemma out_of_bounds_rejected_witness :
  write sample_os "seg" sample_data 16 1 sample_world
  = Done (Err OutOfBounds) sample_world
  /\ read sample_os "seg" sample_data 16 1 sample_world
     = Done (Err OutOfBounds) sample_world.
Proof.
  apply (out_of_bounds_rejected sample_os "seg" sample_data 16 1 sample_world
           (new_info 0 16)).
  - vm_compute. reflexivity.
  - lia.
  - lia.
  - vm_compute. reflexivity.
  - simpl. lia.
Defined.

(** What a successful [write] did to the kernel. *)
Lemma write_kernel os name data sz o w w' :
  write os name data sz o w = Done (Ok tt) w' ->
  exists it shmid off bs chunk bs',
    sharedMemories w' !! name = Some it
    /\ resolve (kernel w') (info_addr it) = Some (shmid, off)
    /\ k_segments (kernel w) !! shmid = Some bs
    /\ load_bytes data 0 sz = Some chunk
    /\ store_bytes bs (off + o) chunk = Some bs'
    /\ k_segments (kernel w') = <[shmid := bs']> (k_segments (kernel w)).
Proof.
  unfold write. unfold mbind at 1, exec_bind, get_world.
  destruct (sharedMemories w !! name) as [it|] eqn:Hit; [|discriminate].
  destruct (to_size_t (o + sz) >? info_size it) eqn:Hchk; [discriminate|].
  unfold mbind at 1, exec_bind.
  destruct (auto_attach os name it w) as [[it'|] w1|w1] eqn:Hat; try discriminate.
  destruct (auto_attach_Some _ _ _ _ _ _ Hit Hat) as (Hit' & _ & _ & Hsz).
  apply auto_attach_segments in Hat.
  unfold_sys. unfold memcpy_to_shm.
  destruct (resolve (kernel w1) (ptr_add (info_addr it') o)) as [[shmid off']|] eqn:Hres;
    [|discriminate].
  apply resolve_ptr_add in Hres as (off & Hres & ->).
  destruct (k_segments (kernel w1) !! shmid) as [bs|] eqn:Hbs; [|discriminate].
  destruct (load_bytes data 0 sz) as [chunk|]; [|discriminate].
  destruct (store_bytes bs (off + o) chunk) as [bs'|] eqn:Hst; [|discriminate].
  intros [= <-]. simpl.
  exists it', shmid, off, bs, chunk, bs'. rewrite <- Hat. done.
Qed.

(** X7: a [write] that succeeds changes one segment, the one its entry is
    attached to, keeps its length, and inside it changes no byte outside
    the range it was given. *)
Theorem write_changes_only_its_range os name data sz o w w' :
  write os name data sz o w = Done (Ok tt) w' ->
  exists it shmid off bs bs',
    sharedMemories w' !! name = Some it
    /\ resolve (kernel w') (info_addr it) = Some (shmid, off)
    /\ k_segments (kernel w) !! shmid = Some bs
    /\ k_segments (kernel w') = <[shmid := bs']> (k_segments (kernel w))
    /\ length bs' = length bs
    /\ forall i : nat,
         Z.of_nat i < off + o \/ off + o + sz <= Z.of_nat i ->
         bs' !! i = bs !! i.
Proof.
  intros Hrun.
  destruct (write_kernel _ _ _ _ _ _ _ Hrun)
    as (it & shmid & off & bs & chunk & bs' & Hit & Hres & Hbs & Hld & Hst & Hk).
  exists it, shmid, off, bs, bs'. repeat (split; [done|]).
  split; [by apply store_bytes_length in Hst|].
  intros i Hi. rewrite (store_bytes_lookup _ _ _ _ i Hst).
  apply load_bytes_length in Hld.
  destruct (decide _) as [Hin|]; [lia|done].
Qed.

(** Four bytes written at offset 3 of the sample segment. *)
Lemma write_changes_only_its_range_witness :
  exists it shmid off bs bs',
    sharedMemories
      (final_world (write sample_os "seg" [7; 8; 9; 10] 4 3 sample_world))
      !! "seg" = Some it
    /\ resolve
         (kernel (final_world (write sample_os "seg" [7; 8; 9; 10] 4 3 sample_world)))
         (info_addr it) = Some (shmid, off)
    /\ k_segments (kernel sample_world) !! shmid = Some bs
    /\ k_segments
         (kernel (final_world (write sample_os "seg" [7; 8; 9; 10] 4 3 sample_world)))
       = <[shmid := bs']> (k_segments (kernel sample_world))
    /\ length bs' = length bs
    /\ forall i : nat,
         Z.of_nat i < off + 3 \/ off + 3 + 4 <= Z.of_nat i ->
         bs' !! i = bs !! i.
Proof.
  apply (write_changes_only_its_range sample_os "seg" [7; 8; 9; 10] 4 3
           sample_world).
  vm_compute. reflexivity.
Defined.

(** X8: a [read], whatever it reports, leaves the contents of every segment
    as they were; when it succeeds the caller's buffer keeps its length. *)
Theorem read_leaves_segments os name data sz o w r w' :
  read os name data sz o w = Done r w' ->
  k_segments (kernel w') = k_segments (kernel w)
  /\ forall data', r = Ok data' -> length data' = length data.
Proof.
  unfold read. unfold mbind at 1, exec_bind, get_world.
  destruct (sharedMemories w !! name) as [it|] eqn:Hit;
    [|by intros [= <- <-]].
  destruct (to_size_t (o + sz) >? info_size it) eqn:Hchk;
    [by intros [= <- <-]|].
  unfold mbind at 1, exec_bind.
  destruct (auto_attach os name it w) as [[it'|] w1|w1] eqn:Hat;
    [| |discriminate].
  - apply auto_attach_segments in Hat.
    unfold_sys. unfold memcpy_from_shm.
    destruct (resolve (kernel w1) (ptr_add (info_addr it') o)) as [[shmid off]|];
      [|discriminate].
    destruct (k_segments (kernel w1) !! shmid) as [bs|]; [|discriminate].
    destruct (load_bytes bs off sz) as [chunk|]; [|discriminate].
    destruct (store_bytes data 0 chunk) as [d'|] eqn:Hst; [|discriminate].
    intros [= <- <-]. simpl. split; [done|].
    intros ? [= <-]. by apply store_bytes_length in Hst.
  - apply auto_attach_segments in Hat. by intros [= <- <-].
Qed.

(** Four bytes read at offset 3 of the sample segment. *)
Lemma read_leaves_segments_witness :
  k_segments
    (kernel (final_world (read sample_os "seg" (replicate 4 0) 4 3 sample_world)))
  = k_segments (kernel sample_world)
  /\ forall data', Ok (replicate 4 0) = Ok (E:=error) data' ->
                   length data' = length (replicate 4 0).
Proof.
  apply (read_leaves_segments sample_os "seg" (replicate 4 0) 4 3 sample_world).
  vm_compute. reflexivity.
Defined.

(** X9: the segment is attached once.  After a [write] that succeeded, a
    further [write] or [read] of the name, whatever it reports, attaches
    nothing and leaves the registry as it is. *)
Theorem attach_once os os' name data data' sz sz' o o' w w1 :
  write os name data sz o w = Done (Ok tt) w1 ->
  (forall r w2,
     write os' name data' sz' o' w1 = Done r w2 ->
     sharedMemories w2 = sharedMemories w1
     /\ k_attachments (kernel w2) = k_attachments (kernel w1))
  /\ (forall r w2,
        read os' name data' sz' o' w1 = Done r w2 ->
        sharedMemories w2 = sharedMemories w1
        /\ k_attachments (kernel w2) = k_attachments (kernel w1)).
Proof.
  intros Hrun.
  assert (exists it, sharedMemories w1 !! name = Some it
                     /\ info_isAttached it = true
                     /\ info_addr it <> NullPtr) as (it & Hit & Hatt & Hnn).
  { revert Hrun. unfold write. unfold mbind at 1, exec_bind, get_world.
    destruct (sharedMemories w !! name) as [it|] eqn:Hit; [|discriminate].
    destruct (to_size_t (o + sz) >? info_size it); [discriminate|].
    unfold mbind at 1, exec_bind.
    destruct (auto_attach os name it w) as [[it'|] w0|w0] eqn:Hat;
      try discriminate.
    destruct (auto_attach_Some _ _ _ _ _ _ Hit Hat) as (Hit' & ? & ? & _).
    unfold_sys. unfold memcpy_to_shm.
    destruct (resolve _ _) as [[shmid off]|]; [|discriminate].
    destruct (k_segments (kernel w0) !! shmid) as [bs|]; [|discriminate].
    destruct (load_bytes data 0 sz) as [chunk|]; [|discriminate].
    destruct (store_bytes bs off chunk) as [bs'|]; [|discriminate].
    intros [= <-]. simpl. eauto. }
  split; intros r w2.
  - unfold write. rewrite exec_bind_get, Hit.
    destruct (to_size_t (o' + sz') >? info_size it); [by intros [= <- <-]|].
    rewrite (exec_bind_run _ _ _ _ _ (auto_attach_attached os' name it w1 Hatt Hnn)).
    unfold_sys. unfold memcpy_to_shm.
    destruct (resolve _ _) as [[shmid off]|]; [|discriminate].
    destruct (k_segments (kernel w1) !! shmid) as [bs|]; [|discriminate].
    destruct (load_bytes data' 0 sz') as [chunk|]; [|discriminate].
    destruct (store_bytes bs off chunk) as [bs'|]; [|discriminate].
    by intros [= <- <-].
  - unfold read. rewrite exec_bind_get, Hit.
    destruct (to_size_t (o' + sz') >? info_size it); [by intros [= <- <-]|].
    rewrite (exec_bind_run _ _ _ _ _ (auto_attach_attached os' name it w1 Hatt Hnn)).
    unfold_sys. unfold memcpy_from_shm.
    destruct (resolve _ _) as [[shmid off]|]; [|discriminate].
    destruct (k_segments (kernel w1) !! shmid) as [bs|]; [|discriminate].
    destruct (load_bytes bs off sz') as [chunk|]; [|discriminate].
    destruct (store_bytes data' 0 chunk) as [d'|]; [|discriminate].
    by intros [= <- <-].
Qed.

(** A second write and a read of the sample segment after the first write. *)
Lemma attach_once_witness :
  (forall r w2,
     write sample_os "seg" [1; 2] 2 0 attached_world = Done r w2 ->
     sharedMemories w2 = sharedMemories attached_world
     /\ k_attachments (kernel w2) = k_attachments (kernel attached_world))
  /\ (forall r w2,
        read sample_os "seg" [0; 0] 2 0 attached_world = Done r w2 ->
        sharedMemories w2 = sharedMemories attached_world
        /\ k_attachments (kernel w2) = k_attachments (kernel attached_world)).
Proof.
  apply (attach_once sample_os sample_os "seg" [7; 8; 9; 10] [1; 2] 4 2 3 0
           sample_world attached_world).
  vm_compute. reflexivity.
Defined.

(** *** Unloading the plugin *)

(** What one [destroy] does, whatever it reports. *)
Lemma destroy_effect os name w :
  exists r w',
    destroy os name w = Done r w'
    /\ (forall n, n <> name -> sharedMemories w' !! n = sharedMemories w !! n)
    /\ k_elsewhere (kernel w') = k_elsewhere (kernel w)
    /\ (forall id, released (kernel w) id -> released (kernel w') id)
    /\ (forall b, k_attachments (kernel w) !! b = None ->
                  k_attachments (kernel w') !! b = None)
    /\ (os_shmctl_refused os = true ->
        k_marked (kernel w') ⊆ k_marked (kernel w)
        /\ forall id, id ∉ k_marked (kernel w) ->
             k_segments (kernel w') !! id = k_segments (kernel w) !! id)
    /\ (forall b, is_Some (k_attachments (kernel w) !! b) ->
                  (forall it, sharedMemories w !! name = Some it ->
                              info_addr it <> Ptr b 0) ->
                  is_Some (k_attachments (kernel w') !! b))
    /\ (forall it, sharedMemories w !! name = Some it ->
                   os_shmctl_refused os = false ->
                   detachable w it ->
                   released (kernel w') (info_id it)
                   /\ (info_isAttached it = true ->
                       forall b, info_addr it = Ptr b 0 ->
                                 k_attachments (kernel w') !! b = None)).
Proof.
  unfold destroy. rewrite exec_bind_get.
  destruct (sharedMemories w !! name) as [it|] eqn:Hit.
  2:{ exists (Err NotFound), w. repeat split; try done. }
  (* the detach *)
  assert (exists dt k1,
    (if info_isAttached it && bool_decide (info_addr it ≠ NullPtr)
     then sys (shmdt (info_addr it)) else mret 0) w
    = Done dt (mkWorld (sharedMemories w) k1)
    /\ k_elsewhere k1 = k_elsewhere (kernel w)
    /\ (forall id, released (kernel w) id -> released k1 id)
    /\ (forall b, k_attachments (kernel w) !! b = None ->
                  k_attachments k1 !! b = None)
    /\ k_marked k1 ⊆ k_marked (kernel w)
    /\ (forall id, id ∉ k_marked (kernel w) ->
                   k_segments k1 !! id = k_segments (kernel w) !! id)
    /\ (forall b, is_Some (k_attachments (kernel w) !! b) ->
                  info_addr it <> Ptr b 0 ->
                  is_Some (k_attachments k1 !! b))
    /\ (detachable w it ->
        dt = 0
        /\ (info_isAttached it = true ->
            forall b, info_addr it = Ptr b 0 -> k_attachments k1 !! b = None)))
    as (dt & k1 & Hdt & Hels1 & Hrel1 & Hnone1 & Hmark1 & Hseg1 & Hlive1 & Hok1).
  { destruct (info_isAttached it && bool_decide (info_addr it ≠ NullPtr)) eqn:E.
    - apply andb_true_iff in E as [E1 E2]. apply bool_decide_eq_true in E2.
      destruct (shmdt_effect (info_addr it) (kernel w))
        as (r & k1 & Hrun & _ & Hlive & Hdel & Hnone & Hkeep & Hels & Hmark
            & Hseg & Hrel).
      exists r, k1. unfold sys, zoom. rewrite Hrun.
      split; [done|]. split; [done|]. split; [done|]. split; [done|].
      split; [done|]. split; [done|]. split; [done|].
      intros Hd. destruct (Hd E1 E2) as (b & Hb & Hlive').
      split; [by apply (Hlive b)|].
      intros _ b' Hb'. rewrite (Hdel b' Hb'). apply lookup_delete_eq.
    - exists 0, (kernel w). split; [by destruct w|].
      repeat split; try done.
      intros H1 b Hb. apply andb_false_iff in E as [E|E]; [congruence|].
      apply bool_decide_eq_false in E. rewrite Hb in E. by destruct E. }
  rewrite (exec_bind_run _ _ _ _ _ Hdt).
  destruct (Z.eqb_spec dt (-1)) as [->|Hne].
  { do 2 eexists. split; [reflexivity|]. cbn [sharedMemories kernel].
    split; [done|]. split; [done|]. split; [done|]. split; [done|].
    split; [done|]. split.
    - intros b Hb Haddr. apply Hlive1; [done|]. by apply Haddr.
    - intros it' [= <-] _ Hd. destruct (Hok1 Hd) as [? _]. lia. }
  (* the release *)
  destruct (shmctl_rmid_effect os (info_id it) k1)
    as (rm & k2 & Hrm & _ & Hrefused & _ & Hatt2 & Hels2 & _ & Hrel2 & Hdone2).
  unfold sys at 1, zoom. unfold mbind at 1, exec_bind. cbn [kernel]. rewrite Hrm.
  assert (Hall :
    k_elsewhere k2 = k_elsewhere (kernel w)
    /\ (forall id, released (kernel w) id -> released k2 id)
    /\ (forall b, k_attachments (kernel w) !! b = None ->
                  k_attachments k2 !! b = None)
    /\ (os_shmctl_refused os = true ->
        k_marked k2 ⊆ k_marked (kernel w)
        /\ forall id, id ∉ k_marked (kernel w) ->
             k_segments k2 !! id = k_segments (kernel w) !! id)
    /\ (forall b, is_Some (k_attachments (kernel w) !! b) ->
                  (forall it0, Some it = Some it0 -> info_addr it0 <> Ptr b 0) ->
                  is_Some (k_attachments k2 !! b))
    /\ (forall it0, Some it = Some it0 ->
                    os_shmctl_refused os = false ->
                    detachable w it0 ->
                    released k2 (info_id it0)
                    /\ (info_isAttached it0 = true ->
                        forall b, info_addr it0 = Ptr b 0 ->
                                  k_attachments k2 !! b = None))).
  { split; [congruence|]. split; [by auto|].
    split; [intros b Hb; rewrite Hatt2; by apply Hnone1|].
    split; [intros Hos; by rewrite (Hrefused Hos)|].
    split.
    - intros b Hb Haddr. rewrite Hatt2. apply Hlive1; [done|]. by apply Haddr.
    - intros it0 [= <-] Hos Hd. split; [by apply Hdone2|].
      intros Ha b Hb. rewrite Hatt2. by apply (Hok1 Hd). }
  destruct (rm =? -1).
  - do 2 eexists. split; [reflexivity|]. cbn [sharedMemories kernel].
    split; [done|]. exact Hall.
  - do 2 eexists. split; [reflexivity|]. cbn [sharedMemories kernel].
    split; [intros n Hn; by rewrite lookup_delete_ne|]. exact Hall.
Qed.

Lemma list_names_spec w :
  NoDup (list_names w)
  /\ forall name, name ∈ list_names w <-> is_Some (sharedMemories w !! name).
Proof.
  unfold list_names.
  pose proof (merge_sort_Permutation string_le
                (elements (dom (sharedMemories w)))) as Hp.
  split.
  - rewrite Hp. apply NoDup_elements.
  - intros name. rewrite Hp, elem_of_elements. apply elem_of_dom.
Qed.

(** [cleanup] always returns, and the registry is then empty. *)
Lemma cleanup_clears os w :
  exists w', cleanup os w = Done tt w' /\ sharedMemories w' = ∅.
Proof.
  unfold cleanup. rewrite exec_bind_get.
  destruct (for_each_invariant (fun _ => True)
              (fun name => destroy (os name) name) (list_names w)) with (s := w)
    as (w1 & Hrun & _); [|done|].
  - intros name s _.
    destruct (destroy_effect (os name) name s) as (r & s' & Hd & _). eauto.
  - rewrite (exec_bind_run _ _ _ _ _ Hrun). eexists. split; [done|]. done.
Qed.

(** X10: when the kernel refuses every release, [cleanup] still empties the
    registry, and every segment that was not already marked for destruction
    is still in the kernel, with its contents: the names that led to them
    are forgotten. *)
Theorem cleanup_forgets_refused_segments os w :
  (forall name, os_shmctl_refused (os name) = true) ->
  exists w',
    cleanup os w = Done tt w'
    /\ sharedMemories w' = ∅
    /\ (forall id, id ∉ k_marked (kernel w) ->
                   k_segments (kernel w') !! id = k_segments (kernel w) !! id)
    /\ (k_marked (kernel w) = ∅ ->
        k_segments (kernel w') = k_segments (kernel w)).
Proof.
  intros Hos. unfold cleanup. rewrite exec_bind_get.
  destruct (for_each_invariant
              (fun s => k_marked (kernel s) ⊆ k_marked (kernel w)
                        /\ forall id, id ∉ k_marked (kernel w) ->
                             k_segments (kernel s) !! id
                             = k_segments (kernel w) !! id)
              (fun name => destroy (os name) name) (list_names w)) with (s := w)
    as (w1 & Hrun & Hmark & Hseg); [|done|].
  - intros name s [Hm Hs].
    destruct (destroy_effect (os name) name s)
      as (r & s' & Hd & _ & _ & _ & _ & Hk & _).
    destruct (Hk (Hos name)) as [Hm' Hs'].
    exists r, s'. split; [done|].
    split; [by transitivity (k_marked (kernel s))|].
    intros id Hid. rewrite Hs' by (intros Hin; by apply Hid, Hm). by apply Hs.
  - rewrite (exec_bind_run _ _ _ _ _ Hrun). eexists. split; [done|].
    split; [done|]. simpl. split; [done|].
    intros Hempty. apply map_eq. intros id. apply Hseg. set_solver.
Qed.

(** The attached sample segment, under a kernel that refuses the release. *)
Lemma cleanup_forgets_refused_segments_witness :
  exists w',
    cleanup (fun _ => sample_os_no_release) attached_world = Done tt w'
    /\ sharedMemories w' = ∅
    /\ (forall id, id ∉ k_marked (kernel attached_world) ->
                   k_segments (kernel w') !! id
                   = k_segments (kernel attached_world) !! id)
    /\ (k_marked (kernel attached_world) = ∅ ->
        k_segments (kernel w') = k_segments (kernel attached_world)).
Proof.
  apply (cleanup_forgets_refused_segments (fun _ => sample_os_no_release)
           attached_world).
  intros name. reflexivity.
Defined.

Lemma for_each_destroy_releases os w :
  attachments_sound w ->
  (forall name, os_shmctl_refused (os name) = false) ->
  forall l s,
    NoDup l ->
    (forall name, name ∈ l -> sharedMemories s !! name = sharedMemories w !! name) ->
    (forall name it b,
       name ∈ l -> sharedMemories w !! name = Some it ->
       info_addr it = Ptr b 0 -> info_isAttached it = true ->
       is_Some (k_attachments (kernel s) !! b)) ->
    exists s',
      for_each (fun name => destroy (os name) name) l s = Done tt s'
      /\ k_elsewhere (kernel s') = k_elsewhere (kernel s)
      /\ (forall id, released (kernel s) id -> released (kernel s') id)
      /\ (forall b, k_attachments (kernel s) !! b = None ->
                    k_attachments (kernel s') !! b = None)
      /\ (forall name it, name ∈ l -> sharedMemories w !! name = Some it ->
            released (kernel s') (info_id it)
            /\ (info_isAttached it = true ->
                forall b, info_addr it = Ptr b 0 ->
                          k_attachments (kernel s') !! b = None)).
Proof.
  intros Hsound Hos. induction l as [|name l IH]; intros s Hnd Hreg Hatt.
  - exists s. split; [done|]. split; [done|]. split; [done|]. split; [done|].
    intros ? ? H. by apply elem_of_nil in H.
  - apply NoDup_cons in Hnd as [Hnotin Hnd]. simpl.
    destruct (destroy_effect (os name) name s)
      as (r & s1 & Hd & Hother & Hels & Hrel & Hnone & _ & Hkeep & Hgone).
    rewrite (exec_bind_run _ _ _ _ _ Hd).
    destruct (IH s1 Hnd) as (s' & Hrun & Hels' & Hrel' & Hnone' & Hgone').
    + intros n Hn. rewrite Hother by (intros ->; done). apply Hreg. by right.
    + intros n it b Hn Hit Hb Ha.
      apply Hkeep; [apply (Hatt n it b); [by right|done..]|].
      intros it0 Hit0 Heq.
      rewrite Hreg in Hit0 by left.
      destruct (Hsound n it Hit Ha ltac:(by rewrite Hb)) as (b' & Hb' & _ & Huniq).
      assert (b' = b) as -> by congruence.
      specialize (Huniq name it0 Hit0 Heq). subst n. done.
    + exists s'. split; [done|]. split; [congruence|]. split; [by auto|].
      split; [by auto|].
      intros n it Hn Hit. apply elem_of_cons in Hn as [->|Hn]; [|by eauto].
      destruct (Hgone it) as [Hr Hb]; [by rewrite Hreg by left|apply Hos| |].
      * intros Ha Hnn.
        destruct (Hsound name it Hit Ha Hnn) as (b & Hb & _ & _).
        exists b. split; [done|]. apply (Hatt name it b); [by left|done..].
      * split; [by apply Hrel'|]. intros Ha b Hp. apply Hnone'. by apply Hb.
Qed.

(** X11: when the registry is sound and the kernel refuses no release,
    [cleanup] empties the registry, detaches every entry and releases the
    segment of every name that was registered: the segment is gone from the
    kernel, or, while an attachment that the registry does not record or
    another process holds it, marked for destruction.  When the registry
    records every attachment of the process and no other process is
    attached, every such segment is gone. *)
Theorem cleanup_releases_every_segment os w :
  attachments_sound w ->
  (forall name, os_shmctl_refused (os name) = false) ->
  exists w',
    cleanup os w = Done tt w'
    /\ sharedMemories w' = ∅
    /\ (forall name it,
          sharedMemories w !! name = Some it ->
          released (kernel w') (info_id it)
          /\ (info_isAttached it = true ->
              forall b, info_addr it = Ptr b 0 ->
                        k_attachments (kernel w') !! b = None))
    /\ ((forall b, is_Some (k_attachments (kernel w) !! b) ->
           exists name it,
             sharedMemories w !! name = Some it
             /\ info_isAttached it = true /\ info_addr it = Ptr b 0) ->
        k_elsewhere (kernel w) = ∅ ->
        forall name it,
          sharedMemories w !! name = Some it ->
          k_segments (kernel w') !! info_id it = None).
Proof.
  intros Hsound Hos. unfold cleanup. rewrite exec_bind_get.
  destruct (list_names_spec w) as [Hnd Hin].
  destruct (for_each_destroy_releases os w Hsound Hos (list_names w) w Hnd)
    as (w1 & Hrun & Hels & _ & Hnone & Hgone); [done| |].
  - intros name it b Hn Hit Hb Ha.
    destruct (Hsound name it Hit Ha ltac:(by rewrite Hb)) as (b' & Hb' & Hlive & _).
    by assert (b' = b) as <- by congruence.
  - rewrite (exec_bind_run _ _ _ _ _ Hrun). eexists. split; [done|].
    split; [done|]. cbn [kernel].
    assert (Hall : forall name it,
      sharedMemories w !! name = Some it ->
      released (kernel w1) (info_id it)
      /\ (info_isAttached it = true ->
          forall b, info_addr it = Ptr b 0 ->
                    k_attachments (kernel w1) !! b = None)).
    { intros name it Hit. apply (Hgone name); [|done]. apply Hin. by rewrite Hit. }
    split; [exact Hall|].
    intros Hrec Hnobody name it Hit.
    destruct (Hall name it Hit) as [[Hg|[_ Hheld]] _]; [done|exfalso].
    apply held_spec in Hheld as [[b Hb]|He]; [|rewrite Hels, Hnobody in He; set_solver].
    destruct (k_attachments (kernel w) !! b) as [id|] eqn:Hw.
    + destruct (Hrec b ltac:(by eexists)) as (n & it' & Hit' & Ha & Hp).
      destruct (Hall n it' Hit') as [_ Hdet]. rewrite (Hdet Ha b Hp) in Hb. done.
    + rewrite (Hnone b Hw) in Hb. done.
Qed.

Lemma attached_world_sound : attachments_sound attached_world.
Proof.
  intros name it Hit _ _.
  change (sharedMemories attached_world)
    with (<["seg" := mkSharedMemInfo 0 16 (Ptr 0 0) true]>
            (<["seg" := new_info 0 16]> (∅ : gmap string SharedMemInfo))) in *.
  rewrite insert_insert_eq in *.
  apply lookup_insert_Some in Hit as [[<- <-]|[_ Hit]];
    [|by rewrite lookup_empty in Hit].
  exists 0%nat. split; [done|]. split; [by eexists|].
  intros name' it' Hit' _.
  apply lookup_insert_Some in Hit' as [[<- _]|[_ Hit']];
    [done|by rewrite lookup_empty in Hit'].
Qed.

(** The attached sample segment, under a kernel that refuses nothing. *)
Lemma cleanup_releases_every_segment_witness :
  exists w',
    cleanup (fun _ => sample_os) attached_world = Done tt w'
    /\ sharedMemories w' = ∅
    /\ (forall name it,
          sharedMemories attached_world !! name = Some it ->
          released (kernel w') (info_id it)
          /\ (info_isAttached it = true ->
              forall b, info_addr it = Ptr b 0 ->
                        k_attachments (kernel w') !! b = None))
    /\ ((forall b, is_Some (k_attachments (kernel attached_world) !! b) ->
           exists name it,
             sharedMemories attached_world !! name = Some it
             /\ info_isAttached it = true /\ info_addr it = Ptr b 0) ->
        k_elsewhere (kernel attached_world) = ∅ ->
        forall name it,
          sharedMemories attached_world !! name = Some it ->
          k_segments (kernel w') !! info_id it = None).
Proof.
  apply (cleanup_releases_every_segment (fun _ => sample_os) attached_world).
  - exact attached_world_sound.
  - intros name. reflexivity.
Defined.

End MmapSemaphoreFacts.

(** ** The manager of plugins/src/mmap-semaphore.cpp *)

Module PluginsMmapSemaphoreFacts.
Import SysV PluginsMmapSemaphore.

Ltac unfold_sys := unfold sys, set_entry, erase_entry in *; exec_unfold.

(** The older [Destroy] has the same early returns: whatever failure it
    reports, the registry is as it was. *)
Lemma Destroy_failure_keeps_registry os name w w' e :
  Destroy os name w = Done (Err e) w' ->
  segments w' = segments w.
Proof.
  unfold Destroy. unfold_sys.
  destruct (segments w !! name) as [it|]; [|by intros [= <- <-]].
  destruct (info_isAttached it).
  - destruct (shmdt (info_addr it) (kernel w)) as [dt k|k]; [|discriminate].
    destruct (dt =? -1); [by intros [= <- <-]|]. simpl.
    destruct (shmctl_rmid os (info_id it) k) as [rm k2|k2]; [|discriminate].
    simpl. destruct (rm =? -1); [by intros [= <- <-]|discriminate].
  - simpl.
    destruct (shmctl_rmid os (info_id it) (kernel w)) as [rm k2|k2]; [|discriminate].
    simpl. destruct (rm =? -1); [by intros [= <- <-]|discriminate].
Qed.

(** On the sample segment, with a kernel that refuses the release. *)
Example Destroy_release_refused :
  exists w',
    Destroy sample_os_no_release "seg" sample_world = Done (Err RemoveFailed) w'
    /\ segments w' !! "seg" = Some (new_info 0 16).
Proof. eexists. split; vm_compute; reflexivity. Qed.

(** The older [Create] does not look the name up: on a registered name it
    succeeds and stores a new handle over the old one. *)
Example Create_registered_name :
  segments sample_world !! "seg" = Some (new_info 0 16)
  /\ exists w',
       Create sample_os "seg" 8 sample_world = Done (Ok 0) w'
       /\ segments w' !! "seg" = Some (new_info 0 8).
Proof. split; [|eexists; split]; vm_compute; reflexivity. Qed.

(** The older [WriteArray] also takes its offset in bytes: one element
    written at offset 1 lands in the bytes 1 to 8. *)
Example WriteArray_at_offset_1 :
  segment_of (final_world (WriteArray sample_os "seg" [1; 2; 3; 4; 5; 6; 7; 8]
                             1 1 sample_world)) "seg"
  = Some [0; 1; 2; 3; 4; 5; 6; 7; 8; 0; 0; 0; 0; 0; 0; 0].
Proof. vm_compute. reflexivity. Qed.

(** In the older [WriteArray] a negative count becomes a byte count near
    the top of [size_t]; the sum in the bounds check wraps to zero, the
    check passes, and the copy runs out of the segment. *)
Example WriteArray_negative_count :
  array_bytes (-1) = 2 ^ 64 - 8
  /\ to_size_t (to_size_t 8 + array_bytes (-1)) = 0
  /\ exists w',
       WriteArray sample_os "seg" [1; 2; 3; 4; 5; 6; 7; 8] (-1) 8 sample_world
       = Trap w'.
Proof.
  repeat split; try (vm_compute; reflexivity). vm_compute. eexists. reflexivity.
Qed.

(** X12: the older [Create] does not look the name up.  When it succeeds on
    a name that is registered, the new handle, unattached, takes the place
    of the old entry, and no attachment of the process is given up: the
    address the old entry held is dropped without a detach. *)
Theorem Create_replaces_entry os name sz w it shmid w' :
  segments w !! name = Some it ->
  Create os name sz w = Done (Ok shmid) w' ->
  segments w' = <[name := new_info shmid sz]> (segments w)
  /\ segments w' !! name = Some (new_info shmid sz)
  /\ k_attachments (kernel w') = k_attachments (kernel w).
Proof.
  intros _. unfold Create. unfold_sys.
  destruct (os_ftok os name =? -1); [discriminate|].
  unfold shmget.
  destruct (os_shmget_refused os); [simpl; discriminate|].
  destruct (if os_ftok os name =? IPC_PRIVATE then None
            else k_keys (kernel w) !! os_ftok os name) as [id|].
  - destruct (k_segments (kernel w) !! id) as [bs|]; [|simpl; discriminate].
    destruct (sz <=? Z.of_nat (length bs)); simpl; [|discriminate].
    destruct (id =? -1); [discriminate|].
    intros [= <- <-]. simpl. by rewrite lookup_insert_eq.
  - destruct (sz <=? 0); simpl; [discriminate|].
    destruct (k_next_shmid (kernel w) =? -1); [discriminate|].
    intros [= <- <-]. simpl. by rewrite lookup_insert_eq.
Qed.

(** A second [Create] of the attached sample segment, with another size. *)
Lemma Create_replaces_entry_witness :
  segments (final_world (Create sample_os "seg" 8 attached_world))
  = <["seg" := new_info 0 8]> (segments attached_world)
  /\ segments (final_world (Create sample_os "seg" 8 attached_world)) !! "seg"
     = Some (new_info 0 8)
  /\ k_attachments (kernel (final_world (Create sample_os "seg" 8 attached_world)))
     = k_attachments (kernel attached_world).
Proof.
  apply (Create_replaces_entry sample_os "seg" 8 attached_world
           (mkSharedMemInfo 0 16 (Ptr 0 0) true) 0).
  - vm_compute. reflexivity.
  - vm_compute. reflexivity.
Defined.

(** X13: the older [WriteArray] attaches before it checks the bounds.  A
    request that is too large for a segment not yet attached is refused,
    and the segment is attached all the same. *)
Theorem WriteArray_too_large_attaches os name data n o w it :
  segments w !! name = Some it ->
  info_isAttached it = false ->
  os_shmat_refused os = false ->
  is_Some (k_segments (kernel w) !! info_id it) ->
  0 <= o < 2 ^ 31 ->
  0 <= n < 2 ^ 31 ->
  o + n * 8 > info_size it ->
  exists w',
    WriteArray os name data n o w = Done (Err TooLarge) w'
    /\ segments w' !! name
       = Some (mkSharedMemInfo (info_id it) (info_size it)
                 (Ptr (k_next_block (kernel w)) 0) true)
    /\ k_attachments (kernel w') !! k_next_block (kernel w) = Some (info_id it)
    /\ k_segments (kernel w') = k_segments (kernel w).
Proof.
  intros Hit Hatt Hos [bs Hbs] Ho Hn Hover.
  unfold WriteArray. rewrite exec_bind_get, Hit.
  unfold attach_first. rewrite Hatt. simpl.
  unfold_sys. unfold shmat. rewrite Hos, Hbs. simpl.
  unfold array_bytes, to_size_t, sizeof_double, SIZE_T_MODULUS.
  rewrite (Z.mod_small n) by lia.
  rewrite (Z.mod_small (n * 8)) by lia.
  rewrite (Z.mod_small o) by lia.
  rewrite (Z.mod_small (o + n * 8)) by lia.
  destruct (Z.gtb_spec (o + n * 8) (info_size it)) as [_|]; [|lia].
  eexists. split; [done|]. simpl.
  rewrite insert_insert_eq, !lookup_insert_eq. done.
Qed.

(** Two elements at offset 1 of the 16-byte sample segment. *)
Lemma WriteArray_too_large_attaches_witness :
  exists w',
    WriteArray sample_os "seg" sample_bytes 2 1 sample_world
    = Done (Err TooLarge) w'
    /\ segments w' !! "seg"
       = Some (mkSharedMemInfo (info_id (new_info 0 16)) (info_size (new_info 0 16))
                 (Ptr (k_next_block (kernel sample_world)) 0) true)
    /\ k_attachments (kernel w') !! k_next_block (kernel sample_world)
       = Some (info_id (new_info 0 16))
    /\ k_segments (kernel w') = k_segments (kernel sample_world).
Proof.
  apply (WriteArray_too_large_attaches sample_os "seg" sample_bytes 2 1
           sample_world (new_info 0 16)).
  - vm_compute. reflexivity.
  - reflexivity.
  - reflexivity.
  - vm_compute. eexists. reflexivity.
  - lia.
  - lia.
  - simpl. lia.
Defined.

(** After [attach_first] has succeeded the entry is registered and
    attached, and its size is as before. *)
Lemma attach_first_Some os name it it' w w' :
  segments w !! name = Some it ->
  attach_first os name it w = Done (Some it') w' ->
  segments w' !! name = Some it'
  /\ info_isAttached it' = true
  /\ info_size it' = info_size it.
Proof.
  intros Hit. unfold attach_first.
  destruct (info_isAttached it) eqn:E; simpl.
  - by intros [= <- <-].
  - unfold_sys.
    destruct (shmat os (info_id it) (kernel w)) as [p k|k]; [|discriminate].
    simpl. destruct (decide (p = MinusOnePtr)); simpl; [discriminate|].
    intros [= <- <-]. simpl. by rewrite lookup_insert_eq.
Qed.

(** X14: in the older manager too, what a successful [WriteArray] put at an
    offset, a [ReadArray] of as many elements at that offset gives back. *)
Theorem WriteArray_ReadArray_roundtrip os os' name (b buf : list byte) n o w w' :
  Z.of_nat (length b) = array_bytes n ->
  (length b <= length buf)%nat ->
  WriteArray os name b n o w = Done (Ok tt) w' ->
  ReadArray os' name buf n o w'
  = Done (Ok (b ++ drop (length b) buf)) w'.
Proof.
  intros Hlen Hbuf. unfold WriteArray, ReadArray.
  unfold mbind at 1 3, exec_bind, get_world.
  destruct (segments w !! name) as [it|] eqn:Hit; [|discriminate].
  unfold mbind at 1, exec_bind.
  destruct (attach_first os name it w) as [[it'|] w1|w1] eqn:Hat; try discriminate.
  destruct (attach_first_Some _ _ _ _ _ _ Hit Hat) as (Hit' & Hatt & Hsz).
  destruct (to_size_t (to_size_t o + array_bytes n) >? info_size it') eqn:Hchk;
    [discriminate|].
  unfold_sys. unfold memcpy_to_shm.
  destruct (resolve (kernel w1) (ptr_add (info_addr it') o)) as [[shmid off]|] eqn:Hres;
    [|discriminate].
  destruct (k_segments (kernel w1) !! shmid) as [bs|]; [|discriminate].
  rewrite <- Hlen, load_bytes_all.
  destruct (store_bytes bs off b) as [bs'|] eqn:Hst; [|discriminate].
  intros [= <-]. simpl. rewrite Hit'.
  unfold attach_first. rewrite Hatt. simpl. rewrite Hlen, Hchk.
  unfold memcpy_from_shm. simpl.
  replace (resolve _ _) with (Some (shmid, off)).
  simpl. rewrite lookup_insert_eq. rewrite <- Hlen.
  rewrite (store_bytes_load _ _ _ _ Hst).
  rewrite store_bytes_at_0 by done. reflexivity.
Qed.

(** One element written at offset 3 of the sample segment and read back. *)
Lemma WriteArray_ReadArray_roundtrip_witness :
  ReadArray sample_os "seg" (replicate 8 0) 1 3 attached_world
  = Done (Ok ([1; 2; 3; 4; 5; 6; 7; 8] ++ drop 8 (replicate 8 0))) attached_world.
Proof.
  apply (WriteArray_ReadArray_roundtrip sample_os sample_os "seg"
           [1; 2; 3; 4; 5; 6; 7; 8] (replicate 8 0) 1 3 sample_world).
  - vm_compute. reflexivity.
  - simpl. lia.
  - vm_compute. reflexivity.
Defined.

End PluginsMmapSemaphoreFacts.

(** ** The channel of shm_implementation.cpp *)

Module ShmImplementationFacts.
Import ShmImplementation.

#[local] Arguments tail_of : simpl never.
#[local] Arguments page_up : simpl never.

(** *** Pages *)

Lemma page_up_ge n : n <= page_up n.
Proof.
  unfold page_up, PAGE_SIZE.
  pose proof (Z.div_mod (n + 4096 - 1) 4096 ltac:(lia)).
  pose proof (Z.mod_pos_bound (n + 4096 - 1) 4096 ltac:(lia)). lia.
Qed.

Lemma tail_of_length w key bs :
  Z.of_nat (length (tail_of w key bs))
  = page_up (Z.of_nat (length bs)) - Z.of_nat (length bs).
Proof.
  unfold tail_of. rewrite length_resize.
  pose proof (page_up_ge (Z.of_nat (length bs))). lia.
Qed.

(** An object of no bytes has no page. *)
Lemma tail_of_nil w key : tail_of w key [] = [].
Proof.
  unfold tail_of.
  change (Z.to_nat (page_up (Z.of_nat (length (@nil byte)))
                    - Z.of_nat (length (@nil byte)))) with 0%nat.
  apply resize_0.
Qed.

Lemma tail_of_ext w w' key bs bs' :
  page_tails w' !! key = page_tails w !! key ->
  length bs' = length bs ->
  tail_of w' key bs' = tail_of w key bs.
Proof. intros Ht Hl. unfold tail_of. by rewrite Ht, Hl. Qed.

Lemma load_bytes_app_l (m t chunk : list byte) (off n : Z) :
  load_bytes m off n = Some chunk -> load_bytes (m ++ t) off n = Some chunk.
Proof.
  unfold load_bytes. destruct (in_bounds (length m) off n) eqn:E; [|discriminate].
  apply in_bounds_spec in E. intros [= <-].
  rewrite (proj2 (in_bounds_spec _ _ _)) by (rewrite length_app; lia).
  f_equal. rewrite drop_app_le by lia.
  apply take_app_le. rewrite length_drop. lia.
Qed.

Lemma store_bytes_app_l (m t data m' : list byte) (off : Z) :
  store_bytes m off data = Some m' ->
  store_bytes (m ++ t) off data = Some (m' ++ t).
Proof.
  unfold store_bytes.
  destruct (in_bounds (length m) off _) eqn:E; [|discriminate].
  apply in_bounds_spec in E. intros [= <-].
  rewrite (proj2 (in_bounds_spec _ _ _)) by (rewrite length_app; lia).
  f_equal. rewrite take_app_le by lia. rewrite drop_app_le by lia.
  by rewrite <- !app_assoc.
Qed.

(** Through a mapping of a whole object the process sees the object and
    the rest of its last page. *)
Lemma visible_mapped w b key m off :
  mapped w b key m ->
  visible w (Ptr b off) = Some (key, off, m ++ tail_of w key m).
Proof.
  intros [Hm Hf]. unfold visible, pages_of. rewrite Hm. simpl. rewrite Hf. simpl.
  rewrite take_ge; [done|].
  pose proof (tail_of_length w key m). rewrite length_app. lia.
Qed.

Lemma peek_mapped w b key m off n chunk :
  mapped w b key m ->
  load_bytes m off n = Some chunk ->
  peek w (Ptr b off) n = Some chunk.
Proof.
  intros H Hl. unfold peek. rewrite (visible_mapped _ _ _ _ _ H).
  by apply load_bytes_app_l.
Qed.

(** *** Searching the table *)

Lemma first_index_range p i n :
  first_index p i n = -1
  \/ (Z.of_nat i <= first_index p i n < Z.of_nat (i + n)
      /\ p (Z.to_nat (first_index p i n)) = true).
Proof.
  revert i. induction n as [|n IH]; intros i; simpl; [by left|].
  destruct (p i) eqn:E.
  - right. rewrite Nat2Z.id. split; [lia|done].
  - destruct (IH (S i)) as [H|[H1 H2]]; [by left|right]. split; [lia|done].
Qed.

Lemma first_index_none p i n :
  first_index p i n = -1 ->
  forall j, (i <= j < i + n)%nat -> p j = false.
Proof.
  revert i. induction n as [|n IH]; intros i; simpl; [lia|].
  destruct (p i) eqn:E; [lia|]. intros H j Hj.
  destruct (decide (j = i)) as [->|]; [done|]. apply (IH (S i)); [done|lia].
Qed.

Lemma first_index_found p i n k :
  (i <= k < i + n)%nat ->
  p k = true ->
  (forall j, (i <= j < k)%nat -> p j = false) ->
  first_index p i n = Z.of_nat k.
Proof.
  revert i. induction n as [|n IH]; intros i Hk Hp Hbefore; simpl; [lia|].
  destruct (decide (k = i)) as [->|Hne]; [by rewrite Hp|].
  rewrite Hbefore by lia. apply IH; [lia|done|]. intros j Hj. apply Hbefore. lia.
Qed.

Lemma find_slot_by_name_valid w name :
  0 <= find_slot_by_name w name ->
  valid_slot w (find_slot_by_name w name) = true
  /\ slot_name (slot_at w (Z.to_nat (find_slot_by_name w name))) = name.
Proof.
  unfold find_slot_by_name, valid_slot. intros H.
  destruct (first_index_range
              (fun i => slot_in_use (slot_at w i)
                        && bool_decide (slot_name (slot_at w i) = name))
              0 MAX_SHM_OBJECTS) as [E|[Hr Hp]]; [lia|].
  apply andb_true_iff in Hp as [Hp1 Hp2]. apply bool_decide_eq_true in Hp2.
  rewrite Hp1. split; [|done].
  rewrite Nat.add_0_l in Hr.
  rewrite !andb_true_iff, Z.leb_le, Z.ltb_lt. lia.
Qed.

Lemma find_free_slot_range w :
  0 <= find_free_slot w -> find_free_slot w < Z.of_nat MAX_SHM_OBJECTS.
Proof.
  unfold find_free_slot. intros H.
  destruct (first_index_range (fun i => negb (slot_in_use (slot_at w i)))
              0 MAX_SHM_OBJECTS) as [E|[Hr _]]; [lia|].
  rewrite Nat.add_0_l in Hr. lia.
Qed.

(** A name that is in the table is found again, whatever the size asked
    for, and nothing changes. *)
Lemma create_or_open_registered os name sz w :
  0 <= find_slot_by_name w name ->
  create_or_open os name sz w = Done (find_slot_by_name w name) w.
Proof.
  intros H. unfold create_or_open. exec_unfold.
  apply Z.leb_le in H. by rewrite H.
Qed.

(** Once a slot holds [name], the search by name ends there provided no
    earlier slot does. *)
Lemma find_slot_by_name_insert w w' name k s :
  find_slot_by_name w name = -1 ->
  shm_objects w' = <[k := s]> (shm_objects w) ->
  (k < MAX_SHM_OBJECTS)%nat ->
  slot_in_use s = true ->
  slot_name s = name ->
  find_slot_by_name w' name = Z.of_nat k.
Proof.
  intros Hnone Hobj Hk Huse Hname. unfold find_slot_by_name.
  apply first_index_found; [lia| |].
  - unfold slot_at. rewrite Hobj, lookup_insert_eq. simpl.
    rewrite Huse. by rewrite bool_decide_eq_true_2.
  - intros j Hj. unfold slot_at. rewrite Hobj.
    rewrite lookup_insert_ne by lia.
    apply (first_index_none _ _ _ Hnone). lia.
Qed.

Ltac unfold_calls :=
  unfold create_or_open, close, shm_open, ftruncate, mmap, munmap, close_fd,
    sem_open_creat, sem_open_existing, sem_post, sem_timedwait, sem_close,
    store, load, load_c_string, c_string_equals, reading in *;
  exec_unfold.

Ltac case_step :=
  match goal with
  | |- context [match ?x with _ => _ end] =>
      lazymatch x with
      | context [match _ with _ => _ end] => fail
      | _ => destruct x eqn:?
      end
  end.

(** [create_or_open] always returns; it logs nothing and leaves the
    semaphores alone. *)
Lemma create_or_open_quiet os name sz w :
  exists slot w',
    create_or_open os name sz w = Done slot w'
    /\ trace w' = trace w
    /\ semaphores w' = semaphores w.
Proof.
  unfold_calls. repeat case_step; simpl; eauto.
Qed.

(** What a successful [create_or_open] of an unregistered name did. *)
Lemma create_or_open_new os name sz w slot w' :
  find_slot_by_name w name = -1 ->
  create_or_open os name sz w = Done slot w' ->
  0 <= slot ->
  slot = find_free_slot w
  /\ exists key fd,
       ipc_name name = Some key
       /\ shm_objects w'
          = <[Z.to_nat slot := mkSlot name (Ptr (next_block w) 0) sz fd true]>
              (shm_objects w)
       /\ mappings w' = <[next_block w := (key, sz)]> (mappings w)
       /\ shm_files w'
          = <[key := resize (Z.to_nat sz) 0
                       (default [] (shm_files w !! key)
                        ++ tail_of w key (default [] (shm_files w !! key)))]>
              (shm_files w)
       /\ 0 < sz.
Proof.
  intros Hnone. unfold create_or_open. exec_unfold. rewrite Hnone. simpl.
  destruct (find_free_slot w <? 0) eqn:Hfree; [intros [= <- <-]; lia|].
  unfold shm_open. destruct (os_shm_open_refused os); [intros [= <- <-]; lia|].
  destruct (ipc_name name) as [key|]; [|intros [= <- <-]; lia].
  set (fd := lowest_free_fd (open_fds w)).
  destruct (fd <? 0); [intros [= <- <-]; lia|].
  set (w1 := with_open_fds _ _).
  assert (Hfd : open_fds w1 !! fd = Some key).
  { subst w1. destruct (shm_files w !! key); simpl; by rewrite lookup_insert_eq. }
  assert (Hfile : shm_files w1 !! key = Some (default [] (shm_files w !! key))).
  { subst w1. destruct (shm_files w !! key) eqn:E; simpl; [done|].
    by rewrite lookup_insert_eq. }
  assert (Hrest : shm_objects w1 = shm_objects w /\ mappings w1 = mappings w
                  /\ next_block w1 = next_block w
                  /\ shm_files w1 = match shm_files w !! key with
                                    | Some _ => shm_files w
                                    | None => <[key := []]> (shm_files w)
                                    end
                  /\ page_tails w1 = page_tails w).
  { subst w1. destruct (shm_files w !! key); done. }
  destruct Hrest as (Hobj & Hmap & Hblk & Hfiles & Htails).
  assert (Htail : forall bs, tail_of w1 key bs = tail_of w key bs)
    by (intros bs; unfold tail_of; by rewrite Htails).
  clearbody w1.
  unfold ftruncate. destruct (os_ftruncate_refused os).
  { unfold close. exec_unfold. repeat case_step; intros [= <- <-]; lia. }
  destruct (2 ^ 63 <=? sz).
  { unfold close. exec_unfold. repeat case_step; intros [= <- <-]; lia. }
  rewrite Hfd, Hfile. simpl.
  unfold mmap. destruct (os_mmap_refused os).
  { unfold close. exec_unfold. simpl. repeat case_step; intros [= <- <-]; lia. }
  destruct (sz <=? 0) eqn:Hsz.
  { unfold close. exec_unfold. simpl. repeat case_step; intros [= <- <-]; lia. }
  simpl. rewrite Hfd. simpl.
  intros [= <- <-] Hslot. split; [done|].
  exists key, fd. simpl. rewrite Hobj, Hmap, Hblk, Hfiles.
  apply Z.leb_gt in Hsz.
  repeat split; try done. rewrite Htail.
  destruct (shm_files w !! key); simpl; [done|]. by rewrite insert_insert_eq.
Qed.

Lemma lowest_free_fd_nonneg fds : 0 <= lowest_free_fd fds.
Proof.
  unfold lowest_free_fd.
  destruct (find _ _) as [x|] eqn:E; simpl; [|lia].
  apply find_some in E as [E _]. apply list_elem_of_In, elem_of_seqZ in E. lia.
Qed.

(** With a free slot and a willing system, an unregistered name gets the
    first free slot. *)
Lemma create_or_open_fresh os name sz w key :
  find_slot_by_name w name = -1 ->
  0 <= find_free_slot w ->
  ipc_name name = Some key ->
  os_shm_open_refused os = false ->
  os_ftruncate_refused os = false ->
  os_mmap_refused os = false ->
  0 < sz < 2 ^ 63 ->
  exists w', create_or_open os name sz w = Done (find_free_slot w) w'.
Proof.
  intros Hnone Hfree Hkey Ho Hf Hm Hsz.
  unfold create_or_open. exec_unfold. rewrite Hnone. simpl.
  apply Z.ltb_ge in Hfree. rewrite Hfree.
  unfold shm_open. rewrite Ho, Hkey.
  pose proof (lowest_free_fd_nonneg (open_fds w)) as Hfd.
  apply Z.ltb_ge in Hfd. rewrite Hfd.
  unfold ftruncate. rewrite Hf.
  destruct (Z.leb_spec (2 ^ 63) sz) as [|_]; [lia|].
  set (w1 := with_open_fds _ _).
  assert (Hfd1 : open_fds w1 !! lowest_free_fd (open_fds w) = Some key).
  { subst w1. destruct (shm_files w !! key); simpl; by rewrite lookup_insert_eq. }
  assert (Hfile : is_Some (shm_files w1 !! key)).
  { subst w1. destruct (shm_files w !! key) eqn:E; simpl; [by rewrite E|].
    by rewrite lookup_insert_eq. }
  destruct Hfile as [bs Hbs]. clearbody w1. rewrite Hfd1, Hbs. simpl.
  unfold mmap. rewrite Hm.
  destruct (Z.leb_spec sz 0) as [|_]; [lia|].
  simpl. rewrite Hfd1. simpl. eauto.
Qed.

(** C4, as the code has it: a consume on a name whose segment is missing
    never succeeds, but it goes through [create_or_open]: when a slot is
    free and the system calls go through, it creates the object, zero-filled
    and of the size of the envelope, registers it, and then fails to open
    the semaphore that the empty envelope names. *)
Theorem consume_missing_segment os name arr w :
  find_slot_by_name w ("/" ++ name) = -1 ->
  (forall key, ipc_name ("/" ++ name) = Some key -> shm_files w !! key = None) ->
  (exists e w',
     read_array_from_shared_memory os name (Some arr) w = Done (Err e) w')
  /\ (forall key,
        ipc_name ("/" ++ name) = Some key ->
        0 <= find_free_slot w ->
        os_shm_open_refused os = false ->
        os_ftruncate_refused os = false ->
        os_mmap_refused os = false ->
        exists w',
          read_array_from_shared_memory os name (Some arr) w
          = Done (Err SemOpenFailed) w'
          /\ shm_files w' !! key = Some (replicate 112 0)
          /\ find_slot_by_name w' ("/" ++ name) = find_free_slot w).
Proof.
  intros Hnone Hmissing.
  assert (Hcreated : forall slot w1,
    create_or_open os ("/" ++ name) sizeof_SharedMemoryData w = Done slot w1 ->
    0 <= slot ->
    exists key,
      ipc_name ("/" ++ name) = Some key
      /\ slot = find_free_slot w
      /\ read_array_from_shared_memory os name (Some arr) w
         = Done (Err SemOpenFailed) w1
      /\ shm_files w1 !! key = Some (replicate 112 0)
      /\ find_slot_by_name w1 ("/" ++ name) = find_free_slot w).
  { intros slot w1 Hrun Hslot.
    destruct (create_or_open_new _ _ _ _ _ _ Hnone Hrun Hslot)
      as (-> & key & fd & Hkey & Hobj & Hmap & Hfiles & _).
    pose proof (find_free_slot_range w Hslot) as Hrange.
    exists key. split; [done|]. split; [done|].
    rewrite (Hmissing key Hkey) in Hfiles. simpl in Hfiles.
    rewrite tail_of_nil in Hfiles.
    assert (Hfile : shm_files w1 !! key = Some (replicate 112 0)).
    { rewrite Hfiles, lookup_insert_eq. reflexivity. }
    assert (Hm : mapped w1 (next_block w) key (replicate 112 0)).
    { split; [|done]. by rewrite Hmap, lookup_insert_eq. }
    assert (Hpeek : peek_c_string w1 (Ptr (next_block w) 48) = Some ""%string).
    { unfold peek_c_string. rewrite (visible_mapped _ _ _ _ _ Hm). reflexivity. }
    split; [|split; [exact Hfile|]].
    - unfold read_array_from_shared_memory.
      unfold mbind at 1, exec_bind. rewrite Hrun.
      destruct (Z.ltb_spec (find_free_slot w) 0) as [|_]; [lia|].
      unfold mbind at 1, exec_bind, get_world.
      assert (Haddr : get_address w1 (find_free_slot w) = Ptr (next_block w) 0).
      { unfold get_address, valid_slot, slot_at.
        rewrite Hobj, lookup_insert_eq. simpl.
        destruct (Z.leb_spec 0 (find_free_slot w)) as [_|]; [|lia].
        destruct (Z.ltb_spec (find_free_slot w) (Z.of_nat MAX_SHM_OBJECTS))
          as [_|]; [done|lia]. }
      rewrite Haddr.
      change (ptr_add (Ptr (next_block w) 0) OFFSET_semaphore_name)
        with (Ptr (next_block w) 48).
      unfold mbind at 1, exec_bind, load_c_string, reading. rewrite Hpeek.
      unfold mbind, exec_bind, sem_open_existing.
      destruct (os_sem_open_refused os); reflexivity.
    - assert (Hk : find_slot_by_name w1 ("/" ++ name)
                   = Z.of_nat (Z.to_nat (find_free_slot w))).
      { apply (find_slot_by_name_insert w w1 _ _ _ Hnone Hobj); [|done|done].
        apply Nat2Z.inj_lt. rewrite Z2Nat.id by done. exact Hrange. }
      by rewrite Z2Nat.id in Hk. }
  split.
  - destruct (create_or_open_quiet os ("/" ++ name) sizeof_SharedMemoryData w)
      as (slot & w1 & Hrun & _).
    destruct (Z.ltb_spec slot 0) as [Hneg|Hpos].
    + exists OpenFailed, w1. unfold read_array_from_shared_memory.
      unfold mbind at 1, exec_bind. rewrite Hrun.
      apply Z.ltb_lt in Hneg. by rewrite Hneg.
    + destruct (Hcreated slot w1 Hrun Hpos) as (key & _ & _ & Hread & _).
      eauto.
  - intros key Hkey Hfree Ho Hf Hm.
    destruct (create_or_open_fresh os ("/" ++ name) sizeof_SharedMemoryData w key)
      as [w1 Hrun]; try done.
    destruct (Hcreated _ w1 Hrun Hfree) as (key' & Hkey' & _ & Hread & Hfile & Hfind).
    assert (key' = key) as -> by congruence. eauto.
Qed.

(** A consume of ["grid"] in a fresh process. *)
Lemma consume_missing_segment_witness :
  (exists e w',
     read_array_from_shared_memory os_ok "grid" (Some []) empty_world
     = Done (Err e) w')
  /\ (forall key,
        ipc_name ("/" ++ "grid") = Some key ->
        0 <= find_free_slot empty_world ->
        os_shm_open_refused os_ok = false ->
        os_ftruncate_refused os_ok = false ->
        os_mmap_refused os_ok = false ->
        exists w',
          read_array_from_shared_memory os_ok "grid" (Some []) empty_world
          = Done (Err SemOpenFailed) w'
          /\ shm_files w' !! key = Some (replicate 112 0)
          /\ find_slot_by_name w' ("/" ++ "grid") = find_free_slot empty_world).
Proof.
  apply (consume_missing_segment os_ok "grid" [] empty_world).
  - vm_compute. reflexivity.
  - intros key _. vm_compute. reflexivity.
Defined.

(** That consume leaves the object ["grid"] behind. *)
Lemma consume_missing_creates_nothing_counterexample :
  ~ consume_missing_creates_nothing os_ok "grid" [] empty_world.
Proof.
  intros (e & w' & Hrun & Hfiles & _).
  apply (f_equal final_world) in Hrun. simpl in Hrun. subst w'.
  apply (f_equal (fun m => m !! "grid")) in Hfiles.
  vm_compute in Hfiles. discriminate.
Qed.

(** *** Reading the shared memory *)

Lemma reading_Done {A} (f : World -> option A) w a w' :
  reading f w = Done a w' <-> f w = Some a /\ w' = w.
Proof.
  unfold reading. destruct (f w); split.
  - by intros [= <- <-].
  - by intros [[= <-] ->].
  - discriminate.
  - by intros [? _].
Qed.

Lemma load_Done p n w bs w' :
  load p n w = Done bs w' <-> peek w p n = Some bs /\ w' = w.
Proof. apply (reading_Done (fun w => peek w p n)). Qed.

Lemma load_c_string_Done p w s w' :
  load_c_string p w = Done s w' <-> peek_c_string w p = Some s /\ w' = w.
Proof. apply (reading_Done (fun w => peek_c_string w p)). Qed.

Lemma c_string_equals_Done p lit w r w' :
  c_string_equals p lit w = Done r w' <-> peek_strcmp w p lit = Some r /\ w' = w.
Proof. apply (reading_Done (fun w => peek_strcmp w p lit)). Qed.





Lemma get_address_same_memory w w' slot :
  same_memory w w' -> get_address w' slot = get_address w slot.
Proof.
  intros (Hobj & _). unfold get_address, valid_slot, slot_at. by rewrite Hobj.
Qed.


Lemma same_memory_refl w : same_memory w w.
Proof. by repeat split. Qed.

Lemma same_memory_trans w1 w2 w3 :
  same_memory w1 w2 -> same_memory w2 w3 -> same_memory w1 w3.
Proof.
  intros (H1 & H2 & H3 & H4) (H5 & H6 & H7 & H8). repeat split; congruence.
Qed.



Lemma find_slot_by_name_cases w name :
  find_slot_by_name w name = -1 \/ 0 <= find_slot_by_name w name.
Proof.
  unfold find_slot_by_name.
  destruct (first_index_range
              (fun i => slot_in_use (slot_at w i)
                        && bool_decide (slot_name (slot_at w i) = name))
              0 MAX_SHM_OBJECTS) as [E|[Hr _]]; [by left|right; lia].
Qed.

(** The slot [create_or_open] hands out is the one a search by name finds
    from then on. *)
Lemma create_or_open_finds os name sz w slot w' :
  create_or_open os name sz w = Done slot w' ->
  0 <= slot ->
  find_slot_by_name w' name = slot.
Proof.
  intros Hrun Hslot.
  destruct (find_slot_by_name_cases w name) as [Hnone|Hfound].
  - destruct (create_or_open_new _ _ _ _ _ _ Hnone Hrun Hslot)
      as (-> & key & fd & _ & Hobj & _).
    pose proof (find_free_slot_range w Hslot) as Hrange.
    assert (Hk : find_slot_by_name w' name = Z.of_nat (Z.to_nat (find_free_slot w))).
    { apply (find_slot_by_name_insert w w' _ _ _ Hnone Hobj); [|done|done].
      apply Nat2Z.inj_lt. rewrite Z2Nat.id by done. exact Hrange. }
    by rewrite Z2Nat.id in Hk.
  - rewrite (create_or_open_registered _ _ _ _ Hfound) in Hrun.
    by injection Hrun as <- <-.
Qed.

(** The semaphore steps leave the shared memory alone. *)
Lemma sem_timedwait_Done os sem w r w' :
  sem_timedwait os sem w = Done r w' ->
  (r = -1 /\ w' = w)
  \/ (r = 0 /\ os_sem_wait_interrupted os = false
      /\ exists v, semaphores w !! sem = Some v /\ (0 < v)%N
                   /\ w' = log (EvSemWait sem)
                             (with_semaphores (insert sem (v - 1)%N) w)).
Proof.
  unfold sem_timedwait. destruct (os_sem_wait_interrupted os);
    [intros [= <- <-]; by left|].
  destruct (semaphores w !! sem) as [v|]; [|intros [= <- <-]; by left].
  destruct (0 <? v)%N eqn:E; intros [= <- <-]; [right|by left].
  apply N.ltb_lt in E. eauto 10.
Qed.

Lemma sem_post_same_memory sem w : same_memory w (final_world (sem_post sem w)).
Proof.
  unfold sem_post. destruct (semaphores w !! sem) as [v|]; [|by repeat split].
  destruct (v <? SEM_VALUE_MAX)%N; by repeat split.
Qed.

Lemma sem_post_Done sem w : sem_post sem w = Done tt (final_world (sem_post sem w)).
Proof.
  unfold sem_post. destruct (semaphores w !! sem) as [v|]; [|done].
  by destruct (v <? SEM_VALUE_MAX)%N.
Qed.

(** After a wait and a post the semaphore is up again. *)
Lemma wait_post_raised sem v w :
  semaphores w !! sem = Some v ->
  (0 < v)%N ->
  let w' := final_world
              (sem_post sem (log (EvSemWait sem)
                               (with_semaphores (insert sem (v - 1)%N) w))) in
  (exists v', semaphores w' !! sem = Some v' /\ (0 < v')%N)
  /\ ((v <= SEM_VALUE_MAX)%N -> semaphores w' = semaphores w).
Proof.
  intros Hv Hpos. unfold sem_post. simpl. rewrite lookup_insert_eq.
  destruct (v - 1 <? SEM_VALUE_MAX)%N eqn:E; simpl.
  - rewrite lookup_insert_eq. split; [exists (v - 1 + 1)%N; split; [done|lia]|].
    intros _. rewrite insert_insert_eq.
    replace (v - 1 + 1)%N with v by lia. by apply insert_id.
  - rewrite lookup_insert_eq. apply N.ltb_ge in E.
    split; [exists (v - 1)%N; split; [done|]|].
    + unfold SEM_VALUE_MAX in E. lia.
    + intros Hmax. lia.
Qed.



(** After the publish the channel holds one unit. *)
Example published_world_signal :
  semaphores published_world !! "sem_grid2" = Some 1%N.
Proof. vm_compute. reflexivity. Qed.


(** *** Publishing *)

Lemma unsignalled_refl w : unsignalled w w.
Proof.
  split; [exists []; by rewrite app_nil_r|]. intros s v H. by rewrite H.
Qed.

Lemma unsignalled_trans w1 w2 w3 :
  unsignalled w1 w2 -> unsignalled w2 w3 -> unsignalled w1 w3.
Proof.
  intros [(e1 & Ht1 & Hp1) Hs1] [(e2 & Ht2 & Hp2) Hs2]. split.
  - exists (e1 ++ e2). rewrite Ht2, Ht1, app_assoc. split; [done|].
    rewrite forallb_app. by rewrite Hp1, Hp2.
  - intros s v H. specialize (Hs2 s v H).
    destruct (semaphores w2 !! s) as [v2|] eqn:E; simpl in Hs2.
    + specialize (Hs1 s v2 E). lia.
    + lia.
Qed.

(** A step that logs only stores and leaves the semaphores alone. *)
Lemma unsignalled_stores w w' evs :
  trace w' = trace w ++ evs ->
  forallb (fun e => negb (is_post e)) evs = true ->
  semaphores w' = semaphores w ->
  unsignalled w w'.
Proof.
  intros Ht Hp Hs. split; [eauto|]. intros s v H. rewrite <- Hs, H. simpl. lia.
Qed.

(** What a store does when it goes through; when it traps, the world is
    as it was. *)
Lemma store_cases p data w :
  match store p data w with
  | Done _ w' =>
      exists b off key len,
        p = Ptr b off
        /\ mappings w !! b = Some (key, len)
        /\ trace w' = trace w ++ [EvStore key off data]
        /\ semaphores w' = semaphores w
        /\ mappings w' = mappings w
        /\ shm_objects w' = shm_objects w
  | Trap w' => w' = w
  end.
Proof.
  unfold store, visible, pages_of. destruct p as [| |b off]; simpl; try done.
  destruct (mappings w !! b) as [[key len]|] eqn:E; simpl; [|done].
  destruct (shm_files w !! key) as [whole|] eqn:E2; simpl; [|done].
  destruct (store_bytes _ off data); [|done].
  rewrite E2. exists b, off, key, len. by destruct (_ <=? _).
Qed.

Lemma store_unsignalled p data w : unsignalled w (final_world (store p data w)).
Proof.
  pose proof (store_cases p data w) as H.
  destruct (store p data w) as [[] w'|w']; simpl.
  - destruct H as (b & off & key & len & _ & _ & Ht & Hs & _).
    by apply (unsignalled_stores _ _ _ Ht).
  - subst. apply unsignalled_refl.
Qed.

Lemma create_or_open_unsignalled os name sz w :
  unsignalled w (final_world (create_or_open os name sz w)).
Proof.
  destruct (create_or_open_quiet os name sz w) as (slot & w' & -> & Ht & Hs).
  simpl. apply (unsignalled_stores _ _ []); [by rewrite app_nil_r|done|done].
Qed.

Lemma sem_open_creat_unsignalled os name w :
  unsignalled w (final_world (sem_open_creat os name w)).
Proof.
  unfold sem_open_creat. destruct (os_sem_open_refused os);
    [apply unsignalled_refl|].
  destruct (ipc_name name) as [key|]; [|apply unsignalled_refl].
  destruct (semaphores w !! key) as [v|] eqn:E; [apply unsignalled_refl|].
  simpl. split; [exists []; by rewrite app_nil_r|].
  intros s v. simpl. destruct (decide (s = key)) as [->|Hne].
  - rewrite lookup_insert_eq. intros [= <-]. lia.
  - rewrite lookup_insert_ne by done. intros H. rewrite H. simpl. lia.
Qed.

Lemma sem_open_creat_Done os name w r w' :
  sem_open_creat os name w = Done r w' ->
  mappings w' = mappings w /\ shm_objects w' = shm_objects w
  /\ trace w' = trace w
  /\ forall sem, r = Some sem -> is_Some (semaphores w' !! sem).
Proof.
  unfold sem_open_creat. destruct (os_sem_open_refused os);
    [by intros [= <- <-]|].
  destruct (ipc_name name) as [key|]; [|by intros [= <- <-]].
  destruct (semaphores w !! key) as [v|] eqn:E; intros [= <- <-].
  - repeat split; try done. intros sem [= <-]. by rewrite E.
  - repeat split; try done. intros sem [= <-]. simpl.
    by rewrite lookup_insert_eq.
Qed.

(** The copy loop of the publish stores the elements in order and does
    nothing else. *)
Lemma copy_in_cases b base key len arr n : forall i w,
  mappings w !! b = Some (key, len) ->
  match copy_in (Ptr b (base + sizeof_SharedMemoryData)) arr i n w with
  | Done _ w' =>
      trace w' = trace w ++ payload_stores key base (take n (drop i arr)) i
      /\ semaphores w' = semaphores w
      /\ length (take n (drop i arr)) = n
  | Trap w' => unsignalled w w'
  end.
Proof.
  induction n as [|n IH]; intros i w Hmap; simpl.
  - by rewrite app_nil_r.
  - destruct (arr !! i) as [v|] eqn:Hv; [|apply unsignalled_refl].
    rewrite (drop_S _ _ _ Hv). simpl.
    unfold mbind, exec_bind.
    pose proof (store_cases (Ptr b (base + sizeof_SharedMemoryData
                                    + sizeof_double * Z.of_nat i))
                  (le_bytes 8 v) w) as Hst.
    pose proof (store_unsignalled (Ptr b (base + sizeof_SharedMemoryData
                                          + sizeof_double * Z.of_nat i))
                  (le_bytes 8 v) w) as Hun.
    destruct (store _ _ w) as [[] w1|w1]; simpl in Hun; [|done].
    destruct Hst as (b' & off & key' & len' & [= <- <-] & Hm & Ht & Hs & Hm1 & _).
    rewrite Hmap in Hm. injection Hm as <- <-.
    specialize (IH (S i) w1). rewrite Hm1 in IH. specialize (IH Hmap).
    destruct (copy_in _ arr (S i) n w1) as [[] w2|w2].
    + destruct IH as (Ht2 & Hs2 & Hl2). rewrite Ht2, Ht, <- app_assoc. simpl.
      split; [done|]. split; [congruence|by rewrite Hl2].
    + by apply (unsignalled_trans _ w1).
Qed.

Lemma get_address_objects w w' slot :
  shm_objects w' = shm_objects w -> get_address w' slot = get_address w slot.
Proof. intros H. unfold get_address, valid_slot, slot_at. by rewrite H. Qed.

Lemma sem_post_cases sem w :
  (exists v, semaphores w !! sem = Some v
             /\ sem_post sem w
                = Done tt (log (EvSemPost sem)
                             (with_semaphores (insert sem (v + 1)%N) w)))
  \/ sem_post sem w = Done tt w.
Proof.
  unfold sem_post. destruct (semaphores w !! sem) as [v|]; [|by right].
  destruct (v <? SEM_VALUE_MAX)%N; [left; eauto|by right].
Qed.

(** The order of a publish: it posts the semaphore, if at all, as its last
    step, after the four stores of the envelope and the stores of every
    element; a run that fails or traps has posted nothing and has raised no
    semaphore.  Whether the stores reached the object is another matter: a
    store past the end of the object lands in the rest of its last page. *)
Lemma publish_signals_last os name array w :
  match write_array_to_shared_memory os name array w with
  | Done (Ok _) w' =>
      exists arr obj base sem w_written,
        array = Some arr
        /\ unsignalled w w_written
        /\ trace w_written = trace w ++ publish_stores obj base name arr
        /\ (w' = w_written
            \/ exists v,
                 semaphores w_written !! sem = Some v
                 /\ w' = log (EvSemPost sem)
                           (with_semaphores (insert sem (v + 1)%N) w_written))
  | Done (Err _) w' => unsignalled w w'
  | Trap w' => unsignalled w w'
  end.
Proof.
  destruct array as [arr|]; [|apply unsignalled_refl].
  unfold write_array_to_shared_memory.
  set (data_size := to_size_t (Z.of_nat (length arr) * sizeof_double)).
  rewrite exec_bind_unfold.
  pose proof (create_or_open_unsignalled os ("/" ++ name)
                (to_size_t (sizeof_SharedMemoryData + data_size)) w) as Hun0.
  destruct (create_or_open_quiet os ("/" ++ name)
              (to_size_t (sizeof_SharedMemoryData + data_size)) w)
    as (slot & w0 & Hco & Ht0 & _).
  rewrite Hco in *. simpl in Hun0.
  destruct (slot <? 0); [exact Hun0|].
  rewrite exec_bind_get.
  destruct (get_address w0 slot) as [| |b base] eqn:Hp; [exact Hun0|exact Hun0|].
  (* the envelope *)
  rewrite exec_bind_unfold.
  pose proof (store_cases (ptr_add (Ptr b base) OFFSET_size) (le_bytes 8 data_size) w0) as Hst1.
  pose proof (store_unsignalled (ptr_add (Ptr b base) OFFSET_size) (le_bytes 8 data_size) w0) as Hun1.
  destruct (store _ _ w0) as [[] w1|w1]; simpl in Hun1;
    [|by apply (unsignalled_trans _ w0)].
  destruct Hst1 as (? & ? & key & len & [= <- <-] & Hm0 & Ht1 & _ & Hm1 & Ho1).
  rewrite exec_bind_unfold.
  pose proof (store_cases (ptr_add (Ptr b base) OFFSET_elements)
                (le_bytes 8 (Z.of_nat (length arr))) w1) as Hst2.
  pose proof (store_unsignalled (ptr_add (Ptr b base) OFFSET_elements)
                (le_bytes 8 (Z.of_nat (length arr))) w1) as Hun2.
  destruct (store _ _ w1) as [[] w2|w2]; simpl in Hun2;
    [|by apply (unsignalled_trans _ w0), (unsignalled_trans _ w1)].
  destruct Hst2 as (? & ? & key2 & len2 & [= <- <-] & Hm1' & Ht2 & _ & Hm2 & Ho2).
  rewrite exec_bind_unfold.
  pose proof (store_cases (ptr_add (Ptr b base) OFFSET_data_type)
                (c_str "double_array") w2) as Hst3.
  pose proof (store_unsignalled (ptr_add (Ptr b base) OFFSET_data_type)
                (c_str "double_array") w2) as Hun3.
  destruct (store _ _ w2) as [[] w3|w3]; simpl in Hun3;
    [|by apply (unsignalled_trans _ w0), (unsignalled_trans _ w1),
               (unsignalled_trans _ w2)].
  destruct Hst3 as (? & ? & key3 & len3 & [= <- <-] & Hm2' & Ht3 & _ & Hm3 & Ho3).
  rewrite exec_bind_unfold.
  pose proof (store_cases (ptr_add (Ptr b base) OFFSET_semaphore_name)
                (c_str ("/sem_" ++ name)) w3) as Hst4.
  pose proof (store_unsignalled (ptr_add (Ptr b base) OFFSET_semaphore_name)
                (c_str ("/sem_" ++ name)) w3) as Hun4.
  destruct (store _ _ w3) as [[] w4|w4]; simpl in Hun4;
    [|by apply (unsignalled_trans _ w0), (unsignalled_trans _ w1),
               (unsignalled_trans _ w2), (unsignalled_trans _ w3)].
  destruct Hst4 as (? & ? & key4 & len4 & [= <- <-] & Hm3' & Ht4 & _ & Hm4 & Ho4).
  assert (Hun04 : unsignalled w w4).
  { by apply (unsignalled_trans _ w0), (unsignalled_trans _ w1),
             (unsignalled_trans _ w2), (unsignalled_trans _ w3). }
  assert (key2 = key /\ key3 = key /\ key4 = key) as (-> & -> & ->).
  { rewrite Hm1 in Hm1'. rewrite Hm2, Hm1 in Hm2'. rewrite Hm3, Hm2, Hm1 in Hm3'.
    repeat split; congruence. }
  (* the semaphore *)
  rewrite exec_bind_unfold.
  pose proof (sem_open_creat_unsignalled os ("/sem_" ++ name) w4) as Hun5.
  destruct (sem_open_creat os ("/sem_" ++ name) w4) as [osem w5|w5] eqn:Hso;
    simpl in Hun5; [|by apply (unsignalled_trans _ w4)].
  apply sem_open_creat_Done in Hso as (Hm5 & Ho5 & Ht5 & _).
  assert (Hun05 : unsignalled w w5) by (by apply (unsignalled_trans _ w4)).
  destruct osem as [sem|]; [|exact Hun05].
  rewrite exec_bind_get.
  rewrite (get_address_objects w0 w5) by congruence. rewrite Hp.
  (* the payload *)
  rewrite exec_bind_unfold. rewrite Nat2Z.id.
  pose proof (copy_in_cases b base key len arr (length arr) 0 w5) as Hcp.
  simpl ptr_add.
  destruct (copy_in _ arr 0 (length arr) w5) as [[] w6|w6];
    [|apply (unsignalled_trans _ w5); [done|apply Hcp; congruence]].
  destruct Hcp as (Ht6 & Hs6 & _); [congruence|].
  rewrite drop_0, firstn_all in Ht6.
  assert (Htrace : trace w6 = trace w ++ publish_stores key base name arr).
  { rewrite Ht6, Ht5, Ht4, Ht3, Ht2, Ht1, Ht0. unfold publish_stores.
    rewrite <- !app_assoc. reflexivity. }
  assert (Hun06 : unsignalled w w6).
  { apply (unsignalled_trans _ w5); [done|].
    apply (unsignalled_stores _ _ _ Ht6); [|done].
    clear. generalize 0%nat. induction arr as [|v vs IH]; intros i; [done|].
    simpl. apply IH. }
  rewrite exec_bind_unfold.
  destruct (sem_post_cases sem w6) as [(v & Hv & ->) | ->]; simpl;
    exists arr, key, base, sem, w6; eauto 10.
Qed.

(** C2 on a registered segment that is too small: the publish of four
    elements through the mapping of the 136-byte object returns [true] and
    raises the semaphore from 1 to 2 as its last step; the envelope it
    leaves announces four elements, but the object still holds 136 bytes,
    the envelope and three elements: the fourth element is not in it. *)
Theorem publish_signals_truncated_payload :
  exists w' m,
    write_array_to_shared_memory os_ok "grid2" (Some larger_array) published_world
    = Done (Ok tt) w'
    /\ semaphores published_world !! "sem_grid2" = Some 1%N
    /\ semaphores w' !! "sem_grid2" = Some 2%N
    /\ last (trace w') = Some (EvSemPost "sem_grid2")
    /\ shm_files w' !! "grid2" = Some m
    /\ length m = 136%nat
    /\ holds m OFFSET_elements (le_bytes 8 4)
    /\ ~ holds m (sizeof_SharedMemoryData + 3 * sizeof_double)
          (le_bytes 8 0x401C000000000000).
Proof.
  eexists _, _.
  split; [vm_compute; reflexivity|].
  split; [vm_compute; reflexivity|].
  split; [vm_compute; reflexivity|].
  split; [vm_compute; reflexivity|].
  split; [vm_compute; reflexivity|].
  split; [vm_compute; reflexivity|].
  split; [vm_compute; reflexivity|].
  intros H. vm_compute in H. discriminate.
Qed.

(** C3 on a registered segment that is too small: [create_or_open] hands
    out the 136-byte slot for a request of 144 bytes and changes nothing;
    the publish then reports no failure: it returns [true], with the table,
    the mapping and the length of the object as they were, and its store of
    the fourth element, at offset 136, runs past the end of the object into
    the rest of the page. *)
Theorem publish_reuses_smaller_segment :
  slot_size (slot_at published_world 0) = 136
  /\ to_size_t (sizeof_SharedMemoryData
                + to_size_t (Z.of_nat (length larger_array) * sizeof_double)) = 144
  /\ create_or_open os_ok "/grid2" 144 published_world = Done 0 published_world
  /\ exists w',
       write_array_to_shared_memory os_ok "grid2" (Some larger_array)
         published_world = Done (Ok tt) w'
       /\ shm_objects w' = shm_objects published_world
       /\ mappings w' = mappings published_world
       /\ length (default [] (shm_files w' !! "grid2")) = 136%nat
       /\ trace w'
          = trace published_world
            ++ publish_stores "grid2" 0 "grid2" larger_array
            ++ [EvSemPost "sem_grid2"]
       /\ take 8 (default [] (page_tails w' !! "grid2"))
          = le_bytes 8 0x401C000000000000.
Proof.
  split; [vm_compute; reflexivity|].
  split; [vm_compute; reflexivity|].
  split; [vm_compute; reflexivity|].
  eexists.
  split; [vm_compute; reflexivity|].
  split; [vm_compute; reflexivity|].
  split; [vm_compute; reflexivity|].
  split; [vm_compute; reflexivity|].
  split; vm_compute; reflexivity.
Qed.

(** The trace of the sample publish. *)
Example published_world_trace :
  trace published_world
  = publish_stores "grid2" 0 "grid2" sample_array ++ [EvSemPost "sem_grid2"].
Proof. vm_compute. reflexivity. Qed.

(** *** The table *)

Lemma first_index_spec p i n (k : nat) :
  first_index p i n = Z.of_nat k
  <-> (i <= k < i + n)%nat /\ p k = true
      /\ forall j, (i <= j < k)%nat -> p j = false.
Proof.
  revert i. induction n as [|n IH]; intros i; simpl.
  - split; [lia|]. intros [? _]. lia.
  - destruct (p i) eqn:E.
    + split.
      * intros H. apply Nat2Z.inj in H as <-. split; [lia|]. split; [done|]. lia.
      * intros (Hr & Hp & Hb). f_equal.
        destruct (decide (k = i)) as [->|]; [done|].
        rewrite Hb in E by lia. done.
    + rewrite IH. split.
      * intros (Hr & Hp & Hb). split; [lia|]. split; [done|].
        intros j Hj. destruct (decide (j = i)) as [->|]; [done|]. apply Hb. lia.
      * intros (Hr & Hp & Hb).
        assert (k <> i) by (intros ->; congruence).
        split; [lia|]. split; [done|]. intros j Hj. apply Hb. lia.
Qed.

Lemma first_index_none_iff p i n :
  first_index p i n = -1 <-> forall j, (i <= j < i + n)%nat -> p j = false.
Proof.
  split; [apply first_index_none|].
  intros H. destruct (first_index_range p i n) as [E|[Hr Hp]]; [done|].
  rewrite H in Hp by lia. done.
Qed.

(** X15: the two searches of the table return the first entry that fits:
    [find_free_slot] the lowest index that is not in use,
    [find_slot_by_name] the lowest index in use under the name, and each
    returns [-1] exactly when no entry fits. *)
Theorem table_search_first w name :
  (forall k : nat,
     find_free_slot w = Z.of_nat k
     <-> (k < MAX_SHM_OBJECTS)%nat
         /\ slot_in_use (slot_at w k) = false
         /\ forall j, (j < k)%nat -> slot_in_use (slot_at w j) = true)
  /\ (find_free_slot w = -1
      <-> forall j, (j < MAX_SHM_OBJECTS)%nat -> slot_in_use (slot_at w j) = true)
  /\ (forall k : nat,
        find_slot_by_name w name = Z.of_nat k
        <-> (k < MAX_SHM_OBJECTS)%nat
            /\ slot_in_use (slot_at w k) = true
            /\ slot_name (slot_at w k) = name
            /\ forall j, (j < k)%nat ->
                 slot_in_use (slot_at w j) = true ->
                 slot_name (slot_at w j) <> name)
  /\ (find_slot_by_name w name = -1
      <-> forall j, (j < MAX_SHM_OBJECTS)%nat ->
            slot_in_use (slot_at w j) = true ->
            slot_name (slot_at w j) <> name).
Proof.
  unfold find_free_slot, find_slot_by_name.
  split; [|split; [|split]].
  - intros k. rewrite first_index_spec. rewrite Nat.add_0_l.
    rewrite negb_true_iff. split.
    + intros (Hr & Hp & Hb). split; [lia|]. split; [done|].
      intros j Hj. specialize (Hb j ltac:(lia)). by apply negb_false_iff in Hb.
    + intros (Hr & Hp & Hb). split; [lia|]. split; [done|].
      intros j Hj. rewrite Hb by lia. done.
  - rewrite first_index_none_iff. rewrite Nat.add_0_l. split.
    + intros H j Hj. specialize (H j ltac:(lia)). by apply negb_false_iff in H.
    + intros H j Hj. rewrite H by lia. done.
  - intros k. rewrite first_index_spec. rewrite Nat.add_0_l.
    rewrite andb_true_iff, bool_decide_eq_true. split.
    + intros (Hr & [Hu Hn] & Hb). split; [lia|]. split; [done|]. split; [done|].
      intros j Hj Hu' Hn'. specialize (Hb j ltac:(lia)).
      rewrite Hu', bool_decide_eq_true_2 in Hb by done. done.
    + intros (Hr & Hu & Hn & Hb). split; [lia|]. split; [done|].
      intros j Hj. destruct (slot_in_use (slot_at w j)) eqn:E; [|done].
      simpl. apply bool_decide_eq_false. apply Hb; [lia|done].
  - rewrite first_index_none_iff. rewrite Nat.add_0_l. split.
    + intros H j Hj Hu Hn. specialize (H j ltac:(lia)).
      rewrite Hu, bool_decide_eq_true_2 in H by done. done.
    + intros H j Hj. destruct (slot_in_use (slot_at w j)) eqn:E; [|done].
      simpl. apply bool_decide_eq_false. apply H; [lia|done].
Qed.

(** X16: when every entry of the table is in use under another name,
    [create_or_open] returns [-1] and opens, creates and maps nothing. *)
Theorem create_or_open_table_full os name sz w :
  (forall i, (i < MAX_SHM_OBJECTS)%nat ->
             slot_in_use (slot_at w i) = true
             /\ slot_name (slot_at w i) <> name) ->
  create_or_open os name sz w = Done (-1) w.
Proof.
  intros H. unfold create_or_open. rewrite exec_bind_get.
  assert (Hname : find_slot_by_name w name = -1).
  { apply first_index_none_iff. intros j Hj.
    destruct (H j ltac:(lia)) as [-> Hn]. simpl. by apply bool_decide_eq_false. }
  assert (Hfree : find_free_slot w = -1).
  { apply first_index_none_iff. intros j Hj.
    destruct (H j ltac:(lia)) as [-> _]. done. }
  by rewrite Hname, Hfree.
Qed.

(** A further name in the process whose table is full. *)
Lemma create_or_open_table_full_witness :
  create_or_open os_ok "/grid" 136 full_world = Done (-1) full_world.
Proof.
  apply (create_or_open_table_full os_ok "/grid" 136 full_world).
  intros i Hi.
  do 100 (destruct i as [|i];
          [split; [vm_compute; reflexivity|vm_compute; discriminate]|]).
  unfold MAX_SHM_OBJECTS in Hi. lia.
Defined.

(** *** Addresses *)

Lemma get_address_found w name :
  0 <= find_slot_by_name w name ->
  get_address w (find_slot_by_name w name)
  = slot_addr (slot_at w (Z.to_nat (find_slot_by_name w name))).
Proof.
  intros H. unfold get_address.
  by rewrite (proj1 (find_slot_by_name_valid w name H)).
Qed.

(** The two overloads of [get_address] agree: the address found by name
    is the address of the slot the search by name returns, and the null
    pointer when the name is not in the table.  After a successful
    [create_or_open] both give the address of the slot, which for a name
    that was not in the table is the start of the new mapping. *)
Lemma get_address_overloads_agree os name sz w :
  get_address_by_name w name = get_address w (find_slot_by_name w name)
  /\ (find_slot_by_name w name = -1 -> get_address_by_name w name = NullPtr)
  /\ forall slot w',
       create_or_open os name sz w = Done slot w' ->
       0 <= slot ->
       get_address_by_name w' name = get_address w' slot
       /\ (find_slot_by_name w name = -1 ->
           get_address w' slot = Ptr (next_block w) 0).
Proof.
  assert (Hagree : forall w0,
    get_address_by_name w0 name = get_address w0 (find_slot_by_name w0 name)).
  { intros w0. unfold get_address_by_name.
    destruct (find_slot_by_name_cases w0 name) as [E|E].
    - rewrite E. reflexivity.
    - rewrite get_address_found by done.
      destruct (Z.ltb_spec (find_slot_by_name w0 name) 0); [lia|done]. }
  split; [apply Hagree|]. split.
  - intros E. unfold get_address_by_name. by rewrite E.
  - intros slot w' Hrun Hslot.
    pose proof (create_or_open_finds _ _ _ _ _ _ Hrun Hslot) as Hfind.
    rewrite Hagree, Hfind. split; [done|]. intros Hnone.
    destruct (create_or_open_new _ _ _ _ _ _ Hnone Hrun Hslot)
      as (-> & key & fd & _ & Hobj & _).
    pose proof (find_free_slot_range w Hslot) as Hrange.
    unfold get_address, valid_slot, slot_at.
    rewrite Hobj, lookup_insert_eq. simpl.
    destruct (Z.leb_spec 0 (find_free_slot w)); [|lia].
    destruct (Z.ltb_spec (find_free_slot w) (Z.of_nat MAX_SHM_OBJECTS)); [done|lia].
Qed.

(** *** Closing a slot *)

Lemma valid_slot_range w slot :
  valid_slot w slot = true ->
  0 <= slot < Z.of_nat MAX_SHM_OBJECTS
  /\ slot_in_use (slot_at w (Z.to_nat slot)) = true.
Proof.
  unfold valid_slot. rewrite !andb_true_iff, Z.leb_le, Z.ltb_lt. tauto.
Qed.

(** What [close] does to the world. *)
Lemma close_Done w slot :
  close slot w
  = Done tt
      (if valid_slot w slot
       then
         let s := slot_at w (Z.to_nat slot) in
         with_shm_objects
           (insert (Z.to_nat slot)
              (mkSlot (slot_name s) (slot_addr s) (slot_size s) (slot_fd s) false))
           (with_open_fds (delete (slot_fd s))
              (final_world (munmap (slot_addr s) (slot_size s) w)))
       else w).
Proof.
  unfold close. rewrite exec_bind_get.
  destruct (valid_slot w slot); [|reflexivity]. simpl.
  unfold munmap, close_fd, modify, mbind, exec_bind.
  destruct (slot_addr _) as [| |b off]; try reflexivity.
  destruct off; reflexivity.
Qed.

Lemma close_run w slot : close slot w = Done tt (final_world (close slot w)).
Proof. by rewrite close_Done. Qed.

Lemma munmap_rest addr len w :
  shm_objects (final_world (munmap addr len w)) = shm_objects w
  /\ open_fds (final_world (munmap addr len w)) = open_fds w
  /\ shm_files (final_world (munmap addr len w)) = shm_files w
  /\ semaphores (final_world (munmap addr len w)) = semaphores w
  /\ trace (final_world (munmap addr len w)) = trace w.
Proof.
  unfold munmap. destruct addr as [| |b off]; try done. by destruct off.
Qed.

Lemma close_objects w slot :
  shm_objects (final_world (close slot w)) = shm_objects w
  \/ exists s,
       valid_slot w slot = true
       /\ slot_in_use s = false
       /\ shm_objects (final_world (close slot w))
          = <[Z.to_nat slot := s]> (shm_objects w).
Proof.
  rewrite close_Done. simpl.
  destruct (valid_slot w slot) eqn:E; [right|by left].
  set (s := slot_at w (Z.to_nat slot)).
  exists (mkSlot (slot_name s) (slot_addr s) (slot_size s) (slot_fd s) false).
  split; [done|]. split; [done|]. simpl.
  by rewrite (proj1 (munmap_rest _ _ _)).
Qed.

(** X17: closing a slot that is in use unmaps and closes what the slot
    holds and frees the slot: its address is then the null pointer, a
    second [close] does nothing, the other slots and the shared-memory
    objects themselves are untouched, and, the names of the table being
    distinct, the name is no longer found. *)
Theorem close_releases w slot :
  valid_slot w slot = true ->
  distinct_names w ->
  exists w',
    close slot w = Done tt w'
    /\ get_address w' slot = NullPtr
    /\ find_slot_by_name w' (slot_name (slot_at w (Z.to_nat slot))) = -1
    /\ get_address_by_name w' (slot_name (slot_at w (Z.to_nat slot))) = NullPtr
    /\ open_fds w' = delete (slot_fd (slot_at w (Z.to_nat slot))) (open_fds w)
    /\ (forall b, slot_addr (slot_at w (Z.to_nat slot)) = Ptr b 0 ->
                  mappings w' = delete b (mappings w))
    /\ shm_files w' = shm_files w
    /\ (forall i, i <> Z.to_nat slot -> slot_at w' i = slot_at w i)
    /\ close slot w' = Done tt w'.
Proof.
  intros Hvalid Hdist.
  destruct (valid_slot_range _ _ Hvalid) as [Hrange Huse].
  rewrite close_Done, Hvalid. eexists. split; [reflexivity|].
  set (s := slot_at w (Z.to_nat slot)).
  set (w' := with_shm_objects _ _).
  assert (Hobj : shm_objects w'
                 = <[Z.to_nat slot := mkSlot (slot_name s) (slot_addr s)
                                        (slot_size s) (slot_fd s) false]>
                     (shm_objects w)).
  { subst w'. simpl. by rewrite (proj1 (munmap_rest _ _ _)). }
  assert (Hsame : forall i, i <> Z.to_nat slot -> slot_at w' i = slot_at w i).
  { intros i Hi. unfold slot_at. rewrite Hobj, lookup_insert_ne by done. done. }
  assert (Hat : slot_in_use (slot_at w' (Z.to_nat slot)) = false).
  { unfold slot_at. rewrite Hobj, lookup_insert_eq. done. }
  assert (Hinvalid : valid_slot w' slot = false).
  { unfold valid_slot. rewrite Hat. by rewrite andb_false_r. }
  split; [unfold get_address; by rewrite Hinvalid|].
  assert (Hgone : find_slot_by_name w' (slot_name s) = -1).
  { apply first_index_none_iff. intros j Hj.
    destruct (decide (j = Z.to_nat slot)) as [->|Hne]; [by rewrite Hat|].
    rewrite Hsame by done.
    destruct (slot_in_use (slot_at w j)) eqn:Hu; [|done]. simpl.
    apply bool_decide_eq_false. intros Hn. apply Hne.
    apply Hdist; [unfold MAX_SHM_OBJECTS in *; lia|lia|done|done|done]. }
  split; [exact Hgone|].
  split; [unfold get_address_by_name; by rewrite Hgone|].
  destruct (munmap_rest (slot_addr s) (slot_size s) w) as (_ & Hfds & Hfiles & _).
  split; [subst w'; simpl; by rewrite Hfds|].
  split.
  { intros b Hb. subst w'. simpl. fold s in Hb. rewrite Hb. reflexivity. }
  split; [subst w'; simpl; by rewrite Hfiles|].
  split; [exact Hsame|].
  rewrite close_Done, Hinvalid. reflexivity.
Qed.

(** *** What a run preserves *)

Lemma same_table_refl w : same_table w w.
Proof. by split. Qed.

Lemma same_table_trans w1 w2 w3 :
  same_table w1 w2 -> same_table w2 w3 -> same_table w1 w3.
Proof. intros [H1 H2] [H3 H4]. split; congruence. Qed.

Lemma same_memory_table w w' : same_memory w w' -> same_table w w'.
Proof. intros (H1 & H2 & _). by split. Qed.

Lemma reading_same {A} (f : World -> option A) w :
  final_world (reading f w) = w.
Proof. unfold reading. by destruct (f w). Qed.

Lemma reading_run {A} (f : World -> option A) w a w' :
  reading f w = Done a w' -> w' = w.
Proof. intros H. by apply reading_Done in H as [_ ->]. Qed.

Lemma store_same_table p data w : same_table w (final_world (store p data w)).
Proof.
  pose proof (store_cases p data w) as H.
  destruct (store p data w) as [[] w'|w']; simpl.
  - destruct H as (b & off & key & len & _ & _ & _ & _ & Hm & Ho). by split.
  - subst. apply same_table_refl.
Qed.

Lemma copy_in_same_table p arr n : forall i w,
  same_table w (final_world (copy_in p arr i n w)).
Proof.
  induction n as [|n IH]; intros i w; simpl; [apply same_table_refl|].
  destruct (arr !! i) as [v|]; [|apply same_table_refl].
  apply bind_preserves; [apply same_table_trans|apply store_same_table|].
  intros [] w' _. apply IH.
Qed.

Lemma copy_out_same p n : forall a i w,
  final_world (copy_out p a i n w) = w.
Proof.
  induction n as [|n IH]; intros a i w; simpl; [done|].
  rewrite final_world_bind. unfold load.
  destruct (reading _ w) as [bs w'|w'] eqn:E.
  - apply reading_run in E as ->. apply IH.
  - pose proof (reading_same (fun w0 => peek w0 (ptr_add p (sizeof_double * Z.of_nat i)) sizeof_double) w) as H.
    by rewrite E in H.
Qed.

Lemma sem_open_creat_same_memory os name w :
  same_memory w (final_world (sem_open_creat os name w)).
Proof.
  unfold sem_open_creat. repeat case_match; by repeat split.
Qed.

Lemma sem_open_existing_same os name w :
  final_world (sem_open_existing os name w) = w.
Proof. unfold sem_open_existing. by repeat case_match. Qed.

Lemma sem_timedwait_same_memory os sem w :
  same_memory w (final_world (sem_timedwait os sem w)).
Proof.
  unfold sem_timedwait. repeat case_match; by repeat split.
Qed.

(** A publish changes the table and the mappings only through its call of
    [create_or_open]. *)
Lemma write_array_same_table os name arr w :
  same_table
    (final_world
       (create_or_open os ("/" ++ name)
          (to_size_t (sizeof_SharedMemoryData
                      + to_size_t (Z.of_nat (length arr) * sizeof_double))) w))
    (final_world (write_array_to_shared_memory os name (Some arr) w)).
Proof.
  unfold write_array_to_shared_memory.
  rewrite final_world_bind.
  destruct (create_or_open_quiet os ("/" ++ name)
              (to_size_t (sizeof_SharedMemoryData
                          + to_size_t (Z.of_nat (length arr) * sizeof_double))) w)
    as (slot & w0 & -> & _). simpl.
  destruct (slot <? 0); [apply same_table_refl|].
  rewrite exec_bind_get.
  apply bind_preserves; [apply same_table_trans|apply store_same_table|].
  intros [] w1 _.
  apply bind_preserves; [apply same_table_trans|apply store_same_table|].
  intros [] w2 _.
  apply bind_preserves; [apply same_table_trans|apply store_same_table|].
  intros [] w3 _.
  apply bind_preserves; [apply same_table_trans|apply store_same_table|].
  intros [] w4 _.
  apply bind_preserves;
    [apply same_table_trans
    |apply same_memory_table, sem_open_creat_same_memory|].
  intros [sem|] w5 _; [|apply same_table_refl].
  rewrite exec_bind_get.
  apply bind_preserves; [apply same_table_trans|apply copy_in_same_table|].
  intros [] w6 _.
  apply bind_preserves;
    [apply same_table_trans|apply same_memory_table, sem_post_same_memory|].
  intros [] w7 _. apply same_table_refl.
Qed.

(** A consume changes the table, the mappings and the shared-memory
    objects only through its call of [create_or_open]. *)
Lemma read_array_same_memory os name arr w :
  same_memory
    (final_world (create_or_open os ("/" ++ name) sizeof_SharedMemoryData w))
    (final_world (read_array_from_shared_memory os name (Some arr) w)).
Proof.
  unfold read_array_from_shared_memory.
  rewrite final_world_bind.
  destruct (create_or_open_quiet os ("/" ++ name) sizeof_SharedMemoryData w)
    as (slot & w0 & -> & _). simpl.
  destruct (slot <? 0); [apply same_memory_refl|].
  rewrite exec_bind_get.
  apply bind_preserves; [apply same_memory_trans| |].
  { unfold load_c_string. rewrite reading_same. apply same_memory_refl. }
  intros sem_name w1 _.
  apply bind_preserves; [apply same_memory_trans| |].
  { rewrite sem_open_existing_same. apply same_memory_refl. }
  intros [sem|] w2 _; [|apply same_memory_refl].
  apply bind_preserves;
    [apply same_memory_trans|apply sem_timedwait_same_memory|].
  intros wt w3 _.
  destruct (wt <? 0); [apply same_memory_refl|].
  apply bind_preserves; [apply same_memory_trans| |].
  { unfold c_string_equals. rewrite reading_same. apply same_memory_refl. }
  intros same w4 _.
  destruct same; simpl.
  - apply bind_preserves; [apply same_memory_trans| |].
    { unfold load. rewrite reading_same. apply same_memory_refl. }
    intros eb w5 _. rewrite exec_bind_get.
    apply bind_preserves; [apply same_memory_trans| |].
    { rewrite copy_out_same. apply same_memory_refl. }
    intros r w6 _.
    apply bind_preserves; [apply same_memory_trans|apply sem_post_same_memory|].
    intros [] w7 _. apply same_memory_refl.
  - apply bind_preserves; [apply same_memory_trans|apply sem_post_same_memory|].
    intros [] w5 _. apply same_memory_refl.
Qed.

(** *** Distinct names *)

Lemma distinct_names_objects w w' :
  shm_objects w' = shm_objects w -> distinct_names w -> distinct_names w'.
Proof.
  intros H Hd i j. unfold slot_at. rewrite H. apply Hd.
Qed.

Lemma distinct_names_empty : distinct_names empty_world.
Proof.
  intros i j _ _ Hu. unfold slot_at, empty_world in Hu. simpl in Hu.
  rewrite lookup_empty in Hu. discriminate.
Qed.

(** Marking an entry as unused keeps the names distinct. *)
Lemma distinct_names_freed w w' k s :
  shm_objects w' = <[k := s]> (shm_objects w) ->
  slot_in_use s = false ->
  distinct_names w -> distinct_names w'.
Proof.
  intros Hobj Hs Hd i j Hi Hj. unfold slot_at. rewrite Hobj.
  destruct (decide (i = k)) as [->|Hik];
    [rewrite lookup_insert_eq; simpl; congruence|].
  destruct (decide (j = k)) as [->|Hjk];
    [rewrite (lookup_insert_eq _ k); simpl; congruence|].
  rewrite !lookup_insert_ne by done. by apply Hd.
Qed.

(** Entering a name that the table does not hold keeps the names
    distinct. *)
Lemma distinct_names_entered w w' k s :
  shm_objects w' = <[k := s]> (shm_objects w) ->
  find_slot_by_name w (slot_name s) = -1 ->
  distinct_names w -> distinct_names w'.
Proof.
  intros Hobj Hnone Hd i j Hi Hj.
  pose proof (first_index_none _ _ _ Hnone) as Hfree. simpl in Hfree.
  assert (Hother : forall n, (n < MAX_SHM_OBJECTS)%nat ->
                             slot_in_use (slot_at w n) = true ->
                             slot_name (slot_at w n) <> slot_name s).
  { intros n Hn Hu Heq. specialize (Hfree n ltac:(lia)).
    rewrite Hu, bool_decide_eq_true_2 in Hfree by done. done. }
  unfold slot_at at 1 2 3 4. rewrite Hobj.
  destruct (decide (i = k)) as [->|Hik], (decide (j = k)) as [->|Hjk]; try done.
  - rewrite lookup_insert_eq, lookup_insert_ne by done. simpl.
    intros _ Hu Heq. by destruct (Hother j Hj Hu).
  - rewrite lookup_insert_eq, lookup_insert_ne by done. simpl.
    intros Hu _ Heq. by destruct (Hother i Hi Hu).
  - rewrite !lookup_insert_ne by done. by apply Hd.
Qed.

Lemma close_distinct_names slot w :
  distinct_names w -> distinct_names (final_world (close slot w)).
Proof.
  intros Hd. destruct (close_objects w slot) as [H|(s & _ & Hs & H)].
  - by apply (distinct_names_objects w).
  - by apply (distinct_names_freed w _ (Z.to_nat slot) s).
Qed.

Lemma shm_open_rest os name w :
  exists fd w',
    shm_open os name w = Done fd w'
    /\ shm_objects w' = shm_objects w
    /\ mappings w' = mappings w.
Proof.
  unfold shm_open. destruct (os_shm_open_refused os); [by eauto|].
  destruct (ipc_name name) as [key|]; [|by eauto].
  destruct (shm_files w !! key); by eauto.
Qed.

Lemma ftruncate_rest os fd len w :
  exists r w',
    ftruncate os fd len w = Done r w'
    /\ shm_objects w' = shm_objects w
    /\ mappings w' = mappings w
    /\ open_fds w' = open_fds w.
Proof.
  unfold ftruncate. repeat case_match; by eauto 10.
Qed.

Lemma create_or_open_distinct_names os name sz w :
  distinct_names w ->
  distinct_names (final_world (create_or_open os name sz w)).
Proof.
  intros Hd.
  destruct (create_or_open_quiet os name sz w) as (slot & w' & Hrun & _).
  rewrite Hrun. simpl.
  destruct (find_slot_by_name_cases w name) as [Hnone|Hfound].
  2:{ rewrite (create_or_open_registered _ _ _ _ Hfound) in Hrun.
      by injection Hrun as _ <-. }
  destruct (Z.le_gt_cases 0 slot) as [Hslot|Hslot].
  { destruct (create_or_open_new _ _ _ _ _ _ Hnone Hrun Hslot)
      as (_ & key & fd & _ & Hobj & _).
    by apply (distinct_names_entered w _ _ _ Hobj). }
  revert Hrun. unfold create_or_open. rewrite exec_bind_get, Hnone. simpl.
  destruct (Z.ltb_spec (find_free_slot w) 0) as [|Hfree]; [by intros [= _ <-]|].
  destruct (shm_open_rest os name w) as (fd & w1 & Hopen & Ho1 & _).
  rewrite (exec_bind_run _ _ _ _ _ Hopen).
  destruct (fd <? 0);
    [intros [= _ <-]; by apply (distinct_names_objects w)|].
  destruct (ftruncate_rest os fd sz w1) as (tr & w2 & Htr & Ho2 & _).
  rewrite (exec_bind_run _ _ _ _ _ Htr).
  assert (Hd2 : distinct_names w2)
    by (apply (distinct_names_objects w); [congruence|done]).
  destruct (tr <? 0).
  { rewrite (exec_bind_run _ _ _ _ _ (close_run w2 fd)).
    intros [= _ <-]. by apply close_distinct_names. }
  unfold mmap. unfold mbind at 1, exec_bind.
  destruct (os_mmap_refused os).
  { destruct (decide (MinusOnePtr = MinusOnePtr)); [|done].
    rewrite (exec_bind_run _ _ _ _ _ (close_run w2 fd)).
    intros [= _ <-]. by apply close_distinct_names. }
  destruct (sz <=? 0).
  { destruct (decide (MinusOnePtr = MinusOnePtr)); [|done].
    rewrite (exec_bind_run _ _ _ _ _ (close_run w2 fd)).
    intros [= _ <-]. by apply close_distinct_names. }
  destruct (open_fds w2 !! fd).
  - destruct (decide (Ptr (next_block w2) 0 = MinusOnePtr)); [done|].
    intros [= <- _]. lia.
  - destruct (decide (MinusOnePtr = MinusOnePtr)); [|done].
    rewrite (exec_bind_run _ _ _ _ _ (close_run w2 fd)).
    intros [= _ <-]. by apply close_distinct_names.
Qed.

(** X18: the names of the entries in use are distinct at the start of a
    process, and [create_or_open], [close], a publish and a consume keep
    them distinct, whatever they return. *)
Theorem distinct_names_kept os name sz slot array w :
  distinct_names w ->
  distinct_names empty_world
  /\ distinct_names (final_world (create_or_open os name sz w))
  /\ distinct_names (final_world (close slot w))
  /\ distinct_names (final_world (write_array_to_shared_memory os name array w))
  /\ distinct_names (final_world (read_array_from_shared_memory os name array w)).
Proof.
  intros Hd. split; [apply distinct_names_empty|].
  split; [by apply create_or_open_distinct_names|].
  split; [by apply close_distinct_names|].
  destruct array as [arr|]; [|done]. split.
  - destruct (write_array_same_table os name arr w) as [Ho _].
    apply (distinct_names_objects _ _ Ho).
    by apply create_or_open_distinct_names.
  - destruct (read_array_same_memory os name arr w) as (Ho & _).
    apply (distinct_names_objects _ _ Ho).
    by apply create_or_open_distinct_names.
Qed.

Lemma published_world_distinct : distinct_names published_world.
Proof.
  destruct (write_array_same_table os_ok "grid2" sample_array empty_world) as [Ho _].
  apply (distinct_names_objects _ _ Ho).
  apply create_or_open_distinct_names, distinct_names_empty.
Qed.

(** The four operations on the world of the sample publish. *)
Lemma distinct_names_kept_witness :
  distinct_names empty_world
  /\ distinct_names (final_world (create_or_open os_ok "grid" 136 published_world))
  /\ distinct_names (final_world (close 0 published_world))
  /\ distinct_names
       (final_world (write_array_to_shared_memory os_ok "grid" (Some sample_array)
                       published_world))
  /\ distinct_names
       (final_world (read_array_from_shared_memory os_ok "grid" (Some sample_array)
                       published_world)).
Proof.
  apply (distinct_names_kept os_ok "grid" 136 0 (Some sample_array) published_world).
  exact published_world_distinct.
Defined.

(** The slot of the sample publish, closed. *)
Lemma close_releases_witness :
  exists w',
    close 0 published_world = Done tt w'
    /\ get_address w' 0 = NullPtr
    /\ find_slot_by_name w' (slot_name (slot_at published_world (Z.to_nat 0))) = -1
    /\ get_address_by_name w' (slot_name (slot_at published_world (Z.to_nat 0)))
       = NullPtr
    /\ open_fds w'
       = delete (slot_fd (slot_at published_world (Z.to_nat 0)))
           (open_fds published_world)
    /\ (forall b, slot_addr (slot_at published_world (Z.to_nat 0)) = Ptr b 0 ->
                  mappings w' = delete b (mappings published_world))
    /\ shm_files w' = shm_files published_world
    /\ (forall i, i <> Z.to_nat 0 -> slot_at w' i = slot_at published_world i)
    /\ close 0 w' = Done tt w'.
Proof.
  apply (close_releases published_world 0).
  - vm_compute. reflexivity.
  - exact published_world_distinct.
Defined.

(** *** Failures of [create_or_open] *)

Lemma lowest_free_fd_free (fds : gmap Z string) :
  fds !! lowest_free_fd fds = None.
Proof.
  unfold lowest_free_fd. set (n := Z.of_nat (size fds)).
  destruct (find _ _) as [x|] eqn:E; simpl.
  - apply find_some in E as [_ E]. by apply bool_decide_eq_true in E.
  - destruct (fds !! n) as [s|] eqn:Hn; [exfalso|done].
    assert (Hsub : (list_to_set (seqZ 0 (n + 1)) : gset Z) ⊆ dom fds).
    { intros i Hi. apply elem_of_list_to_set, elem_of_seqZ in Hi.
      apply elem_of_dom. destruct (decide (i = n)) as [->|Hne]; [by eexists|].
      destruct (fds !! i) eqn:Hi'; [by eexists|]. exfalso.
      assert (Hf : bool_decide (fds !! i = None) = false).
      { apply (find_none _ _ E i). apply list_elem_of_In, elem_of_seqZ. lia. }
      by rewrite bool_decide_eq_true_2 in Hf. }
    apply subseteq_size in Hsub.
    rewrite size_list_to_set in Hsub by apply NoDup_seqZ.
    rewrite length_seqZ, size_dom in Hsub. lia.
Qed.

(** X19: when [ftruncate] or [mmap] fails, [create_or_open] returns [-1]
    and takes no slot, but the descriptor that [shm_open] returned stays
    open and the object it created stays behind: the [close(fd)] of the
    failure paths is the member [close], which takes a slot index and finds
    none in use under that number. *)
Theorem create_or_open_failure_keeps_descriptor os name sz w key :
  find_slot_by_name w name = -1 ->
  0 <= find_free_slot w ->
  ipc_name name = Some key ->
  os_shm_open_refused os = false ->
  os_ftruncate_refused os = true \/ os_mmap_refused os = true ->
  valid_slot w (lowest_free_fd (open_fds w)) = false ->
  exists w',
    create_or_open os name sz w = Done (-1) w'
    /\ open_fds w !! lowest_free_fd (open_fds w) = None
    /\ open_fds w' = <[lowest_free_fd (open_fds w) := key]> (open_fds w)
    /\ shm_objects w' = shm_objects w
    /\ mappings w' = mappings w
    /\ is_Some (shm_files w' !! key).
Proof.
  intros Hnone Hfree Hkey Hopen Hfail Hslot.
  set (fd := lowest_free_fd (open_fds w)) in *.
  unfold create_or_open. rewrite exec_bind_get, Hnone. simpl.
  destruct (Z.ltb_spec (find_free_slot w) 0) as [|_]; [lia|].
  unfold shm_open. unfold mbind at 1, exec_bind. rewrite Hopen, Hkey. fold fd.
  destruct (Z.ltb_spec fd 0) as [Hneg|_];
    [pose proof (lowest_free_fd_nonneg (open_fds w)); unfold fd in Hneg; lia|].
  set (w1 := with_open_fds _ _).
  assert (H1 : shm_objects w1 = shm_objects w /\ mappings w1 = mappings w
               /\ open_fds w1 = <[fd := key]> (open_fds w)
               /\ is_Some (shm_files w1 !! key)).
  { subst w1. destruct (shm_files w !! key) eqn:E; simpl.
    - by rewrite E.
    - by rewrite lookup_insert_eq. }
  destruct H1 as (Ho1 & Hm1 & Hf1 & Hfile1). clearbody w1.
  assert (Hclose : forall w2, shm_objects w2 = shm_objects w ->
                              close fd w2 = Done tt w2).
  { intros w2 Ho2. rewrite close_Done.
    replace (valid_slot w2 fd) with (valid_slot w fd); [by rewrite Hslot|].
    unfold valid_slot, slot_at. by rewrite Ho2. }
  exists (final_world (ftruncate os fd sz w1)).
  destruct (ftruncate_rest os fd sz w1) as (tr & w2 & Htr & Ho2 & Hm2 & Hf2).
  assert (Hfile2 : is_Some (shm_files w2 !! key)).
  { revert Htr. unfold ftruncate.
    destruct (os_ftruncate_refused os); [by intros [= _ <-]|].
    destruct (2 ^ 63 <=? sz); [by intros [= _ <-]|].
    destruct (open_fds w1 !! fd) as [k|] eqn:Hk; [|by intros [= _ <-]].
    rewrite Hf1, lookup_insert_eq in Hk. injection Hk as <-.
    destruct Hfile1 as [bs ->]. intros [= _ <-]. simpl.
    by rewrite lookup_insert_eq. }
  rewrite Htr. simpl.
  rewrite (exec_bind_run _ _ _ _ _ Htr).
  split.
  2:{ split; [apply lowest_free_fd_free|]. split; [congruence|].
      split; [congruence|]. split; [congruence|done]. }
  destruct (Z.ltb_spec tr 0) as [Hneg|Hpos].
  { rewrite (exec_bind_run _ _ _ _ _ (Hclose w2 ltac:(congruence))). done. }
  destruct Hfail as [Hft|Hmm].
  { exfalso. revert Htr. unfold ftruncate. rewrite Hft. intros [= <- _]. lia. }
  unfold mmap. unfold mbind at 1, exec_bind. rewrite Hmm.
  destruct (decide (MinusOnePtr = MinusOnePtr)); [|done].
  rewrite (exec_bind_run _ _ _ _ _ (Hclose w2 ltac:(congruence))). done.
Qed.

(** A fresh process under a system that refuses every [mmap]: the descriptor 3 stays open. *)
Lemma create_or_open_failure_keeps_descriptor_witness :
  exists w',
    create_or_open os_no_mmap "/grid" 136 empty_world = Done (-1) w'
    /\ open_fds empty_world !! lowest_free_fd (open_fds empty_world) = None
    /\ open_fds w'
       = <[lowest_free_fd (open_fds empty_world) := "grid"]> (open_fds empty_world)
    /\ shm_objects w' = shm_objects empty_world
    /\ mappings w' = mappings empty_world
    /\ is_Some (shm_files w' !! "grid").
Proof.
  apply (create_or_open_failure_keeps_descriptor os_no_mmap "/grid" 136
           empty_world "grid").
  - vm_compute. reflexivity.
  - vm_compute. discriminate.
  - vm_compute. reflexivity.
  - reflexivity.
  - right. reflexivity.
  - vm_compute. reflexivity.
Defined.

(** Where an object does not grow, or the rest of its last page is clear,
    setting its length cuts it or extends it with zero bytes. *)
Lemma resize_app_zeros (bs : list byte) (n k : nat) :
  resize n 0 (bs ++ replicate k 0) = resize n 0 bs.
Proof.
  rewrite !resize_spec.
  rewrite take_app, take_replicate, length_app, length_replicate.
  rewrite <- app_assoc, <- replicate_add. do 2 f_equal. lia.
Qed.

Lemma resize_past_end w key (bs : list byte) (n : nat) :
  (n <= length bs)%nat \/ page_tails w !! key = None ->
  resize n 0 (bs ++ tail_of w key bs) = resize n 0 bs.
Proof.
  intros [Hle|Hclear].
  - rewrite !resize_le by (rewrite ?length_app; lia). by apply take_app_le.
  - unfold tail_of. rewrite Hclear. simpl. rewrite resize_nil.
    apply resize_app_zeros.
Qed.

(** X20: when [create_or_open] opens a name that is not in the table, the
    object gets the length asked for.  An object that exists is cut to that
    length, or it grows: first by what the rest of its last page held, then
    by zero bytes; the bytes that remain are as they were.  Where it does
    not grow, or no store has run past its end, it is cut or extended with
    zero bytes. *)
Theorem create_or_open_sets_length os name sz w key bs :
  find_slot_by_name w name = -1 ->
  0 <= find_free_slot w ->
  ipc_name name = Some key ->
  os_shm_open_refused os = false ->
  os_ftruncate_refused os = false ->
  os_mmap_refused os = false ->
  0 < sz < 2 ^ 63 ->
  shm_files w !! key = Some bs ->
  exists w',
    create_or_open os name sz w = Done (find_free_slot w) w'
    /\ shm_files w' !! key
       = Some (resize (Z.to_nat sz) 0 (bs ++ tail_of w key bs))
    /\ (sz <= Z.of_nat (length bs) \/ page_tails w !! key = None ->
        shm_files w' !! key = Some (resize (Z.to_nat sz) 0 bs))
    /\ forall key', key' <> key -> shm_files w' !! key' = shm_files w !! key'.
Proof.
  intros Hnone Hfree Hkey Ho Hf Hm Hsz Hbs.
  destruct (create_or_open_fresh os name sz w key) as [w' Hrun]; try done.
  exists w'. split; [done|].
  destruct (create_or_open_new _ _ _ _ _ _ Hnone Hrun Hfree)
    as (_ & key' & fd & Hkey' & _ & _ & Hfiles & _).
  assert (key' = key) as -> by congruence.
  rewrite Hfiles, Hbs. simpl. split; [by rewrite lookup_insert_eq|]. split.
  - intros Hcase. rewrite lookup_insert_eq. f_equal.
    apply resize_past_end. destruct Hcase as [Hle|Hclear]; [left; lia|by right].
  - intros k Hk. by rewrite lookup_insert_ne.
Qed.

(** Another process opens the object of the sample publish with the size of the envelope. *)
Lemma create_or_open_sets_length_witness :
  exists w',
    create_or_open os_ok "/grid2" 112 other_process_world
    = Done (find_free_slot other_process_world) w'
    /\ shm_files w' !! "grid2"
       = Some (resize (Z.to_nat 112) 0
                 (default [] (shm_files published_world !! "grid2")
                  ++ tail_of other_process_world "grid2"
                       (default [] (shm_files published_world !! "grid2"))))
    /\ (112 <= Z.of_nat (length (default [] (shm_files published_world !! "grid2")))
        \/ page_tails other_process_world !! "grid2" = None ->
        shm_files w' !! "grid2"
        = Some (resize (Z.to_nat 112) 0
                  (default [] (shm_files published_world !! "grid2"))))
    /\ forall key', key' <> "grid2" ->
         shm_files w' !! key' = shm_files other_process_world !! key'.
Proof.
  apply (create_or_open_sets_length os_ok "/grid2" 112 other_process_world
           "grid2" (default [] (shm_files published_world !! "grid2"))).
  - vm_compute. reflexivity.
  - vm_compute. discriminate.
  - vm_compute. reflexivity.
  - reflexivity.
  - reflexivity.
  - reflexivity.
  - lia.
  - vm_compute. reflexivity.
Defined.

(** *** What a consume leaves behind *)

(** X21: a consume of a name that the table of the process does not hold
    first sets the length of the object to the size of the envelope,
    whatever the consume then returns: an object of 112 bytes or more, as
    every publish leaves it, loses everything after its first 112 bytes. *)
Theorem consume_cuts_object os name arr w key bs :
  find_slot_by_name w ("/" ++ name) = -1 ->
  0 <= find_free_slot w ->
  ipc_name ("/" ++ name) = Some key ->
  os_shm_open_refused os = false ->
  os_ftruncate_refused os = false ->
  os_mmap_refused os = false ->
  shm_files w !! key = Some bs ->
  shm_files (final_world (read_array_from_shared_memory os name (Some arr) w))
    !! key
  = Some (resize 112 0 (bs ++ tail_of w key bs))
  /\ ((112 <= length bs)%nat \/ page_tails w !! key = None ->
      shm_files (final_world (read_array_from_shared_memory os name (Some arr) w))
        !! key
      = Some (resize 112 0 bs)).
Proof.
  intros Hnone Hfree Hkey Ho Hf Hm Hbs.
  destruct (read_array_same_memory os name arr w) as (_ & _ & -> & _).
  destruct (create_or_open_fresh os ("/" ++ name) sizeof_SharedMemoryData w key)
    as [w' Hrun]; try done.
  rewrite Hrun. simpl.
  destruct (create_or_open_new _ _ _ _ _ _ Hnone Hrun Hfree)
    as (_ & key' & fd & Hkey' & _ & _ & Hfiles & _).
  assert (key' = key) as -> by congruence.
  rewrite Hfiles, Hbs. simpl. rewrite lookup_insert_eq.
  split; [done|]. intros Hcase. f_equal. by apply resize_past_end.
Qed.

(** The consume of another process after the sample publish. *)
Lemma consume_cuts_object_witness :
  shm_files
    (final_world (read_array_from_shared_memory os_ok "grid2" (Some [])
                    other_process_world)) !! "grid2"
  = Some (resize 112 0
            (default [] (shm_files published_world !! "grid2")
             ++ tail_of other_process_world "grid2"
                  (default [] (shm_files published_world !! "grid2"))))
  /\ ((112 <= length (default [] (shm_files published_world !! "grid2")))%nat
      \/ page_tails other_process_world !! "grid2" = None ->
      shm_files
        (final_world (read_array_from_shared_memory os_ok "grid2" (Some [])
                        other_process_world)) !! "grid2"
      = Some (resize 112 0 (default [] (shm_files published_world !! "grid2")))).
Proof.
  apply (consume_cuts_object os_ok "grid2" [] other_process_world "grid2"
           (default [] (shm_files published_world !! "grid2"))).
  - vm_compute. reflexivity.
  - vm_compute. discriminate.
  - vm_compute. reflexivity.
  - reflexivity.
  - reflexivity.
  - reflexivity.
  - vm_compute. reflexivity.
Defined.

(** The object of the sample publish holds 136 bytes; the consume of
    another process leaves 112 of them, takes the three elements from the
    rest of the page, which the cut has cleared, and returns three zeros. *)
Example other_process_consume :
  length (default [] (shm_files published_world !! "grid2")) = 136%nat
  /\ exists w',
       read_array_from_shared_memory os_ok "grid2" (Some []) other_process_world
       = Done (Ok [0; 0; 0]) w'
       /\ length (default [] (shm_files w' !! "grid2")) = 112%nat.
Proof. split; [vm_compute; reflexivity|]. eexists. split; vm_compute; reflexivity. Qed.

(** X22: a consume of a name that is in the table changes neither the
    table, nor the mappings, nor a byte of any shared-memory object,
    whatever it returns. *)
Theorem consume_leaves_memory os name arr w :
  0 <= find_slot_by_name w ("/" ++ name) ->
  same_memory w (final_world (read_array_from_shared_memory os name (Some arr) w)).
Proof.
  intros Hfound.
  pose proof (read_array_same_memory os name arr w) as H.
  by rewrite (create_or_open_registered _ _ _ _ Hfound) in H.
Qed.

(** The consume that follows the sample publish. *)
Lemma consume_leaves_memory_witness :
  same_memory published_world
    (final_world (read_array_from_shared_memory os_ok "grid2" (Some [])
                    published_world)).
Proof.
  apply (consume_leaves_memory os_ok "grid2" [] published_world).
  vm_compute. discriminate.
Defined.

Lemma sem_open_existing_Done os name w r w' :
  sem_open_existing os name w = Done r w' -> w' = w.
Proof. unfold sem_open_existing. repeat case_match; by intros [= _ <-]. Qed.

(** X23: a consume that reports a failure leaves every semaphore at the
    value it had: when the wait fails nothing was taken, and when the type
    tag is not the expected one the unit taken by the wait is posted
    back. *)
Theorem failed_consume_keeps_semaphores os name array w e w' :
  read_array_from_shared_memory os name array w = Done (Err e) w' ->
  (forall s v, semaphores w !! s = Some v -> (v <= SEM_VALUE_MAX)%N) ->
  semaphores w' = semaphores w.
Proof.
  intros Hrun Hbound. destruct array as [arr|]; [|by injection Hrun as _ <-].
  unfold read_array_from_shared_memory in Hrun.
  apply exec_bind_Done in Hrun as (slot & w0 & Hco & Hrun).
  destruct (create_or_open_quiet os ("/" ++ name) sizeof_SharedMemoryData w)
    as (slot0 & w00 & Hco0 & _ & Hsems).
  rewrite Hco in Hco0. injection Hco0 as <- <-.
  destruct (slot <? 0); [by apply exec_ret_Done in Hrun as [_ <-]|].
  apply exec_bind_Done in Hrun as (? & ? & [= <- <-] & Hrun).
  apply exec_bind_Done in Hrun as (sem_name & ? & Hname & Hrun).
  apply load_c_string_Done in Hname as [_ ->].
  apply exec_bind_Done in Hrun as (osem & wo & Hsem & Hrun).
  apply sem_open_existing_Done in Hsem as ->.
  destruct osem as [sem|]; [|by apply exec_ret_Done in Hrun as [_ <-]].
  apply exec_bind_Done in Hrun as (wt & wA & Hwt & Hrun).
  apply sem_timedwait_Done in Hwt as [[-> ->]|(-> & _ & v & Hv & Hpos & ->)].
  { simpl in Hrun. apply exec_bind_Done in Hrun as (? & ? & Hc & Hrun).
    apply exec_ret_Done in Hc as [_ <-].
    by apply exec_ret_Done in Hrun as [_ <-]. }
  simpl in Hrun.
  apply exec_bind_Done in Hrun as (same & ? & Hsame & Hrun).
  apply c_string_equals_Done in Hsame as [_ ->].
  destruct same; simpl in Hrun.
  - apply exec_bind_Done in Hrun as (eb & ? & _ & Hrun).
    apply exec_bind_Done in Hrun as (? & ? & _ & Hrun).
    apply exec_bind_Done in Hrun as (? & ? & _ & Hrun).
    apply exec_bind_Done in Hrun as (? & ? & _ & Hrun).
    apply exec_bind_Done in Hrun as (? & ? & _ & Hrun).
    by apply exec_ret_Done in Hrun as [? _].
  - apply exec_bind_Done in Hrun as ([] & wp & Hpost & Hrun).
    apply exec_bind_Done in Hrun as ([] & ? & [= <-] & Hrun).
    apply exec_ret_Done in Hrun as [_ <-].
    rewrite sem_post_Done in Hpost. injection Hpost as <-.
    destruct (wait_post_raised sem v w0 Hv Hpos) as [_ Hrestore].
    rewrite Hrestore; [done|]. apply (Hbound sem). by rewrite <- Hsems.
Qed.

(** A consume of the sample publish whose type tag another writer has replaced: it reports the mismatch. *)
Lemma failed_consume_keeps_semaphores_witness :
  semaphores
    (final_world (read_array_from_shared_memory os_ok "grid2" (Some [])
                    mistyped_world))
  = semaphores mistyped_world.
Proof.
  apply (failed_consume_keeps_semaphores os_ok "grid2" (Some [])
           mistyped_world TypeMismatch).
  - vm_compute. reflexivity.
  - intros s v H.
    change (semaphores mistyped_world)
      with (<["sem_grid2" := 1%N]> (∅ : gmap string N)) in H.
    apply lookup_insert_Some in H as [[_ <-]|[_ H]]; [done|].
    by rewrite lookup_empty in H.
Defined.

(** *** Object representations *)

Lemma le_bytes_length n v : length (le_bytes n v) = n.
Proof. revert v. induction n as [|n IH]; intros v; simpl; [done|]. by rewrite IH. Qed.

Lemma le_value_le_bytes n v :
  0 <= v < 256 ^ Z.of_nat n -> le_value (le_bytes n v) = v.
Proof.
  revert v. induction n as [|n IH]; intros v Hv; simpl.
  - simpl in Hv. lia.
  - rewrite IH.
    + pose proof (Z.div_mod v 256 ltac:(lia)). lia.
    + rewrite Nat2Z.inj_succ, Z.pow_succ_r in Hv by lia.
      split; [apply Z.div_pos; lia|].
      apply Z.div_lt_upper_bound; lia.
Qed.

Lemma c_str_length s : length (c_str s) = S (String.length s).
Proof.
  unfold c_str. rewrite length_app, length_fmap. simpl.
  induction s as [|c s IH]; simpl; [done|]. lia.
Qed.

Lemma read_c_string_chars (l : list ascii) rest :
  Forall (fun c => char_code c <> 0) l ->
  read_c_string ((char_code <$> l) ++ 0 :: rest) = Some (string_of_list_ascii l).
Proof.
  induction l as [|c l IH]; intros H; [done|].
  apply Forall_cons in H as [Hc Hl].
  rewrite fmap_cons, <- app_comm_cons. cbn [read_c_string].
  destruct (Z.eqb_spec (char_code c) 0) as [|_]; [done|].
  rewrite IH by done. simpl. f_equal. f_equal.
  unfold char_code. by rewrite N2Z.id, ascii_N_embedding.
Qed.

Lemma read_c_string_c_str s rest :
  c_string s -> read_c_string (c_str s ++ rest) = Some s.
Proof.
  intros H. unfold c_str. rewrite <- app_assoc. simpl.
  rewrite read_c_string_chars by done.
  by rewrite string_of_list_ascii_of_string.
Qed.

Lemma strcmp_eq_chars (l : list byte) rest :
  strcmp_eq (l ++ 0 :: rest) (l ++ [0]) = Some true.
Proof.
  induction l as [|c l IH]; [done|].
  rewrite <- !app_comm_cons. cbn [strcmp_eq].
  rewrite Z.eqb_refl. by destruct (c =? 0).
Qed.

Lemma strcmp_eq_c_str s rest :
  strcmp_eq (c_str s ++ rest) (c_str s) = Some true.
Proof.
  unfold c_str. rewrite <- app_assoc. apply strcmp_eq_chars.
Qed.

Lemma ipc_name_slash name :
  name <> "" -> has_slash name = false ->
  ipc_name ("/" ++ name)%string = Some name.
Proof.
  intros Hne Hs. change ("/" ++ name)%string with (String "/" name).
  unfold ipc_name. cbn [strip_slashes]. simpl.
  destruct name as [|c s]; [done|]. cbn [has_slash strip_slashes] in *.
  apply orb_false_iff in Hs as [Hc Hs]. rewrite Hc. simpl. by rewrite Hc, Hs.
Qed.

Lemma ipc_name_sem name :
  has_slash name = false ->
  ipc_name ("/sem_" ++ name)%string = Some ("sem_" ++ name)%string.
Proof.
  intros Hs.
  change ("/sem_" ++ name)%string
    with (String "/" (String "s" (String "e" (String "m" (String "_" name))))).
  change ("sem_" ++ name)%string
    with (String "s" (String "e" (String "m" (String "_" name)))).
  unfold ipc_name. simpl. by rewrite Hs.
Qed.

Lemma c_string_sem name : c_string name -> c_string ("/sem_" ++ name)%string.
Proof.
  change ("/sem_" ++ name)%string
    with (String "/" (String "s" (String "e" (String "m" (String "_" name))))).
  unfold c_string. simpl. intros H.
  by repeat (apply Forall_cons; split; [done|]).
Qed.

Lemma sem_name_length name :
  String.length ("/sem_" ++ name)%string = (5 + String.length name)%nat.
Proof. reflexivity. Qed.

(** *** Mapped objects *)

Lemma mapped_same_memory w w' b key m :
  same_memory w w' -> mapped w b key m -> mapped w' b key m.
Proof. intros (_ & Hm & Hf & _) [H1 H2]. split; congruence. Qed.

Lemma store_mapped w b key m off data m' :
  mapped w b key m ->
  store_bytes m off data = Some m' ->
  exists w',
    store (Ptr b off) data w = Done tt w'
    /\ mapped w' b key m'
    /\ same_table w w'
    /\ semaphores w' = semaphores w.
Proof.
  intros Hmap Hst. unfold store. rewrite (visible_mapped _ _ _ _ _ Hmap).
  destruct Hmap as [Hm Hf].
  rewrite (store_bytes_app_l _ (tail_of w key m) _ _ _ Hst), Hf.
  pose proof (store_bytes_length _ _ _ _ Hst) as Hlen.
  assert (Hin : off + Z.of_nat (length data) <= Z.of_nat (length m)).
  { revert Hst. unfold store_bytes.
    destruct (in_bounds _ _ _) eqn:E; [|discriminate].
    apply in_bounds_spec in E. lia. }
  destruct (Z.leb_spec (off + Z.of_nat (length data)) (Z.of_nat (length m)))
    as [_|]; [|lia].
  rewrite drop_all, app_nil_r.
  rewrite (take_app_length' m' _ (length m)) by done.
  eexists. split; [reflexivity|].
  split; [|by repeat split]. split; simpl.
  - by rewrite Hlen.
  - by rewrite lookup_insert_eq.
Qed.

(** *** From a publish to a consume *)

(** The copy loop of the publish on a mapped object that is large enough:
    it goes through, puts every element at its place, and leaves what lies
    before them as it was. *)
Lemma copy_in_mapped b key arr : forall n i w m,
  mapped w b key m ->
  112 + 8 * Z.of_nat (length arr) <= Z.of_nat (length m) ->
  (i + n <= length arr)%nat ->
  exists w' m',
    copy_in (Ptr b 112) arr i n w = Done tt w'
    /\ mapped w' b key m'
    /\ length m' = length m
    /\ same_table w w'
    /\ semaphores w' = semaphores w
    /\ (forall o d, holds m o d ->
                    o + Z.of_nat (length d) <= 112 + 8 * Z.of_nat i ->
                    holds m' o d)
    /\ (forall j v, (i <= j < i + n)%nat -> arr !! j = Some v ->
                    holds m' (112 + 8 * Z.of_nat j) (le_bytes 8 v)).
Proof.
  induction n as [|n IH]; intros i w m Hmap Hfit Hin.
  - exists w, m. simpl. split; [done|]. split; [done|]. split; [done|].
    split; [apply same_table_refl|]. split; [done|]. split; [done|].
    intros j v Hj. lia.
  - destruct (lookup_lt_is_Some_2 arr i) as [v Hv]; [lia|].
    cbn [copy_in]. rewrite Hv.
    change (ptr_add (Ptr b 112) (sizeof_double * Z.of_nat i))
      with (Ptr b (112 + 8 * Z.of_nat i)).
    destruct (store_bytes_fits m (le_bytes 8 v) (112 + 8 * Z.of_nat i))
      as [m1 Hst]; [lia|rewrite le_bytes_length; lia|].
    destruct (store_mapped _ _ _ _ _ _ _ Hmap Hst)
      as (w1 & Hrun & Hmap1 & Htab1 & Hsem1).
    rewrite (exec_bind_run _ _ _ _ _ Hrun).
    pose proof (store_bytes_length _ _ _ _ Hst) as Hlen1.
    destruct (IH (S i) w1 m1 Hmap1 ltac:(lia) ltac:(lia))
      as (w' & m' & Hrun' & Hmap' & Hlen' & Htab' & Hsem' & Hkeep & Hput).
    exists w', m'. split; [done|]. split; [done|]. split; [lia|].
    split; [by apply (same_table_trans _ w1)|]. split; [congruence|]. split.
    + intros o d Hh Hend. apply Hkeep; [|lia].
      apply (holds_kept _ _ _ _ _ _ Hst Hh). left. lia.
    + intros j v' Hj Hv'. destruct (decide (j = i)) as [->|Hne].
      * assert (v' = v) as -> by congruence.
        apply Hkeep; [exact (holds_stored _ _ _ _ Hst)|].
        rewrite le_bytes_length. lia.
      * apply Hput; [lia|done].
Qed.

Lemma find_slot_by_name_table w w' name :
  same_table w w' -> find_slot_by_name w' name = find_slot_by_name w name.
Proof. intros [Ho _]. unfold find_slot_by_name, slot_at. by rewrite Ho. Qed.

Lemma get_address_table w w' slot :
  same_table w w' -> get_address w' slot = get_address w slot.
Proof. intros [Ho _]. by apply get_address_objects. Qed.

(** What a publish leaves behind when the name is in the table, the
    mapping of its slot is large enough and the system refuses nothing: the
    fields of the envelope and the elements lie at their offsets, and the
    semaphore is up. *)
Lemma publish_mapped name arr w slot b m :
  has_slash name = false ->
  (String.length name <= 58)%nat ->
  Z.of_nat (length arr) < 2 ^ 59 ->
  find_slot_by_name w ("/" ++ name) = slot ->
  0 <= slot ->
  get_address w slot = Ptr b 0 ->
  mapped w b name m ->
  112 + 8 * Z.of_nat (length arr) <= Z.of_nat (length m) ->
  exists w1 m1 v,
    write_array_to_shared_memory os_ok name (Some arr) w = Done (Ok tt) w1
    /\ same_table w w1
    /\ mapped w1 b name m1
    /\ length m1 = length m
    /\ holds m1 0 (le_bytes 8 (8 * Z.of_nat (length arr)))
    /\ holds m1 8 (le_bytes 8 (Z.of_nat (length arr)))
    /\ holds m1 16 (c_str "double_array")
    /\ holds m1 48 (c_str ("/sem_" ++ name))
    /\ (forall j x, arr !! j = Some x ->
                    holds m1 (112 + 8 * Z.of_nat j) (le_bytes 8 x))
    /\ semaphores w1 !! ("sem_" ++ name)%string = Some v
    /\ (0 < v)%N.
Proof.
  intros Hslash Hlen Hsmall Hfind Hslot Haddr0 Hmap0 Hfit.
  set (n := Z.of_nat (length arr)) in *.
  assert (Hdata : to_size_t (n * sizeof_double) = 8 * n).
  { unfold to_size_t, sizeof_double, SIZE_T_MODULUS. rewrite Z.mod_small; lia. }
  unfold write_array_to_shared_memory. fold n. rewrite Hdata.
  rewrite (exec_bind_run _ _ _ _ _
             (create_or_open_registered os_ok _ _ w ltac:(by rewrite Hfind))).
  rewrite Hfind. destruct (Z.ltb_spec slot 0) as [|_]; [lia|].
  rewrite exec_bind_get.
  assert (Haddr : forall w', same_table w w' -> get_address w' slot = Ptr b 0).
  { intros w' Ht. by rewrite (get_address_table _ _ _ Ht). }
  rewrite Haddr0.
  (* the envelope *)
  change (ptr_add (Ptr b 0) OFFSET_size) with (Ptr b 0).
  change (ptr_add (Ptr b 0) OFFSET_elements) with (Ptr b 8).
  change (ptr_add (Ptr b 0) OFFSET_data_type) with (Ptr b 16).
  change (ptr_add (Ptr b 0) OFFSET_semaphore_name) with (Ptr b 48).
  destruct (store_bytes_fits m (le_bytes 8 (8 * n)) 0) as [m1 Hst1];
    [lia|rewrite le_bytes_length; lia|].
  destruct (store_mapped _ _ _ _ _ _ _ Hmap0 Hst1)
    as (w1 & Hrun1 & Hmap1 & Htab1 & Hsem1).
  rewrite (exec_bind_run _ _ _ _ _ Hrun1).
  pose proof (store_bytes_length _ _ _ _ Hst1) as Hlen1.
  destruct (store_bytes_fits m1 (le_bytes 8 n) 8) as [m2 Hst2];
    [lia|rewrite le_bytes_length; lia|].
  destruct (store_mapped _ _ _ _ _ _ _ Hmap1 Hst2)
    as (w2 & Hrun2 & Hmap2 & Htab2 & Hsem2).
  rewrite (exec_bind_run _ _ _ _ _ Hrun2).
  pose proof (store_bytes_length _ _ _ _ Hst2) as Hlen2.
  destruct (store_bytes_fits m2 (c_str "double_array") 16) as [m3 Hst3];
    [lia|rewrite c_str_length; simpl; lia|].
  destruct (store_mapped _ _ _ _ _ _ _ Hmap2 Hst3)
    as (w3 & Hrun3 & Hmap3 & Htab3 & Hsem3).
  rewrite (exec_bind_run _ _ _ _ _ Hrun3).
  pose proof (store_bytes_length _ _ _ _ Hst3) as Hlen3.
  destruct (store_bytes_fits m3 (c_str ("/sem_" ++ name)) 48) as [m4 Hst4];
    [lia|rewrite c_str_length, sem_name_length; lia|].
  destruct (store_mapped _ _ _ _ _ _ _ Hmap3 Hst4)
    as (w4 & Hrun4 & Hmap4 & Htab4 & Hsem4).
  rewrite (exec_bind_run _ _ _ _ _ Hrun4).
  pose proof (store_bytes_length _ _ _ _ Hst4) as Hlen4.
  assert (Htab04 : same_table w w4).
  { by apply (same_table_trans _ w1), (same_table_trans _ w2),
             (same_table_trans _ w3). }
  (* the semaphore *)
  set (sem := ("sem_" ++ name)%string).
  assert (exists w5 v5,
            sem_open_creat os_ok ("/sem_" ++ name) w4 = Done (Some sem) w5
            /\ same_memory w4 w5
            /\ semaphores w5 !! sem = Some v5) as (w5 & v5 & Hrun5 & Hmem5 & Hv5).
  { unfold sem_open_creat. simpl. rewrite (ipc_name_sem name Hslash). fold sem.
    destruct (semaphores w4 !! sem) as [v|] eqn:E.
    - exists w4, v. split; [done|]. split; [apply same_memory_refl|done].
    - eexists _, 0%N. split; [done|]. split; [by repeat split|].
      simpl. by rewrite lookup_insert_eq. }
  rewrite (exec_bind_run _ _ _ _ _ Hrun5).
  rewrite exec_bind_get.
  assert (Htab05 : same_table w w5)
    by (apply (same_table_trans _ w4); [done|by apply same_memory_table]).
  rewrite (Haddr w5 Htab05).
  change (ptr_add (Ptr b 0) sizeof_SharedMemoryData) with (Ptr b 112).
  unfold n at 1. rewrite Nat2Z.id.
  (* the payload *)
  pose proof (mapped_same_memory _ _ _ _ _ Hmem5 Hmap4) as Hmap5.
  destruct (copy_in_mapped b name arr (length arr) 0 w5 m4 Hmap5
              ltac:(fold n; lia) ltac:(lia))
    as (w6 & m6 & Hrun6 & Hmap6 & Hlen6 & Htab6 & Hsem6 & Hkeep & Hput).
  rewrite (exec_bind_run _ _ _ _ _ Hrun6).
  rewrite (exec_bind_run _ _ _ _ _ (sem_post_Done sem w6)).
  set (w7 := final_world (sem_post sem w6)).
  pose proof (sem_post_same_memory sem w6) as Hmem7. fold w7 in Hmem7.
  assert (exists v7, semaphores w7 !! sem = Some v7 /\ (0 < v7)%N)
    as (v7 & Hv7 & Hpos7).
  { subst w7. unfold sem_post. rewrite Hsem6, Hv5.
    destruct (v5 <? SEM_VALUE_MAX)%N eqn:E; simpl.
    - rewrite lookup_insert_eq. eexists. split; [done|]. lia.
    - rewrite Hsem6, Hv5. apply N.ltb_ge in E. eexists. split; [done|].
      unfold SEM_VALUE_MAX in E. lia. }
  exists w7, m6, v7. split; [reflexivity|].
  split.
  { apply (same_table_trans _ w5); [done|].
    apply (same_table_trans _ w6); [done|by apply same_memory_table]. }
  split; [by apply (mapped_same_memory w6)|].
  split; [lia|].
  assert (H1 : holds m1 0 (le_bytes 8 (8 * n))) by exact (holds_stored _ _ _ _ Hst1).
  assert (H2 : holds m2 8 (le_bytes 8 n)) by exact (holds_stored _ _ _ _ Hst2).
  assert (H3 : holds m3 16 (c_str "double_array")) by exact (holds_stored _ _ _ _ Hst3).
  assert (H4 : holds m4 48 (c_str ("/sem_" ++ name))) by exact (holds_stored _ _ _ _ Hst4).
  split.
  { apply Hkeep; [|rewrite le_bytes_length; lia].
    apply (holds_kept _ _ _ _ _ _ Hst4); [|left; rewrite le_bytes_length; lia].
    apply (holds_kept _ _ _ _ _ _ Hst3); [|left; rewrite le_bytes_length; lia].
    apply (holds_kept _ _ _ _ _ _ Hst2); [|left; rewrite le_bytes_length; lia].
    done. }
  split.
  { apply Hkeep; [|rewrite le_bytes_length; lia].
    apply (holds_kept _ _ _ _ _ _ Hst4); [|left; rewrite le_bytes_length; lia].
    apply (holds_kept _ _ _ _ _ _ Hst3); [|left; rewrite le_bytes_length; lia].
    done. }
  split.
  { apply Hkeep; [|rewrite c_str_length; simpl; lia].
    apply (holds_kept _ _ _ _ _ _ Hst4); [|left; rewrite c_str_length; simpl; lia].
    done. }
  split.
  { apply Hkeep; [done|]. rewrite c_str_length, sem_name_length. lia. }
  split; [|done].
  intros j x Hx. apply (Hput j x); [|done].
  apply lookup_lt_Some in Hx. lia.
Qed.

(** Once [create_or_open] has entered the name, a publish finds it
    there: the publish that made the call and a publish in the world the
    call left behind run alike. *)
Lemma write_array_after_open os name arr w slot w0 :
  create_or_open os ("/" ++ name)
    (to_size_t (sizeof_SharedMemoryData
                + to_size_t (Z.of_nat (length arr) * sizeof_double))) w
  = Done slot w0 ->
  0 <= slot ->
  write_array_to_shared_memory os name (Some arr) w
  = write_array_to_shared_memory os name (Some arr) w0.
Proof.
  intros Hco Hslot. unfold write_array_to_shared_memory.
  rewrite (exec_bind_run _ _ _ _ _ Hco).
  pose proof (create_or_open_finds _ _ _ _ _ _ Hco Hslot) as Hfind.
  rewrite (exec_bind_run _ _ _ slot w0); [done|].
  rewrite <- Hfind. apply create_or_open_registered. by rewrite Hfind.
Qed.

(** What a publish of a name that the table does not yet hold leaves
    behind when the system refuses nothing: the object has the size of the
    envelope and the payload, the fields of the envelope and the elements
    lie at their offsets, and the semaphore is up. *)
Lemma publish_fresh name arr w :
  name <> "" ->
  has_slash name = false ->
  (String.length name <= 58)%nat ->
  Z.of_nat (length arr) < 2 ^ 59 ->
  find_slot_by_name w ("/" ++ name) = -1 ->
  0 <= find_free_slot w ->
  exists w1 m v,
    write_array_to_shared_memory os_ok name (Some arr) w = Done (Ok tt) w1
    /\ find_slot_by_name w1 ("/" ++ name) = find_free_slot w
    /\ get_address w1 (find_free_slot w) = Ptr (next_block w) 0
    /\ mapped w1 (next_block w) name m
    /\ Z.of_nat (length m) = 112 + 8 * Z.of_nat (length arr)
    /\ holds m 0 (le_bytes 8 (8 * Z.of_nat (length arr)))
    /\ holds m 8 (le_bytes 8 (Z.of_nat (length arr)))
    /\ holds m 16 (c_str "double_array")
    /\ holds m 48 (c_str ("/sem_" ++ name))
    /\ (forall j x, arr !! j = Some x ->
                    holds m (112 + 8 * Z.of_nat j) (le_bytes 8 x))
    /\ semaphores w1 !! ("sem_" ++ name)%string = Some v
    /\ (0 < v)%N.
Proof.
  intros Hne Hslash Hlen Hsmall Hnone Hfree.
  set (n := Z.of_nat (length arr)) in *.
  assert (Htotal : to_size_t (sizeof_SharedMemoryData
                              + to_size_t (n * sizeof_double)) = 112 + 8 * n).
  { unfold to_size_t, sizeof_SharedMemoryData, sizeof_double, SIZE_T_MODULUS.
    rewrite (Z.mod_small (n * 8)) by lia. rewrite Z.mod_small; lia. }
  pose proof (ipc_name_slash name Hne Hslash) as Hkey.
  destruct (create_or_open_fresh os_ok ("/" ++ name) (112 + 8 * n) w name)
    as [w0 Hco]; try done; [lia|].
  destruct (create_or_open_new _ _ _ _ _ _ Hnone Hco Hfree)
    as (_ & key & fd & Hkey' & Hobj & Hmap & Hfiles & _).
  assert (key = name) as -> by congruence.
  pose proof (create_or_open_finds _ _ _ _ _ _ Hco Hfree) as Hfind0.
  pose proof (find_free_slot_range w Hfree) as Hrange.
  set (slot := find_free_slot w) in *. set (b := next_block w) in *.
  assert (Haddr : get_address w0 slot = Ptr b 0).
  { unfold get_address, valid_slot, slot_at.
    rewrite Hobj, lookup_insert_eq. simpl.
    destruct (Z.leb_spec 0 slot); [|lia].
    destruct (Z.ltb_spec slot (Z.of_nat MAX_SHM_OBJECTS)); [done|lia]. }
  set (m0 := resize (Z.to_nat (112 + 8 * n)) 0
               (default [] (shm_files w !! name)
                ++ tail_of w name (default [] (shm_files w !! name)))).
  assert (Hlen0 : Z.of_nat (length m0) = 112 + 8 * n).
  { subst m0. rewrite length_resize. lia. }
  assert (Hmap0 : mapped w0 b name m0).
  { split; [by rewrite Hmap, lookup_insert_eq, Hlen0|].
    by rewrite Hfiles, lookup_insert_eq. }
  assert (Hco0 : create_or_open os_ok ("/" ++ name)
                   (to_size_t (sizeof_SharedMemoryData
                               + to_size_t (Z.of_nat (length arr) * sizeof_double)))
                   w = Done slot w0).
  { change (Z.of_nat (length arr)) with n. by rewrite Htotal. }
  rewrite (write_array_after_open os_ok name arr w slot w0 Hco0 Hfree).
  destruct (publish_mapped name arr w0 slot b m0 Hslash Hlen Hsmall Hfind0 Hfree
              Haddr Hmap0 ltac:(fold n; lia))
    as (w1 & m1 & v & Hpub & Htab & Hmap1 & Hlen1 & H).
  exists w1, m1, v. split; [done|].
  split; [by rewrite (find_slot_by_name_table _ _ _ Htab)|].
  split; [by rewrite (get_address_table _ _ _ Htab)|].
  split; [done|]. split; [lia|done].
Qed.

(** The copy loop of the consume on a mapped object that holds the
    elements: it fills the array with them. *)
Lemma copy_out_mapped b key m arr w :
  mapped w b key m ->
  Forall (fun x => 0 <= x < 2 ^ 64) arr ->
  (forall j x, arr !! j = Some x ->
               holds m (112 + 8 * Z.of_nat j) (le_bytes 8 x)) ->
  forall n i a,
    length a = length arr ->
    (i + n <= length arr)%nat ->
    (forall j, (j < i)%nat -> a !! j = arr !! j) ->
    exists a',
      copy_out (Ptr b 112) a i n w = Done a' w
      /\ length a' = length arr
      /\ forall j, (j < i + n)%nat -> a' !! j = arr !! j.
Proof.
  intros Hmap Hrange Hput.
  induction n as [|n IH]; intros i a Hlen Hin Hpre.
  - exists a. split; [done|]. split; [done|]. intros j Hj. apply Hpre. lia.
  - destruct (lookup_lt_is_Some_2 arr i) as [x Hx]; [lia|].
    cbn [copy_out].
    change (ptr_add (Ptr b 112) (sizeof_double * Z.of_nat i))
      with (Ptr b (112 + 8 * Z.of_nat i)).
    assert (Hload : load (Ptr b (112 + 8 * Z.of_nat i)) sizeof_double w
                    = Done (le_bytes 8 x) w).
    { apply load_Done. split; [|done].
      apply (peek_mapped _ _ _ _ _ _ _ Hmap).
      pose proof (Hput i x Hx) as Hh. unfold holds in Hh.
      by rewrite le_bytes_length in Hh. }
    rewrite (exec_bind_run _ _ _ _ _ Hload).
    rewrite le_value_le_bytes
      by (rewrite Forall_lookup in Hrange; apply (Hrange i x Hx)).
    destruct (IH (S i) (<[i := x]> a)) as (a' & Hrun & Hlen' & Hall).
    + by rewrite length_insert.
    + lia.
    + intros j Hj. destruct (decide (j = i)) as [->|Hne].
      * rewrite list_lookup_insert_eq by lia. done.
      * rewrite list_lookup_insert_ne by done. apply Hpre. lia.
    + exists a'. split; [done|]. split; [done|].
      intros j Hj. apply Hall. lia.
Qed.

(** A consume on a mapped object that holds an envelope and its elements,
    with the semaphore up, returns the elements. *)
Lemma consume_mapped name arr buf w slot b m v :
  has_slash name = false ->
  c_string name ->
  Forall (fun x => 0 <= x < 2 ^ 64) arr ->
  Z.of_nat (length arr) < 2 ^ 64 ->
  find_slot_by_name w ("/" ++ name) = slot ->
  0 <= slot ->
  get_address w slot = Ptr b 0 ->
  mapped w b name m ->
  holds m 8 (le_bytes 8 (Z.of_nat (length arr))) ->
  holds m 16 (c_str "double_array") ->
  holds m 48 (c_str ("/sem_" ++ name)) ->
  (forall j x, arr !! j = Some x ->
               holds m (112 + 8 * Z.of_nat j) (le_bytes 8 x)) ->
  semaphores w !! ("sem_" ++ name)%string = Some v ->
  (0 < v)%N ->
  exists w2,
    read_array_from_shared_memory os_ok name (Some buf) w = Done (Ok arr) w2.
Proof.
  intros Hslash Hcstr Hrange Hsmall Hfind Hslot Haddr Hmap H8 H16 H48 Hput Hv Hpos.
  unfold read_array_from_shared_memory.
  rewrite (exec_bind_run _ _ _ _ _
             (create_or_open_registered os_ok _ sizeof_SharedMemoryData w
                ltac:(by rewrite Hfind))).
  rewrite Hfind. destruct (Z.ltb_spec slot 0) as [|_]; [lia|].
  rewrite exec_bind_get, Haddr.
  change (ptr_add (Ptr b 0) OFFSET_semaphore_name) with (Ptr b 48).
  change (ptr_add (Ptr b 0) OFFSET_data_type) with (Ptr b 16).
  change (ptr_add (Ptr b 0) OFFSET_elements) with (Ptr b 8).
  set (sem := ("sem_" ++ name)%string) in *.
  (* the name of the semaphore *)
  rewrite (exec_bind_run _ _ _ ("/sem_" ++ name)%string w).
  2:{ apply load_c_string_Done. split; [|done].
      unfold peek_c_string. rewrite (visible_mapped _ _ _ _ _ Hmap). simpl.
      rewrite drop_app_le by (apply holds_inside in H48; lia).
      destruct (holds_drop _ _ _ H48) as [_ ->]. rewrite <- app_assoc.
      apply read_c_string_c_str. by apply c_string_sem. }
  rewrite (exec_bind_run _ _ _ (Some sem) w).
  2:{ unfold sem_open_existing. simpl. rewrite (ipc_name_sem name Hslash).
      fold sem. by rewrite Hv. }
  set (wA := log (EvSemWait sem) (with_semaphores (insert sem (v - 1)%N) w)).
  rewrite (exec_bind_run _ _ _ 0 wA).
  2:{ unfold sem_timedwait. simpl. rewrite Hv.
      by destruct (N.ltb_spec 0 v) as [_|]; [|lia]. }
  change (0 <? 0) with false. cbv iota.
  assert (HmemA : same_memory w wA) by (by repeat split).
  pose proof (mapped_same_memory _ _ _ _ _ HmemA Hmap) as HmapA.
  (* the type tag *)
  rewrite (exec_bind_run _ _ _ true wA).
  2:{ apply c_string_equals_Done. split; [|done].
      unfold peek_strcmp. rewrite (visible_mapped _ _ _ _ _ HmapA). simpl.
      rewrite drop_app_le by (apply holds_inside in H16; lia).
      destruct (holds_drop _ _ _ H16) as [_ ->]. rewrite <- app_assoc.
      apply strcmp_eq_c_str. }
  change (negb true) with false. cbv iota.
  (* the number of elements *)
  rewrite (exec_bind_run _ _ _ (le_bytes 8 (Z.of_nat (length arr))) wA).
  2:{ apply load_Done. split; [|done].
      apply (peek_mapped _ _ _ _ _ _ _ HmapA).
      unfold holds in H8. by rewrite le_bytes_length in H8. }
  rewrite le_value_le_bytes by (change (256 ^ Z.of_nat 8) with (2 ^ 64); lia).
  rewrite Nat2Z.id. rewrite exec_bind_get.
  rewrite (get_address_same_memory _ _ _ HmemA), Haddr.
  change (ptr_add (Ptr b 0) sizeof_SharedMemoryData) with (Ptr b 112).
  (* the elements *)
  destruct (copy_out_mapped b name m arr wA HmapA Hrange Hput (length arr) 0
              (resize (length arr) 0 buf))
    as (a' & Hrun & Hlen' & Hall);
    [by rewrite length_resize|lia|intros j Hj; lia|].
  assert (a' = arr) as ->.
  { apply list_eq. intros j. destruct (decide (j < length arr)%nat).
    - apply Hall. lia.
    - rewrite !lookup_ge_None_2 by lia. done. }
  rewrite (exec_bind_run _ _ _ _ _ Hrun).
  rewrite (exec_bind_run _ _ _ _ _ (sem_post_Done sem wA)).
  eexists. reflexivity.
Qed.

(** X24: a publish of a name that the table does not yet hold, followed by
    a consume of that name in the same process, both under a system that
    refuses nothing: the publish succeeds, and the consume returns the
    array that was published, whatever the array it was given held. *)
Theorem publish_consume_roundtrip name arr buf w :
  name <> "" ->
  has_slash name = false ->
  c_string name ->
  (String.length name <= 58)%nat ->
  Forall (fun x => 0 <= x < 2 ^ 64) arr ->
  Z.of_nat (length arr) < 2 ^ 59 ->
  find_slot_by_name w ("/" ++ name) = -1 ->
  0 <= find_free_slot w ->
  exists w1 w2,
    write_array_to_shared_memory os_ok name (Some arr) w = Done (Ok tt) w1
    /\ read_array_from_shared_memory os_ok name (Some buf) w1 = Done (Ok arr) w2.
Proof.
  intros Hne Hslash Hcstr Hlen Hrange Hsmall Hnone Hfree.
  destruct (publish_fresh name arr w Hne Hslash Hlen Hsmall Hnone Hfree)
    as (w1 & m & v & Hpub & Hfind & Haddr & Hmap & _ & _ & H8 & H16 & H48
        & Hput & Hv & Hpos).
  destruct (consume_mapped name arr buf w1 (find_free_slot w) (next_block w) m v)
    as [w2 Hcons]; try done; [lia|].
  by exists w1, w2.
Qed.

(** The sample publish and the consume that follows, into an array that held two elements. *)
Lemma publish_consume_roundtrip_witness :
  exists w1 w2,
    write_array_to_shared_memory os_ok "grid2" (Some sample_array) empty_world
    = Done (Ok tt) w1
    /\ read_array_from_shared_memory os_ok "grid2" (Some [7; 7]) w1
       = Done (Ok sample_array) w2.
Proof.
  apply (publish_consume_roundtrip "grid2" sample_array [7; 7] empty_world).
  - discriminate.
  - reflexivity.
  - unfold c_string. simpl. by repeat (apply Forall_cons; split; [done|]).
  - simpl. lia.
  - unfold sample_array. by repeat (apply Forall_cons; split; [lia|]).
  - simpl. lia.
  - vm_compute. reflexivity.
  - vm_compute. discriminate.
Defined.



(** X26: the layout a publish leaves in the object, for a name that the
    table does not yet hold and a system that refuses nothing: the object
    is 112 bytes of envelope followed by eight bytes for each element; the
    byte count of the payload lies at offset 0 and the element count at
    offset 8, both as eight bytes, least significant first; the type tag
    ["double_array"] lies at offset 16 and the name of the semaphore at
    offset 48, both with their terminator; element [j] lies at offset
    [112 + 8 j]; and the semaphore is up. *)
Theorem publish_layout name arr w :
  name <> "" ->
  has_slash name = false ->
  (String.length name <= 58)%nat ->
  Z.of_nat (length arr) < 2 ^ 59 ->
  find_slot_by_name w ("/" ++ name) = -1 ->
  0 <= find_free_slot w ->
  exists w1 m v,
    write_array_to_shared_memory os_ok name (Some arr) w = Done (Ok tt) w1
    /\ shm_files w1 !! name = Some m
    /\ Z.of_nat (length m) = 112 + 8 * Z.of_nat (length arr)
    /\ holds m 0 (le_bytes 8 (8 * Z.of_nat (length arr)))
    /\ holds m 8 (le_bytes 8 (Z.of_nat (length arr)))
    /\ holds m 16 (c_str "double_array")
    /\ holds m 48 (c_str ("/sem_" ++ name))
    /\ (forall j x, arr !! j = Some x ->
                    holds m (112 + 8 * Z.of_nat j) (le_bytes 8 x))
    /\ semaphores w1 !! ("sem_" ++ name)%string = Some v
    /\ (0 < v)%N.
Proof.
  intros Hne Hslash Hlen Hsmall Hnone Hfree.
  destruct (publish_fresh name arr w Hne Hslash Hlen Hsmall Hnone Hfree)
    as (w1 & m & v & Hpub & _ & _ & [_ Hfile] & H).
  by exists w1, m, v.
Qed.

(** The layout of the sample publish. *)
Lemma publish_layout_witness :
  exists w1 m v,
    write_array_to_shared_memory os_ok "grid2" (Some sample_array) empty_world
    = Done (Ok tt) w1
    /\ shm_files w1 !! "grid2" = Some m
    /\ Z.of_nat (length m) = 112 + 8 * Z.of_nat (length sample_array)
    /\ holds m 0 (le_bytes 8 (8 * Z.of_nat (length sample_array)))
    /\ holds m 8 (le_bytes 8 (Z.of_nat (length sample_array)))
    /\ holds m 16 (c_str "double_array")
    /\ holds m 48 (c_str ("/sem_" ++ "grid2"))
    /\ (forall j x, sample_array !! j = Some x ->
                    holds m (112 + 8 * Z.of_nat j) (le_bytes 8 x))
    /\ semaphores w1 !! ("sem_" ++ "grid2")%string = Some v
    /\ (0 < v)%N.
Proof.
  apply (publish_layout "grid2" sample_array empty_world).
  - discriminate.
  - reflexivity.
  - simpl. lia.
  - simpl. lia.
  - vm_compute. reflexivity.
  - vm_compute. discriminate.
Defined.

End ShmImplementationFacts.

(** ** The array operation of double_array_ops.cpp *)

Module DoubleArrayOpsFacts.
Import DoubleArrayOps.

Section Arrays.
Context {D : Type}.
Variable fmul : D -> D -> D.
Variable junk : D.

Lemma scale_loop_fills (array result : nat) (s : D) (a : list D) :
  array ≠ result ->
  Z.of_nat (length a) <= INT_MAX ->
  forall (n i : nat) (r : list D) (h : Heap),
    arrays h !! array = Some a ->
    arrays h !! result = Some r ->
    length r = length a ->
    (i + n <= length a)%nat ->
    exists h',
      scale_loop fmul array result s i n h = Done tt h'
      /\ arrays h' =
           <[result := take i r ++ ((fun x => fmul x s) <$> take n (drop i a))
                       ++ drop (i + n) r]> (arrays h)
      /\ to_free h' = to_free h.
Proof.
  intros Hne Hint. induction n as [|n IH]; intros i r h Ha Hr Hlen Hin.
  - exists h. simpl. split; [reflexivity|]. split; [|reflexivity].
    rewrite Nat.add_0_r. simpl. rewrite take_drop.
    symmetry. by apply insert_id.
  - destruct (lookup_lt_is_Some_2 a i) as [x Hx]; [lia|].
    simpl. unfold mbind, exec_bind, KN_get, KN_set. rewrite Ha, Hx, Hr.
    destruct (decide (i < length r)%nat) as [_|]; [|lia].
    destruct (decide (Z.of_nat i = INT_MAX)) as [|_]; [lia|].
    set (h1 := mkHeap _ _).
    destruct (IH (S i) (<[i := fmul x s]> r) h1) as (h' & Hrun & Harr & Hfree).
    + subst h1. simpl. by rewrite lookup_insert_ne.
    + subst h1. simpl. by rewrite lookup_insert_eq.
    + by rewrite length_insert.
    + lia.
    + exists h'. split; [exact Hrun|]. split; [|exact Hfree].
      rewrite Harr. subst h1. simpl. rewrite insert_insert_eq. f_equal.
      rewrite (take_S_r _ i (fmul x s)) by (apply list_lookup_insert_eq; lia).
      rewrite take_insert_ge by lia.
      rewrite (drop_S a x i Hx). rewrite firstn_cons. simpl.
      rewrite drop_insert_lt by lia.
      rewrite <- app_assoc. simpl.
      replace (i + S n)%nat with (S (i + n)) by lia. reflexivity.
Qed.

(** Inside the range of the [int] counter: for an array of at most
    [INT_MAX] elements, [scaleDoubleArray] returns a newly allocated array
    of the same length whose element at every index is the argument's
    element times the scalar, and leaves the argument as it was. *)
Lemma ScaleDoubleArray_scales (h : Heap) (array : nat) (a : list D) (s : D) :
  arrays h !! array = Some a ->
  Z.of_nat (length a) <= INT_MAX ->
  exists (result : nat) (h' : Heap) (r : list D),
    ScaleDoubleArray fmul junk array s h = Done result h'
    /\ arrays h !! result = None
    /\ arrays h' !! result = Some r
    /\ length r = length a
    /\ (forall i x, a !! i = Some x -> r !! i = Some (fmul x s))
    /\ arrays h' !! array = Some a.
Proof.
  intros Ha Hint.
  set (p := fresh (dom (arrays h))).
  assert (Hp : arrays h !! p = None).
  { apply not_elem_of_dom. apply is_fresh. }
  assert (Hne : array ≠ p) by (intros ->; congruence).
  unfold ScaleDoubleArray, mbind, exec_bind, KN_N, new_KN. rewrite Ha.
  fold p. set (h1 := mkHeap _ _).
  destruct (scale_loop_fills array p s a Hne Hint (length a) 0
              (replicate (length a) junk) h1)
    as (h' & Hrun & Harr & Hfree).
  - subst h1. simpl. by rewrite lookup_insert_ne.
  - subst h1. simpl. by rewrite lookup_insert_eq.
  - by rewrite length_replicate.
  - lia.
  - rewrite Hrun. unfold Add2StackOfPtr2Free, modify, mret, exec_ret. simpl.
    rewrite take_0, drop_0, firstn_all in Harr. simpl in Harr.
    rewrite drop_ge in Harr by (rewrite length_replicate; lia).
    rewrite app_nil_r in Harr.
    exists p, (mkHeap (arrays h') (to_free h' ++ [p])), ((fun x => fmul x s) <$> a).
    split; [reflexivity|]. split; [exact Hp|]. simpl. rewrite Harr.
    split; [by rewrite lookup_insert_eq|].
    split; [by rewrite length_fmap|].
    split.
    + intros i x Hx. by rewrite list_lookup_fmap, Hx.
    + rewrite lookup_insert_ne by done. subst h1. simpl.
      by rewrite lookup_insert_ne.
Qed.

(** Outside that range the loop does not come to its end: the counter
    reaches [INT_MAX] while elements remain, and its increment overflows. *)
Lemma scale_loop_overflows (array result : nat) (s : D) (a : list D) :
  array ≠ result ->
  forall (n i : nat) (r : list D) (h : Heap),
    arrays h !! array = Some a ->
    arrays h !! result = Some r ->
    length r = length a ->
    (i + n <= length a)%nat ->
    Z.of_nat i <= INT_MAX < Z.of_nat (i + n) ->
    exists h', scale_loop fmul array result s i n h = Trap h'.
Proof.
  intros Hne. induction n as [|n IH]; intros i r h Ha Hr Hlen Hin Hover; [lia|].
  destruct (lookup_lt_is_Some_2 a i) as [x Hx]; [lia|].
  simpl. unfold mbind, exec_bind, KN_get, KN_set. rewrite Ha, Hx, Hr.
  destruct (decide (i < length r)%nat) as [_|]; [|lia].
  destruct (decide (Z.of_nat i = INT_MAX)) as [|Hi]; [by eexists|].
  apply (IH (S i) (<[i := fmul x s]> r)).
  - simpl. by rewrite lookup_insert_ne.
  - simpl. by rewrite lookup_insert_eq.
  - by rewrite length_insert.
  - lia.
  - lia.
Qed.

Lemma ScaleDoubleArray_overflows (h : Heap) (array : nat) (a : list D) (s : D) :
  arrays h !! array = Some a ->
  INT_MAX < Z.of_nat (length a) ->
  exists h', ScaleDoubleArray fmul junk array s h = Trap h'.
Proof.
  intros Ha Hlong.
  set (p := fresh (dom (arrays h))).
  assert (Hp : arrays h !! p = None).
  { apply not_elem_of_dom. apply is_fresh. }
  assert (Hne : array ≠ p) by (intros ->; congruence).
  unfold ScaleDoubleArray, mbind, exec_bind, KN_N, new_KN. rewrite Ha.
  fold p. set (h1 := mkHeap _ _).
  destruct (scale_loop_overflows array p s a Hne (length a) 0
              (replicate (length a) junk) h1)
    as [h' Hrun].
  - subst h1. simpl. by rewrite lookup_insert_ne.
  - subst h1. simpl. by rewrite lookup_insert_eq.
  - by rewrite length_replicate.
  - lia.
  - unfold INT_MAX in *. lia.
  - rewrite Hrun. by eexists.
Qed.

End Arrays.

(** C10 on an array of [2^31] elements: [scaleDoubleArray] returns no
    array.  The [int] counter of its loop reaches [INT_MAX] at the last
    element, and the increment that follows overflows. *)
Theorem ScaleDoubleArray_long_array :
  exists h',
    ScaleDoubleArray PrimFloat.mul 0%float 7%nat 2%float long_heap = Trap h'.
Proof.
  apply (ScaleDoubleArray_overflows PrimFloat.mul 0%float long_heap 7%nat
           (replicate (Z.to_nat (2 ^ 31)) 1%float) 2%float).
  - unfold long_heap. cbn [arrays]. apply lookup_insert_eq.
  - rewrite length_replicate, Z2Nat.id by (apply Z.pow_nonneg; lia).
    reflexivity.
Qed.

(** The lemma on the sample heap, with the product of the primitive
    floats. *)
Lemma ScaleDoubleArray_scales_witness :
  exists (result : nat) (h' : Heap) (r : list float),
    ScaleDoubleArray PrimFloat.mul 0%float 7%nat 2%float sample_heap
    = Done result h'
    /\ arrays sample_heap !! result = None
    /\ arrays h' !! result = Some r
    /\ length r = 3%nat
    /\ (forall i x, [1.5; 2; -3]%float !! i = Some x ->
                    r !! i = Some (PrimFloat.mul x 2))
    /\ arrays h' !! 7%nat = Some [1.5; 2; -3]%float.
Proof.
  apply (ScaleDoubleArray_scales PrimFloat.mul 0%float sample_heap 7%nat
           [1.5; 2; -3]%float 2%float).
  - vm_compute. reflexivity.
  - vm_compute. discriminate.
Defined.

(** On the sample heap: [1.5, 2, -3] times 2 is [3, 4, -6], at a new
    address. *)
Example ScaleDoubleArray_sample :
  exists result h',
    ScaleDoubleArray PrimFloat.mul 0%float 7%nat 2%float sample_heap
    = Done result h'
    /\ arrays h' !! result = Some [3; 4; -6]%float
    /\ result <> 7%nat.
Proof. do 2 eexists. split; [vm_compute; reflexivity|]. split; vm_compute; [reflexivity|discriminate]. Qed.

Section Frame.
Context {D : Type}.
Variable fmul : D -> D -> D.
Variable junk : D.

(** The heap [scaleDoubleArray] leaves behind. *)
Lemma ScaleDoubleArray_run (h : Heap) (array : nat) (a : list D) (s : D) :
  arrays h !! array = Some a ->
  Z.of_nat (length a) <= INT_MAX ->
  ScaleDoubleArray fmul junk array s h
  = Done (fresh (dom (arrays h)))
      (mkHeap (<[fresh (dom (arrays h)) := (fun x => fmul x s) <$> a]> (arrays h))
         (to_free h ++ [fresh (dom (arrays h))])).
Proof.
  intros Ha Hint.
  set (p := fresh (dom (arrays h))).
  assert (Hp : arrays h !! p = None).
  { apply not_elem_of_dom. apply is_fresh. }
  assert (Hne : array ≠ p) by (intros ->; congruence).
  unfold ScaleDoubleArray, mbind, exec_bind, KN_N, new_KN. rewrite Ha.
  fold p. set (h1 := mkHeap _ _).
  destruct (scale_loop_fills fmul array p s a Hne Hint (length a) 0
              (replicate (length a) junk) h1)
    as (h' & Hrun & Harr & Hfree).
  - subst h1. simpl. by rewrite lookup_insert_ne.
  - subst h1. simpl. by rewrite lookup_insert_eq.
  - by rewrite length_replicate.
  - lia.
  - rewrite Hrun. unfold Add2StackOfPtr2Free, modify, mret, exec_ret. simpl.
    rewrite take_0, drop_0, firstn_all in Harr. simpl in Harr.
    rewrite drop_ge in Harr by (rewrite length_replicate; lia).
    rewrite app_nil_r in Harr. subst h1. simpl in *.
    rewrite insert_insert_eq in Harr. by rewrite Harr, Hfree.
Qed.

(** X27: [scaleDoubleArray] hands exactly its result to the interpreter for
    freeing, after what was queued before, and leaves every array that
    existed as it was. *)
Theorem ScaleDoubleArray_frame (h : Heap) (array : nat) (a : list D) (s : D) :
  arrays h !! array = Some a ->
  Z.of_nat (length a) <= INT_MAX ->
  exists (result : nat) (h' : Heap),
    ScaleDoubleArray fmul junk array s h = Done result h'
    /\ to_free h' = to_free h ++ [result]
    /\ forall p, is_Some (arrays h !! p) -> arrays h' !! p = arrays h !! p.
Proof.
  intros Ha Hint. do 2 eexists.
  split; [by apply ScaleDoubleArray_run|]. split; [done|].
  intros p Hp. simpl. rewrite lookup_insert_ne; [done|].
  intros <-. pose proof (is_fresh (dom (arrays h))) as Hf.
  apply not_elem_of_dom in Hf. rewrite Hf in Hp. by destruct Hp.
Qed.

(** X28: two calls in a row, on an array of at most [INT_MAX] elements:
    scaling by [s] and then scaling the result by [t] gives a third array
    whose elements are the first array's times [s] times [t]; the first
    array and the intermediate one are still there. *)
Theorem ScaleDoubleArray_twice (h : Heap) (array : nat) (a : list D) (s t : D) :
  arrays h !! array = Some a ->
  Z.of_nat (length a) <= INT_MAX ->
  exists (r1 r2 : nat) (h1 h2 : Heap),
    ScaleDoubleArray fmul junk array s h = Done r1 h1
    /\ ScaleDoubleArray fmul junk r1 t h1 = Done r2 h2
    /\ arrays h2 !! r2 = Some ((fun x => fmul (fmul x s) t) <$> a)
    /\ arrays h2 !! r1 = Some ((fun x => fmul x s) <$> a)
    /\ arrays h2 !! array = Some a
    /\ r1 <> array /\ r2 <> array /\ r2 <> r1.
Proof.
  intros Ha Hint.
  set (r1 := fresh (dom (arrays h))).
  set (h1 := mkHeap (<[r1 := (fun x => fmul x s) <$> a]> (arrays h))
               (to_free h ++ [r1])).
  set (r2 := fresh (dom (arrays h1))).
  assert (H1 : arrays h !! r1 = None).
  { apply not_elem_of_dom. apply is_fresh. }
  assert (H2 : arrays h1 !! r2 = None).
  { apply not_elem_of_dom. apply is_fresh. }
  assert (Hr1 : arrays h1 !! r1 = Some ((fun x => fmul x s) <$> a)).
  { subst h1. simpl. by rewrite lookup_insert_eq. }
  assert (Hne1 : r1 <> array) by (intros E; rewrite E in H1; congruence).
  assert (Hne2 : r2 <> r1) by (intros E; rewrite E in H2; congruence).
  assert (Hne3 : r2 <> array).
  { intros E. rewrite E in H2. subst h1. simpl in H2.
    rewrite lookup_insert_ne in H2 by done. congruence. }
  exists r1, r2, h1,
    (mkHeap (<[r2 := (fun x => fmul x t) <$> ((fun x => fmul x s) <$> a)]>
               (arrays h1))
       (to_free h1 ++ [r2])).
  split; [by apply ScaleDoubleArray_run|].
  split.
  { apply (ScaleDoubleArray_run h1 r1 _ t Hr1). by rewrite length_fmap. }
  simpl.
  split; [rewrite lookup_insert_eq; f_equal; by rewrite <- list_fmap_compose|].
  split; [by rewrite lookup_insert_ne, lookup_insert_eq|].
  split; [by rewrite !lookup_insert_ne|done].
Qed.

End Frame.

(** The sample heap, scaled by 2. *)
Lemma ScaleDoubleArray_frame_witness :
  exists (result : nat) (h' : Heap),
    ScaleDoubleArray PrimFloat.mul 0%float 7%nat 2%float sample_heap
    = Done result h'
    /\ to_free h' = to_free sample_heap ++ [result]
    /\ forall p, is_Some (arrays sample_heap !! p) ->
                 arrays h' !! p = arrays sample_heap !! p.
Proof.
  apply (ScaleDoubleArray_frame PrimFloat.mul 0%float sample_heap 7%nat
           [1.5; 2; -3]%float 2%float).
  - vm_compute. reflexivity.
  - vm_compute. discriminate.
Defined.

(** The sample heap, scaled by 2 and then by 0.5. *)
Lemma ScaleDoubleArray_twice_witness :
  exists (r1 r2 : nat) (h1 h2 : Heap),
    ScaleDoubleArray PrimFloat.mul 0%float 7%nat 2%float sample_heap = Done r1 h1
    /\ ScaleDoubleArray PrimFloat.mul 0%float r1 0.5%float h1 = Done r2 h2
    /\ arrays h2 !! r2
       = Some ((fun x => PrimFloat.mul (PrimFloat.mul x 2) 0.5)
                 <$> [1.5; 2; -3]%float)
    /\ arrays h2 !! r1
       = Some ((fun x => PrimFloat.mul x 2) <$> [1.5; 2; -3]%float)
    /\ arrays h2 !! 7%nat = Some [1.5; 2; -3]%float
    /\ r1 <> 7%nat /\ r2 <> 7%nat /\ r2 <> r1.
Proof.
  apply (ScaleDoubleArray_twice PrimFloat.mul 0%float sample_heap 7%nat
           [1.5; 2; -3]%float 2%float 0.5%float).
  - vm_compute. reflexivity.
  - vm_compute. discriminate.
Defined.

(** *** The operations on the channel *)

Import ShmImplementation.

Lemma on_heap_run {A} (m : exec Heap A) s a h :
  m (heap s) = Done a h -> on_heap m s = Done a (mkInterp h (channel s)).
Proof. intros H. unfold on_heap, zoom. by rewrite H. Qed.

Lemma on_channel_run {A} (m : exec World A) s a c :
  m (channel s) = Done a c -> on_channel m s = Done a (mkInterp (heap s) c).
Proof. intros H. unfold on_channel, zoom. by rewrite H. Qed.

(** X29: [shmReadDoubleArray] returns a newly allocated array whenever it
    returns: it holds what the consume delivered, or nothing when the
    consume failed; it is queued for freeing, and the arrays that existed
    are as they were. *)
Theorem ShmReadDoubleArray_result os name s result s' :
  ShmReadDoubleArray os name s = Done result s' ->
  arrays (heap s) !! result = None
  /\ to_free (heap s') = to_free (heap s) ++ [result]
  /\ (forall p, p <> result -> arrays (heap s') !! p = arrays (heap s) !! p)
  /\ exists r,
       read_array_from_shared_memory os name (Some []) (channel s)
       = Done r (channel s')
       /\ arrays (heap s') !! result
          = Some (match r with Ok a => a | Err _ => [] end).
Proof.
  unfold ShmReadDoubleArray.
  set (p := fresh (dom (arrays (heap s)))).
  assert (Hp : arrays (heap s) !! p = None).
  { apply not_elem_of_dom. apply is_fresh. }
  rewrite (exec_bind_run _ _ _ p
             (mkInterp (mkHeap (<[p := []]> (arrays (heap s))) (to_free (heap s)))
                (channel s))) by (by apply on_heap_run).
  rewrite exec_bind_unfold. unfold on_channel at 1, zoom. cbn [channel heap].
  destruct (read_array_from_shared_memory os name (Some []) (channel s))
    as [r c|c] eqn:Hread; [|discriminate].
  destruct r as [a|e].
  - unfold on_heap, zoom, KN_assign, Add2StackOfPtr2Free, modify.
    rewrite !exec_bind_unfold. cbn [channel heap arrays to_free].
    rewrite lookup_insert_eq.
    intros [= <- <-]. cbn [channel heap arrays to_free].
    split; [done|]. split; [done|]. split.
    + intros q Hq. by rewrite !lookup_insert_ne.
    + exists (Ok a). split; [done|]. by rewrite lookup_insert_eq.
  - unfold on_heap, zoom, Add2StackOfPtr2Free, modify.
    rewrite !exec_bind_unfold. cbn [channel heap arrays to_free].
    intros [= <- <-]. cbn [channel heap arrays to_free].
    split; [done|]. split; [done|]. split.
    + intros q Hq. by rewrite lookup_insert_ne.
    + exists (Err e). split; [done|]. by rewrite lookup_insert_eq.
Qed.

(** The read that follows the sample write: the new array is at address 8. *)
Lemma ShmReadDoubleArray_result_witness :
  arrays (heap published_interp) !! 8%nat = None
  /\ to_free (heap (final_world (ShmReadDoubleArray os_ok "grid2" published_interp)))
     = to_free (heap published_interp) ++ [8%nat]
  /\ (forall p, p <> 8%nat ->
        arrays (heap (final_world (ShmReadDoubleArray os_ok "grid2" published_interp)))
          !! p
        = arrays (heap published_interp) !! p)
  /\ exists r,
       read_array_from_shared_memory os_ok "grid2" (Some [])
         (channel published_interp)
       = Done r
           (channel (final_world (ShmReadDoubleArray os_ok "grid2" published_interp)))
       /\ arrays (heap (final_world (ShmReadDoubleArray os_ok "grid2" published_interp)))
            !! 8%nat
          = Some (match r with Ok a => a | Err _ => [] end).
Proof.
  apply (ShmReadDoubleArray_result os_ok "grid2" published_interp 8%nat
           (final_world (ShmReadDoubleArray os_ok "grid2" published_interp))).
  vm_compute. reflexivity.
Defined.

(** X30: through the interpreter, in one process and under a system that
    refuses nothing: [shmWriteDoubleArray] of an array under a name that
    the table does not yet hold returns 1, and the [shmReadDoubleArray] of
    that name that follows returns a new array with the same elements; the
    array that was written is as it was. *)
Theorem interpreter_roundtrip name p a s :
  arrays (heap s) !! p = Some a ->
  name <> "" ->
  has_slash name = false ->
  c_string name ->
  (String.length name <= 58)%nat ->
  Forall (fun x => 0 <= x < 2 ^ 64) a ->
  Z.of_nat (length a) < 2 ^ 59 ->
  find_slot_by_name (channel s) ("/" ++ name) = -1 ->
  0 <= find_free_slot (channel s) ->
  exists s1 result s2,
    ShmWriteDoubleArray os_ok (Some p) name s = Done 1 s1
    /\ ShmReadDoubleArray os_ok name s1 = Done result s2
    /\ result <> p
    /\ arrays (heap s2) !! result = Some a
    /\ arrays (heap s2) !! p = Some a.
Proof.
  intros Ha Hne Hslash Hcstr Hlen Hrange Hsmall Hnone Hfree.
  destruct (ShmImplementationFacts.publish_fresh name a (channel s)
              Hne Hslash Hlen Hsmall Hnone Hfree)
    as (w1 & m & v & Hpub & Hfind & Haddr & Hmap & _ & _ & H8 & H16 & H48
        & Hput & Hv & Hpos).
  destruct (ShmImplementationFacts.consume_mapped name a [] w1
              (find_free_slot (channel s)) (next_block (channel s)) m v)
    as [w2 Hcons]; try done; [lia|].
  set (q := fresh (dom (arrays (heap s)))).
  assert (Hq : arrays (heap s) !! q = None).
  { apply not_elem_of_dom. apply is_fresh. }
  assert (Hqp : q <> p) by (intros E; rewrite E in Hq; congruence).
  exists (mkInterp (heap s) w1), q,
    (mkInterp (mkHeap (<[q := a]> (<[q := []]> (arrays (heap s))))
                 (to_free (heap s) ++ [q])) w2).
  split.
  { unfold ShmWriteDoubleArray.
    rewrite (exec_bind_run _ _ _ (Some a) s).
    2:{ rewrite (exec_bind_run _ _ _ a s); [done|].
        unfold on_heap, zoom, KN_elements. rewrite Ha. by destruct s. }
    rewrite (exec_bind_run _ _ _ _ _ (on_channel_run _ s _ _ Hpub)). done. }
  split.
  { unfold ShmReadDoubleArray.
    rewrite (exec_bind_run _ _ _ q
               (mkInterp (mkHeap (<[q := []]> (arrays (heap s))) (to_free (heap s)))
                  w1)) by (by apply on_heap_run).
    rewrite (exec_bind_run _ _ _ (Ok a)
               (mkInterp (mkHeap (<[q := []]> (arrays (heap s))) (to_free (heap s)))
                  w2)) by (by apply on_channel_run).
    unfold on_heap, zoom, KN_assign, Add2StackOfPtr2Free, modify.
    rewrite !exec_bind_unfold. cbn [channel heap arrays to_free].
    by rewrite lookup_insert_eq. }
  split; [done|]. cbn [heap arrays].
  split; [by rewrite lookup_insert_eq|by rewrite !lookup_insert_ne].
Qed.

(** The sample array written under ["grid2"] and read back. *)
Lemma interpreter_roundtrip_witness :
  exists s1 result s2,
    ShmWriteDoubleArray os_ok (Some 7%nat) "grid2" sample_interp = Done 1 s1
    /\ ShmReadDoubleArray os_ok "grid2" s1 = Done result s2
    /\ result <> 7%nat
    /\ arrays (heap s2) !! result = Some sample_array
    /\ arrays (heap s2) !! 7%nat = Some sample_array.
Proof.
  apply (interpreter_roundtrip "grid2" 7%nat sample_array sample_interp).
  - vm_compute. reflexivity.
  - discriminate.
  - reflexivity.
  - unfold c_string. simpl. by repeat (apply Forall_cons; split; [done|]).
  - simpl. lia.
  - unfold sample_array. by repeat (apply Forall_cons; split; [lia|]).
  - simpl. lia.
  - vm_compute. reflexivity.
  - vm_compute. discriminate.
Defined.

End DoubleArrayOpsFacts.
